(** * bun-pyroscope: folded-stack codec, label encoding and window loop

    A shallow embedding of [src/converter.ts], [src/labels.ts] and
    [src/profiler.ts], with the properties of the specification stated
    and proved over it.

    Conventions of the embedding.
    - A JavaScript string is a [string]: a sequence of code units below
      256.  The white space removed by [String.prototype.trim] is taken
      in that range (TAB, LF, VT, FF, CR, SPACE, NBSP).
    - Node ids, line numbers, byte sizes, timestamps in seconds and the
      retry budget are integers ([Z]); counters are [nat].  Template
      literals print them in decimal.
    - Where the source computes in binary64 ([calculateSampleRate])
      the embedding uses the kernel's primitive floats. *)

From Stdlib Require Import ZArith Ascii String DecimalString List Bool.
From Stdlib Require Import Uint63 PrimFloat FloatOps SpecFloat FloatAxioms.
From Stdlib Require OrderedTypeEx.
From stdpp Require Import gmap strings list sorting.

#[local] Set Warnings "-register-all".
#[local] Open Scope Z_scope.
#[local] Open Scope string_scope.

(** ** JavaScript string primitives used by the sources *)

Module JsString.

(** [`${n}`] for an integer [n]. *)
Definition showZ (n : Z) : string := NilZero.string_of_int (Z.to_int n).

Definition showNat (n : nat) : string := showZ (Z.of_nat n).

(** White space of [trim()], among the code units below 256. *)
Definition isWhiteSpace (c : ascii) : bool :=
  let n := nat_of_ascii c in
  ((9 <=? n)%nat && (n <=? 13)%nat) || (n =? 32)%nat || (n =? 160)%nat.

Fixpoint trimStart (s : string) : string :=
  match s with
  | EmptyString => EmptyString
  | String c s' => if isWhiteSpace c then trimStart s' else s
  end.

(** [trimEnd s]: a character is kept when it is not white space or
    something is kept after it. *)
Fixpoint trimEnd (s : string) : string :=
  match s with
  | EmptyString => EmptyString
  | String c s' =>
      match trimEnd s' with
      | EmptyString => if isWhiteSpace c then EmptyString else String c EmptyString
      | t => String c t
      end
  end.

Definition trim (s : string) : string := trimEnd (trimStart s).

(** [s.startsWith(p)] *)
Fixpoint startsWith (s p : string) {struct p} : bool :=
  match p, s with
  | EmptyString, _ => true
  | String c p', String d s' => Ascii.eqb c d && startsWith s' p'
  | String _ _, EmptyString => false
  end.

(** [s.slice(n)] for [0 <= n]. *)
Fixpoint sliceFrom (n : nat) (s : string) : string :=
  match n, s with
  | O, _ => s
  | S n', String _ s' => sliceFrom n' s'
  | S _, EmptyString => EmptyString
  end.

(** [s.split(sep)] for a one-character separator: never empty. *)
Fixpoint split (sep : ascii) (s : string) : list string :=
  match s with
  | EmptyString => [EmptyString]
  | String c s' =>
      if Ascii.eqb c sep then EmptyString :: split sep s'
      else match split sep s' with
           | [] => [String c EmptyString]
           | p :: ps => String c p :: ps
           end
  end.

(** [parts.join(sep)] *)
Fixpoint join (sep : string) (parts : list string) : string :=
  match parts with
  | [] => EmptyString
  | [p] => p
  | p :: ps => p ++ sep ++ join sep ps
  end.

(** [xs.slice(-2)]: the last two elements, or all of them. *)
Definition lastTwo {A} (xs : list A) : list A :=
  skipn (length xs - 2)%nat xs.

End JsString.

Import JsString.

(** ** Frame model ([src/types.ts]) *)

Record CdpCallFrame := mkCallFrame {
  functionName : string;
  scriptId : string;
  url : string;
  lineNumber : Z;
  columnNumber : Z
}.

Record CdpNode := mkNode {
  node_id : Z;
  callFrame : CdpCallFrame;
  hitCount : option Z;
  (** IDs of child nodes in the call tree; the field is optional. *)
  children : option (list Z)
}.

(** [samples] and [timeDeltas] may be missing at run time, which the
    converter guards against; [startTime] and [endTime] are numbers. *)
Record CdpProfile := mkProfile {
  nodes : list CdpNode;
  startTime : float;
  endTime : float;
  samples : option (list Z);
  timeDeltas : option (list Z)
}.

Inductive HeapProfileNode := mkHeapNode {
  heap_callFrame : CdpCallFrame;
  selfSize : Z;
  heap_id : Z;
  heap_children : list HeapProfileNode
}.

Record SamplingHeapProfile := mkHeapProfile { head : HeapProfileNode }.

(** ** Folded-stack codec ([src/converter.ts]) *)

Definition shouldSkipFrame (functionName url : string) : bool :=
  if String.eqb functionName "(root)" || String.eqb functionName "(idle)" then true
  else if String.eqb url "node:inspector" then true
  else false.

Definition isRoot (functionName : string) : bool :=
  String.eqb functionName "(root)".

(** The local [name] of [frameLabel]: [functionName.trim() || "(anonymous)"]. *)
Definition frameName (cf : CdpCallFrame) : string :=
  match trim (functionName cf) with
  | EmptyString => "(anonymous)"
  | t => t
  end.

(** The local [shortUrl] of [frameLabel]. *)
Definition shortenUrl (u : string) : string :=
  if startsWith u "file://"
  then join "/" (lastTwo (split "/" (sliceFrom 7 u)))
  else u.

Definition frameLabel (cf : CdpCallFrame) : string :=
  let name := frameName cf in
  if String.eqb (url cf) "" then name
  else
    let shortUrl := shortenUrl (url cf) in
    if (0 <=? lineNumber cf)%Z
    then name ++ " (" ++ shortUrl ++ ":" ++ showZ (lineNumber cf) ++ ")"
    else name ++ " (" ++ shortUrl ++ ")".

(** An insertion-ordered store with string keys, one entry per key:
    a [Map<string, V>], or a plain object used as a record of labels
    (for which the order of the keys is the order of insertion). *)
Module JsMap.

Definition t (V : Type) := list (string * V).

Definition empty {V} : t V := [].

Fixpoint get {V} (k : string) (m : t V) : option V :=
  match m with
  | [] => None
  | (k', v) :: m' => if String.eqb k' k then Some v else get k m'
  end.

(** [set] overwrites in place, or appends a new key at the end. *)
Fixpoint set {V} (k : string) (v : V) (m : t V) : t V :=
  match m with
  | [] => [(k, v)]
  | (k', v') :: m' =>
      if String.eqb k' k then (k', v) :: m' else (k', v') :: set k v m'
  end.

Definition entries {V} (m : t V) : list (string * V) := m.

(** [{ ...base, ...extra }] *)
Definition spread {V} (base extra : t V) : t V :=
  fold_left (fun m kv => set (fst kv) (snd kv) m) extra base.

End JsMap.

(** *** CPU conversion *)

(** Safety cap against malformed profiles. *)
Definition MAX_DEPTH : nat := 512%nat.

(** Step 1: id -> node (a later node with the same id overwrites). *)
Definition buildNodeMap (ns : list CdpNode) : gmap Z CdpNode :=
  foldl (fun m node => <[node_id node := node]> m) ∅ ns.

(** Step 2: child -> parent, the inverse of the [children] edges. *)
Definition buildParentMap (ns : list CdpNode) : gmap Z Z :=
  foldl (fun m node =>
           match children node with
           | Some cs => foldl (fun m' childId => <[childId := node_id node]> m') m cs
           | None => m
           end) ∅ ns.

(** The [while (currentId !== undefined && depth < MAX_DEPTH)] loop.
    [budget] is [MAX_DEPTH - depth]; [frames.push] appends. *)
Fixpoint walkUp (nodeMap : gmap Z CdpNode) (parentMap : gmap Z Z)
    (budget : nat) (currentId : option Z) (frames : list string) : list string :=
  match budget with
  | O => frames
  | S budget' =>
      match currentId with
      | None => frames
      | Some cid =>
          match nodeMap !! cid with
          | None => frames
          | Some node =>
              let fn := functionName (callFrame node) in
              let u := url (callFrame node) in
              if isRoot fn then frames
              else
                let frames' :=
                  if shouldSkipFrame fn u then frames
                  else (frames ++ [frameLabel (callFrame node)])%list in
                walkUp nodeMap parentMap budget' (parentMap !! cid) frames'
          end
      end
  end.

(** The frames of one sample after [frames.reverse()]. *)
Definition sampleFrames (nodeMap : gmap Z CdpNode) (parentMap : gmap Z Z)
    (leafId : Z) : list string :=
  rev (walkUp nodeMap parentMap MAX_DEPTH (Some leafId) []).

(** One iteration of [for (const leafId of samples)]. *)
Definition countSample (nodeMap : gmap Z CdpNode) (parentMap : gmap Z Z)
    (stackCounts : JsMap.t nat) (leafId : Z) : JsMap.t nat :=
  let frames := sampleFrames nodeMap parentMap leafId in
  if (length frames =? 0)%nat then stackCounts
  else
    let stackStr := join ";" frames in
    JsMap.set stackStr (default 0%nat (JsMap.get stackStr stackCounts) + 1)%nat stackCounts.

Definition stackCountsOf (ns : list CdpNode) (smpls : list Z) : JsMap.t nat :=
  foldl (countSample (buildNodeMap ns) (buildParentMap ns)) JsMap.empty smpls.

Definition foldedLine (e : string * nat) : string :=
  fst e ++ " " ++ showNat (snd e).

Definition newline : string := String (ascii_of_nat 10) EmptyString.

Definition convertToFolded (profile : CdpProfile) : string :=
  match samples profile with
  | None => ""
  | Some [] => ""
  | Some smpls =>
      join newline (map foldedLine (JsMap.entries (stackCountsOf (nodes profile) smpls)))
  end.

(** *** Heap conversion *)

(** [walk(node, frames)], threading the [lines] array it pushes to. *)
Fixpoint walkHeap (node : HeapProfileNode) (frames : list string)
    (lines : list string) {struct node} : list string :=
  let fn := functionName (heap_callFrame node) in
  let u := url (heap_callFrame node) in
  let nextFrames :=
    if isRoot fn || shouldSkipFrame fn u then frames
    else (frames ++ [frameLabel (heap_callFrame node)])%list in
  let lines1 :=
    if (0 <? selfSize node)%Z && (0 <? length nextFrames)%nat
    then (lines ++ [(join ";" nextFrames ++ " " ++ showZ (selfSize node))%string])%list
    else lines in
  fold_left (fun acc child => walkHeap child nextFrames acc) (heap_children node) lines1.

Definition convertHeapToFolded (profile : SamplingHeapProfile) : string :=
  join newline (walkHeap (head profile) [] []).

(** ** Vocabulary of the codec's properties *)

Fixpoint allWhiteSpace (s : string) : bool :=
  match s with
  | EmptyString => true
  | String c s' => isWhiteSpace c && allWhiteSpace s'
  end.

Fixpoint hasChar (sep : ascii) (s : string) : bool :=
  match s with
  | EmptyString => false
  | String c s' => Ascii.eqb c sep || hasChar sep s'
  end.

(** A frame that is neither the root marker nor a skipped frame. *)
Definition visibleFrame (cf : CdpCallFrame) : bool :=
  negb (isRoot (functionName cf)) && negb (shouldSkipFrame (functionName cf) (url cf)).

(** The nodes an upward walk passes before it stops, leaf first: it
    stops at a missing node, at the root frame, when there is no parent
    link, or when the depth budget is spent. *)
Fixpoint visited (nodeMap : gmap Z CdpNode) (parentMap : gmap Z Z)
    (budget : nat) (currentId : option Z) : list CdpNode :=
  match budget, currentId with
  | S budget', Some cid =>
      match nodeMap !! cid with
      | Some node =>
          if isRoot (functionName (callFrame node)) then []
          else node :: visited nodeMap parentMap budget' (parentMap !! cid)
      | None => []
      end
  | _, _ => []
  end.

(** The stacks of the samples that are not discarded, as the keys the
    counter is indexed by, in sample order. *)
Definition keysOf (nm : gmap Z CdpNode) (pm : gmap Z Z) (smpls : list Z) : list string :=
  map (join ";")
    (List.filter (fun fs => negb (length fs =? 0)%nat) (map (sampleFrames nm pm) smpls)).

Definition stackKeys (ns : list CdpNode) (smpls : list Z) : list string :=
  keysOf (buildNodeMap ns) (buildParentMap ns) smpls.

(** The path accumulated at a heap node below the path [frames]. *)
Definition heapPath (frames : list string) (node : HeapProfileNode) : list string :=
  if visibleFrame (heap_callFrame node)
  then (frames ++ [frameLabel (heap_callFrame node)])%list
  else frames.

(** Every node of a heap tree with its accumulated path, parents
    before children, children left to right. *)
Fixpoint heapVisits (node : HeapProfileNode) (frames : list string)
    {struct node} : list (HeapProfileNode * list string) :=
  (node, heapPath frames node)
    :: flat_map (fun child => heapVisits child (heapPath frames node)) (heap_children node).

Definition heapEmits (v : HeapProfileNode * list string) : bool :=
  (0 <? selfSize (fst v))%Z && negb (length (snd v) =? 0)%nat.

Definition heapLine (v : HeapProfileNode * list string) : string :=
  join ";" (snd v) ++ " " ++ showZ (selfSize (fst v)).

(** All the nodes of a heap tree. *)
Fixpoint heapNodes (node : HeapProfileNode) : list HeapProfileNode :=
  node :: flat_map heapNodes (heap_children node).

(** The id at which an upward walk breaks off because no node carries
    it ([if (!node) break]); [None] when the walk ends otherwise. *)
Fixpoint missingAt (nodeMap : gmap Z CdpNode) (parentMap : gmap Z Z)
    (budget : nat) (currentId : option Z) : option Z :=
  match budget, currentId with
  | S budget', Some cid =>
      match nodeMap !! cid with
      | Some node =>
          if isRoot (functionName (callFrame node)) then None
          else missingAt nodeMap parentMap budget' (parentMap !! cid)
      | None => Some cid
      end
  | _, _ => None
  end.

(** *** Profiles of the test suite *)

(** A frame with no url and no line, as [makeProfile] builds by default. *)
Definition plainFrame (name : string) : CdpCallFrame :=
  mkCallFrame name "1" "" (-1) (-1).

Definition plainNode (i : Z) (name : string) (cs : option (list Z)) : CdpNode :=
  mkNode i (plainFrame name) None cs.

(** The chain [(root) -> A -> B -> C] over four ids. *)
Definition chainProfile (r a b c : Z) (st et : float) (smpls : list Z) : CdpProfile :=
  mkProfile
    [plainNode r "(root)" (Some [a]); plainNode a "A" (Some [b]);
     plainNode b "B" (Some [c]); plainNode c "C" None]
    st et (Some smpls) None.

(** Two nodes that list each other as child: the parent links cycle. *)
Definition cyclicProfile : CdpProfile :=
  mkProfile [plainNode 2 "x" (Some [3]); plainNode 3 "y" (Some [2])]
    0%float 1000000%float (Some [2]) None.

(** [(root) -> parent -> (idle, selfSize = 512)] *)
Definition idleHeapProfile : SamplingHeapProfile :=
  mkHeapProfile
    (mkHeapNode (plainFrame "(root)") 0 1
       [mkHeapNode (plainFrame "parent") 0 2
          [mkHeapNode (plainFrame "(idle)") 512 3 []]]).

(** [(root) -> parent -> leaf], no self size anywhere. *)
Definition zeroHeapProfile : SamplingHeapProfile :=
  mkHeapProfile
    (mkHeapNode (plainFrame "(root)") 0 1
       [mkHeapNode (plainFrame "parent") 0 2
          [mkHeapNode (plainFrame "leaf") 0 3 []]]).

(** The test "handles node not found in nodeMap gracefully". *)
Definition unknownSampleProfile : CdpProfile :=
  mkProfile [plainNode 1 "(root)" (Some [2]); plainNode 2 "knownFunc" None]
    0%float 1000000%float (Some [99]) None.

(** A frame whose url is a plain path, not a [file://] url. *)
Definition plainPathFrame : CdpCallFrame :=
  mkCallFrame "handler" "1" "/home/user/app/src/handler.ts" 10 0.

(** *** Sample-rate estimation *)

(** A JavaScript number is a binary64 value: a primitive [float]. *)
Module JsNumber.

(** The number of elements of an array, as a number.  Array lengths
    are below [2^32], where the conversion is exact. *)
Definition ofLength (n : nat) : float :=
  PrimFloat.of_uint63 (Uint63.of_Z (Z.of_nat n)).

(** [Math.round]: the integer nearest to [x], halves going up; NaN,
    the infinities and the zeros are returned as they are, and a
    result of zero keeps the sign of [x].  A finite [x] is
    [(-1)^s * m * 2^e]; with [e >= 0] it is an integer already, and
    otherwise [floor (x + 1/2)] is computed exactly over [Z]. *)
Definition round (x : float) : float :=
  match Prim2SF x with
  | S754_finite s m e =>
      if (0 <=? e)%Z then x
      else
        let twice := (if s then Z.neg (2 * m) else Z.pos (2 * m))%Z in
        let r := ((twice + 2 ^ (- e)) / 2 ^ (1 - e))%Z in
        match r with
        | Z0 => if s then (-0)%float else 0%float
        | Zpos _ => PrimFloat.of_uint63 (Uint63.of_Z r)
        | Zneg _ => (- PrimFloat.of_uint63 (Uint63.of_Z (- r)))%float
        end
  | _ => x
  end.

End JsNumber.

Definition calculateSampleRate (profile : CdpProfile) : float :=
  match samples profile with
  | None => 100%float
  | Some [] => 100%float
  | Some smpls =>
      let durationUs := (endTime profile - startTime profile)%float in
      if (durationUs <=? 0)%float then 100%float
      else JsNumber.round ((JsNumber.ofLength (length smpls) / durationUs) * 1000000)%float
  end.

(** A binary64 value that is a number and is not negative: [+0], a
    positive finite value or [+infinity]. *)
Definition nonnegSF (x : spec_float) : Prop :=
  match x with
  | S754_zero false | S754_infinity false | S754_finite false _ _ => True
  | _ => False
  end.

(** The duration the rate is computed over. *)
Definition durationUs (profile : CdpProfile) : float :=
  (endTime profile - startTime profile)%float.

Definition profileOfLength (n : nat) (st et : float) : CdpProfile :=
  mkProfile [plainNode 1 "(root)" None] st et (Some (repeat 1%Z n)) None.

(** A binary64 value that is not negative, or is not a number. *)
Definition notNegativeSF (x : spec_float) : Prop :=
  nonnegSF x \/ x = S754_nan.

(** ** Label encoding ([src/labels.ts]) *)

Fixpoint replaceChars (bad : ascii -> bool) (s : string) : string :=
  match s with
  | EmptyString => EmptyString
  | String c s' => String (if bad c then "_"%char else c) (replaceChars bad s')
  end.

(** The class [[{}=,]] of the value pattern. *)
Definition isLabelSyntax (c : ascii) : bool :=
  Ascii.eqb c "{" || Ascii.eqb c "}" || Ascii.eqb c "=" || Ascii.eqb c ",".

(** The class [[{}=,\s]] of the key pattern. *)
Definition isLabelSyntaxOrSpace (c : ascii) : bool :=
  isLabelSyntax c || isWhiteSpace c.

(** Code unit order, which [localeCompare] agrees with on the
    lower-case ASCII keys of the examples. *)
Definition codeUnitCompare (a b : string) : Z :=
  match String.compare a b with
  | Lt => (-1)%Z
  | Eq => 0%Z
  | Gt => 1%Z
  end.

Section Encoding.

(** [String.prototype.localeCompare] belongs to the host: it is a
    parameter of the encoding. *)
Variable localeCompare : string -> string -> Z.

(** [entries.sort(([a], [b]) => a.localeCompare(b))] *)
Definition entryLe (e1 e2 : string * string) : Prop :=
  (localeCompare (fst e1) (fst e2) <= 0)%Z.

#[local] Instance entryLe_dec : RelDecision entryLe.
Proof. intros e1 e2. unfold entryLe. apply _. Defined.

Definition sortEntries (entries : list (string * string)) : list (string * string) :=
  merge_sort entryLe entries.

Definition encodeLabel (e : string * string) : string :=
  let safeK := replaceChars isLabelSyntaxOrSpace (fst e) in
  let safeV := replaceChars isLabelSyntax (snd e) in
  safeK ++ "=" ++ safeV.

(** The function declares two parameters: whatever else a caller
    passes is ignored, and the suffix is the literal [".cpu"]. *)
Definition encodePyroscopeName (appName : string) (labels : JsMap.t string) : string :=
  let entries := JsMap.entries labels in
  if (length entries =? 0)%nat then appName ++ ".cpu"
  else
    let labelStr := join "," (map encodeLabel (sortEntries entries)) in
    appName ++ ".cpu{" ++ labelStr ++ "}".

End Encoding.

(** ** Delivery and the window loop ([src/profiler.ts]) *)

Module Profiler.

Definition SessionId := nat.
Definition TimerId := nat.

(** The inspector methods the profiler posts, with their parameters. *)
Inductive Method :=
| ProfilerEnable
| ProfilerSetSamplingInterval (interval : Z)
| ProfilerStart
| ProfilerStop
| HeapProfilerEnable
| HeapProfilerStartSampling (samplingInterval : Z)
| HeapProfilerStopSampling
| HeapProfilerDisable.

Inductive LogLevel := LDebug | LWarn | LError.

Inductive LogMsg :=
| MsgAlreadyRunning
| MsgHeapInitFailed (err : string)
| MsgProfilerStartFailed (err : string)
| MsgProfilerStopFailed (err : string)
| MsgEmptyProfile (windowStart windowEnd : Z)
| MsgHeapStopFailed (err : string)
| MsgHeapRestartFailed (err : string)
| MsgEmptyHeapProfile (windowStart windowEnd : Z).

Record ResolvedConfig := mkConfig {
  pyroscopeUrl : string;
  appName : string;
  sampleIntervalUs : Z;
  pushIntervalMs : Z;
  labels : JsMap.t string;
  authToken : option string;
  basicAuth : option (string * string);
  maxRetries : Z;
  debug : bool;
  heap_enabled : bool;
  heap_samplingIntervalBytes : Z
}.

(** The ingest URL: the base and the query parameters, before
    [URLSearchParams] serialises them. *)
Record IngestUrl := mkIngestUrl {
  url_base : string;
  url_name : string;
  url_from : Z;
  url_until : Z;
  url_sampleRate : float;
  url_spyName : string;
  url_format : string
}.

(** What [pushWithRetry] fixes before its first [await]. *)
Record PushRequest := mkPushRequest {
  req_type : string;
  req_url : IngestUrl;
  req_auth : option string;
  req_folded : string
}.

Inductive Event :=
| EvConnect (s : SessionId)
| EvDisconnect (s : SessionId)
| EvPost (s : SessionId) (m : Method)
| EvConsole (level : LogLevel) (msg : LogMsg)
| EvSetTimeout (t : TimerId) (ms : Z)
| EvClearTimeout (t : TimerId)
| EvSignalHandlers
(** [pushWithRetry] was called and not awaited. *)
| EvPush (req : PushRequest)
(** [flushHeapWindow] was called and not awaited: it has posted
    [HeapProfiler.stopSampling] as the [k]-th post and continues
    when that settles. *)
| EvHeapFlushPending (windowStart windowEnd : Z) (k : nat).

(** The fields of a [BunPyroscope] instance. *)
Record State := mkState {
  config : ResolvedConfig;
  session : option SessionId;
  pushTimer : option TimerId;
  running : bool;
  windowStart : Z;
  signalHandlersInstalled : bool
}.

(** What the instance has done to the outside, in order, and how
    often it has asked the outside for something. *)
Record World := mkWorld {
  trace : list Event;
  posts : nat;
  clockReads : nat;
  sessionsCreated : nat;
  timersCreated : nat;
  connects : nat;
  disconnects : nat
}.

Record Machine := mkMachine { st : State; world : World }.

(** The answers of the outside: whether the [k]-th post rejects and
    what it returns when it is a stop request, the clock, and
    whether a connect or disconnect throws.  A session answers a
    stop request with a profile of the declared type. *)
Record Env := mkEnv {
  post_error : nat -> option string;
  cpu_result : nat -> CdpProfile;
  heap_result : nat -> SamplingHeapProfile;
  now_ms : nat -> Z;
  connect_error : nat -> option string;
  disconnect_error : nat -> option string
}.

(** The outcome of an awaited function or promise. *)
Inductive Outcome (T : Type) :=
| Returned (v : T)
| Thrown (err : string).
Arguments Returned {T} v.
Arguments Thrown {T} err.

(** *** Field updates *)

Definition withLabels (ls : JsMap.t string) (c : ResolvedConfig) : ResolvedConfig :=
  mkConfig (pyroscopeUrl c) (appName c) (sampleIntervalUs c) (pushIntervalMs c) ls
    (authToken c) (basicAuth c) (maxRetries c) (debug c)
    (heap_enabled c) (heap_samplingIntervalBytes c).

Definition withHeapEnabled (b : bool) (c : ResolvedConfig) : ResolvedConfig :=
  mkConfig (pyroscopeUrl c) (appName c) (sampleIntervalUs c) (pushIntervalMs c) (labels c)
    (authToken c) (basicAuth c) (maxRetries c) (debug c)
    b (heap_samplingIntervalBytes c).

Definition withConfig (c : ResolvedConfig) (s : State) : State :=
  mkState c (session s) (pushTimer s) (running s) (windowStart s)
    (signalHandlersInstalled s).

Definition withSession (x : option SessionId) (s : State) : State :=
  mkState (config s) x (pushTimer s) (running s) (windowStart s)
    (signalHandlersInstalled s).

Definition withPushTimer (x : option TimerId) (s : State) : State :=
  mkState (config s) (session s) x (running s) (windowStart s)
    (signalHandlersInstalled s).

Definition withRunning (b : bool) (s : State) : State :=
  mkState (config s) (session s) (pushTimer s) b (windowStart s)
    (signalHandlersInstalled s).

Definition withWindowStart (z : Z) (s : State) : State :=
  mkState (config s) (session s) (pushTimer s) (running s) z
    (signalHandlersInstalled s).

Definition withSignalHandlers (b : bool) (s : State) : State :=
  mkState (config s) (session s) (pushTimer s) (running s) (windowStart s) b.

(** *** The state monad of the instance methods *)

Definition M (A : Type) := Machine -> A * Machine.

Definition ret {A} (a : A) : M A := fun m => (a, m).

Definition bind {A B} (c : M A) (k : A -> M B) : M B :=
  fun m => let (a, m') := c m in k a m'.

#[export] Instance M_ret : MRet M := @ret.
#[export] Instance M_bind : MBind M := fun A B k c => bind c k.

Definition getState : M State := fun m => (st m, m).

Definition modify (f : State -> State) : M unit :=
  fun m => (tt, mkMachine (f (st m)) (world m)).

Definition changeWorld {A} (f : World -> A * World) : M A :=
  fun m => let (a, w) := f (world m) in (a, mkMachine (st m) w).

Definition emit (e : Event) : M unit :=
  changeWorld (fun w =>
    (tt, mkWorld (trace w ++ [e]) (posts w) (clockReads w) (sessionsCreated w)
           (timersCreated w) (connects w) (disconnects w))).

Definition when_ (b : bool) (c : M unit) : M unit := if b then c else ret tt.

(** *** Delivery: the retry loop of [pushWithRetry] *)

(** What [fetch] settles with: a response, with its status and the
    body if it can be read, or a thrown value, an [Error] with its
    message or some other value with its [String()] rendering. *)
Inductive FetchOutcome :=
| Responded (status : Z) (text : option string)
| Rejected (isError : bool) (message : string).

Inductive PushEvent :=
| PSleep (ms : Z)
| PFetch (attempt : nat)
| PLogRetry (attempt : nat) (delayMs : Z)
| PLogPushed (lines : nat) (status : Z)
| PLogPushFailed (attempt : nat) (message : string)
| PLogPushError (attempt : nat) (message : string).

(** [response.ok] *)
Definition isOk (status : Z) : bool := (200 <=? status)%Z && (status <=? 299)%Z.

Definition backoffMs (attempt : nat) : Z :=
  Z.min (1000 * 2 ^ (Z.of_nat attempt - 1)) 30000.

Definition httpErrorMessage (status : Z) (text : option string) : string :=
  "HTTP " ++ showZ status ++ ": " ++ default "(unreadable)" text.

Section Retry.

Variable debugLog : bool.
Variable folded : string.
Variable fetches : nat -> FetchOutcome.

Definition debugEvent (e : PushEvent) : list PushEvent :=
  if debugLog then [e] else [].

(** The body of the [for] loop from [attempt] on, with [remaining]
    iterations left before [attempt] exceeds [maxRetries]. *)
Fixpoint retryLoop (remaining attempt : nat) (lastError : option string)
    (events : list PushEvent) : Outcome unit * list PushEvent :=
  match remaining with
  | O =>
      (match lastError with
       | Some e => Thrown e
       | None => Returned tt
       end, events)
  | S remaining' =>
      let events1 :=
        if (0 <? attempt)%nat
        then (events ++ debugEvent (PLogRetry attempt (backoffMs attempt))
                     ++ [PSleep (backoffMs attempt)])%list
        else events in
      let events2 := (events1 ++ [PFetch attempt])%list in
      match fetches attempt with
      | Responded status text =>
          if isOk status
          then (Returned tt,
                (events2 ++ debugEvent
                   (PLogPushed (length (split (ascii_of_nat 10) folded)) status))%list)
          else
            let message := httpErrorMessage status text in
            if (400 <=? status)%Z && (status <? 500)%Z
            then
              (* thrown inside the [try]: the [catch] sees it *)
              if startsWith message "HTTP 4" then (Thrown message, events2)
              else retryLoop remaining' (S attempt) (Some message)
                     (events2 ++ [PLogPushError attempt message])%list
            else retryLoop remaining' (S attempt) (Some message)
                   (events2 ++ [PLogPushFailed attempt message])%list
      | Rejected isError message =>
          if isError && startsWith message "HTTP 4" then (Thrown message, events2)
          else retryLoop remaining' (S attempt) (Some message)
                 (events2 ++ [PLogPushError attempt message])%list
      end
  end.

Definition pushWithRetry (maxRetries : Z) : Outcome unit * list PushEvent :=
  retryLoop (Z.to_nat (maxRetries + 1)) 0 None [].

End Retry.

(** The message [lastError] is set to when an attempt fails in a way
    that lets the loop go on; [None] when the attempt ends the loop,
    by success or by a rethrown error. *)
Definition retryMessage (o : FetchOutcome) : option string :=
  match o with
  | Responded status text =>
      if isOk status then None
      else if (400 <=? status)%Z && (status <? 500)%Z
           then if startsWith (httpErrorMessage status text) "HTTP 4" then None
                else Some (httpErrorMessage status text)
           else Some (httpErrorMessage status text)
  | Rejected isError message =>
      if isError && startsWith message "HTTP 4" then None else Some message
  end.

(** The sleeps and fetches among the events of a push, in order. *)
Definition scheduleOf (events : list PushEvent) : list PushEvent :=
  List.filter (fun e => match e with PSleep _ | PFetch _ => true | _ => false end) events.

(** Attempt 0 is made at once, attempt [j > 0] after the back-off. *)
Definition attemptSchedule (j : nat) : list PushEvent :=
  match j with
  | O => [PFetch 0]
  | S _ => [PSleep (backoffMs j); PFetch j]
  end.

(** Attempts [0 .. k - 1], each after its back-off. *)
Definition scheduleUpTo (k : nat) : list PushEvent :=
  flat_map attemptSchedule (seq 0 k).

(** Two 503 responses, then a 200. *)
Definition twoFailuresThenOk (attempt : nat) : FetchOutcome :=
  if (attempt <? 2)%nat then Responded 503 (Some "unavailable") else Responded 200 (Some "ok").

(** A server that always answers 503. *)
Definition alwaysUnavailable (attempt : nat) : FetchOutcome :=
  Responded 503 (Some "unavailable").

(** A proxy that refuses the tunnel: [fetch] throws, on every attempt. *)
Definition proxyRefuses (attempt : nat) : FetchOutcome :=
  Rejected true "HTTP 407 from proxy after CONNECT".

(** *** The window state machine *)

Section Methods.

Variable localeCompare : string -> string -> Z.
(** [Buffer.from(s).toString("base64")] *)
Variable base64 : string -> string.
Variable env : Env.

Definition post (s : SessionId) (m : Method) : M (nat * option string) :=
  changeWorld (fun w =>
    ((posts w, post_error env (posts w)),
     mkWorld (trace w ++ [EvPost s m]) (S (posts w)) (clockReads w)
       (sessionsCreated w) (timersCreated w) (connects w) (disconnects w))).

(** [Math.floor(Date.now() / 1000)] *)
Definition dateNowSeconds : M Z :=
  changeWorld (fun w =>
    ((now_ms env (clockReads w) / 1000)%Z,
     mkWorld (trace w) (posts w) (S (clockReads w))
       (sessionsCreated w) (timersCreated w) (connects w) (disconnects w))).

Definition newSession : M SessionId :=
  changeWorld (fun w =>
    (sessionsCreated w,
     mkWorld (trace w) (posts w) (clockReads w)
       (S (sessionsCreated w)) (timersCreated w) (connects w) (disconnects w))).

Definition connect (s : SessionId) : M (option string) :=
  changeWorld (fun w =>
    (connect_error env (connects w),
     mkWorld (trace w ++ [EvConnect s]) (posts w) (clockReads w)
       (sessionsCreated w) (timersCreated w) (S (connects w)) (disconnects w))).

Definition disconnect (s : SessionId) : M (option string) :=
  changeWorld (fun w =>
    (disconnect_error env (disconnects w),
     mkWorld (trace w ++ [EvDisconnect s]) (posts w) (clockReads w)
       (sessionsCreated w) (timersCreated w) (connects w) (S (disconnects w)))).

Definition setTimeout (ms : Z) : M TimerId :=
  changeWorld (fun w =>
    (timersCreated w,
     mkWorld (trace w ++ [EvSetTimeout (timersCreated w) ms]) (posts w) (clockReads w)
       (sessionsCreated w) (S (timersCreated w)) (connects w) (disconnects w))).

Definition clearTimeout (t : TimerId) : M unit := emit (EvClearTimeout t).

Definition log (level : LogLevel) (msg : LogMsg) : M unit :=
  s ← getState;
  match level with
  | LDebug => if debug (config s) then emit (EvConsole level msg) else mret tt
  | _ => emit (EvConsole level msg)
  end.

Definition buildIngestUrl (from until : Z) (sampleRate : float) (type : string)
    : M IngestUrl :=
  s ← getState;
  (* [encodePyroscopeName(appName, labels, type)]: the callee takes
     the first two arguments *)
  let name := encodePyroscopeName localeCompare (appName (config s)) (labels (config s)) in
  mret (mkIngestUrl (pyroscopeUrl (config s)) name from until sampleRate
          "nodespy" "folded").

Definition buildAuthHeader : M (option string) :=
  s ← getState;
  let bearer :=
    match authToken (config s) with
    | Some token => if String.eqb token "" then None else Some ("Bearer " ++ token)
    | None => None
    end in
  mret (match bearer, basicAuth (config s) with
        | Some h, _ => Some h
        | None, Some (username, password) =>
            Some ("Basic " ++ base64 (username ++ ":" ++ password))
        | None, None => None
        end).

(** [pushWithRetry(...)] called and not awaited: the url and the
    headers are fixed at the call, the attempts run detached. *)
Definition pushDetached (folded : string) (from until : Z) (sampleRate : float)
    (type : string) : M unit :=
  u ← buildIngestUrl from until sampleRate type;
  auth ← buildAuthHeader;
  emit (EvPush (mkPushRequest type u auth folded)).

Definition cancelTimer : M unit :=
  s ← getState;
  match pushTimer s with
  | Some t => clearTimeout t;; modify (withPushTimer None)
  | None => mret tt
  end.

Definition scheduleNextWindow : M unit :=
  s ← getState;
  if negb (running s) then mret tt
  else
    t ← setTimeout (pushIntervalMs (config s));
    modify (withPushTimer (Some t)).

Definition beginWindow (schedule : bool) : M unit :=
  s ← getState;
  match session s with
  | None => mret tt
  | Some sid =>
      if negb (running s) then mret tt
      else
        now ← dateNowSeconds;
        modify (withWindowStart now);;
        r ← post sid ProfilerStart;
        match snd r with
        | Some e =>
            log LError (MsgProfilerStartFailed e);;
            when_ schedule scheduleNextWindow
        | None => when_ schedule scheduleNextWindow
        end
  end.

(** [flushHeapWindow] up to its first [await]. *)
Definition flushHeapWindow (from until : Z) : M unit :=
  s ← getState;
  match session s with
  | None => mret tt
  | Some sid =>
      r ← post sid HeapProfilerStopSampling;
      emit (EvHeapFlushPending from until (fst r))
  end.

(** [flushHeapWindow] from the point where its [k]-th post has
    settled.  It reads the session and the labels as they are
    then. *)
Definition flushHeapWindow_resume (from until : Z) (k : nat) : M unit :=
  match post_error env k with
  | Some e => log LWarn (MsgHeapStopFailed e)
  | None =>
      let heapProfile := heap_result env k in
      s ← getState;
      match session s with
      | None => log LWarn (MsgHeapRestartFailed "TypeError")
      | Some sid =>
          r ← post sid (HeapProfilerStartSampling (heap_samplingIntervalBytes (config s)));
          match snd r with
          | Some e => log LWarn (MsgHeapRestartFailed e)
          | None => mret tt
          end
      end;;
      let folded := convertHeapToFolded heapProfile in
      if String.eqb folded "" then log LDebug (MsgEmptyHeapProfile from until)
      else pushDetached folded from until 1%float "alloc_space"
  end.

Definition endWindowAndPush : M unit :=
  s ← getState;
  match session s with
  | None => mret tt
  | Some sid =>
      windowEnd ← dateNowSeconds;
      r ← post sid ProfilerStop;
      match snd r with
      | Some e => log LError (MsgProfilerStopFailed e)
      | None =>
          let profile := cpu_result env (fst r) in
          let folded := convertToFolded profile in
          s1 ← getState;
          (if String.eqb folded ""
           then log LDebug (MsgEmptyProfile (windowStart s1) windowEnd)
           else pushDetached folded (windowStart s1) windowEnd
                  (calculateSampleRate profile) "cpu");;
          s2 ← getState;
          when_ (heap_enabled (config s2)) (flushHeapWindow (windowStart s2) windowEnd)
      end
  end.

Definition installSignalHandlers : M unit :=
  s ← getState;
  if signalHandlersInstalled s then mret tt
  else modify (withSignalHandlers true);; emit EvSignalHandlers.

(** The body of a [try] with two posts in a row. *)
Definition postBoth (sid : SessionId) (m1 m2 : Method) : M (option string) :=
  r1 ← post sid m1;
  match snd r1 with
  | Some e => mret (Some e)
  | None => r2 ← post sid m2; mret (snd r2)
  end.

Definition start : M (Outcome unit) :=
  s ← getState;
  if running s then
    log LWarn MsgAlreadyRunning;; mret (Returned tt)
  else
    sid ← newSession;
    modify (withSession (Some sid));;
    connected ← connect sid;
    match connected with
    | Some e => mret (Thrown e)
    | None =>
        init ← postBoth sid ProfilerEnable
                 (ProfilerSetSamplingInterval (sampleIntervalUs (config s)));
        match init with
        | Some e =>
            released ← disconnect sid;
            match released with
            | Some e' => mret (Thrown e')
            | None =>
                modify (withSession None);;
                mret (Thrown ("[bun-pyroscope] Failed to initialize profiler session: " ++ e))
            end
        | None =>
            (if heap_enabled (config s) then
               hinit ← postBoth sid HeapProfilerEnable
                         (HeapProfilerStartSampling (heap_samplingIntervalBytes (config s)));
               match hinit with
               | Some e =>
                   log LWarn (MsgHeapInitFailed e);;
                   modify (fun s' => withConfig (withHeapEnabled false (config s')) s')
               | None => mret tt
               end
             else mret tt);;
            modify (withRunning true);;
            installSignalHandlers;;
            beginWindow true;;
            mret (Returned tt)
        end
    end.

Definition stop : M unit :=
  s ← getState;
  if negb (running s) then mret tt
  else
    modify (withRunning false);;
    cancelTimer;;
    endWindowAndPush;;
    s1 ← getState;
    match session s1 with
    | None => mret tt
    | Some sid =>
        (if heap_enabled (config s1)
         then _ ← post sid HeapProfilerDisable; mret tt
         else mret tt);;
        _ ← disconnect sid;
        modify (withSession None)
    end.

(** The callback [scheduleNextWindow] hands to [setTimeout]. *)
Definition timerCallback : M unit :=
  endWindowAndPush;;
  s ← getState;
  when_ (running s) (beginWindow true).

(** [fn] is any computation on the instance and its surroundings:
    it may call the instance, and timers may fire while it runs. *)
Definition tag {T} (extraLabels : JsMap.t string) (fn : M (Outcome T))
    : M (Outcome T) :=
  s ← getState;
  if negb (running s) || negb (bool_decide (is_Some (session s))) then fn
  else
    (* 1. cancel scheduled push *)
    cancelTimer;;
    (* 2. flush current window with existing labels *)
    endWindowAndPush;;
    (* 3. override labels *)
    s1 ← getState;
    let savedLabels := labels (config s1) in
    modify (fun s' =>
      withConfig (withLabels (JsMap.spread savedLabels extraLabels) (config s')) s');;
    (* 4. start tagged window without auto-scheduling *)
    beginWindow false;;
    r ← fn;
    (* finally: 5. cancel any timer that fired during fn() *)
    cancelTimer;;
    (* 6. flush tagged window *)
    endWindowAndPush;;
    (* 7. restore labels + resume normal profiling *)
    modify (fun s' => withConfig (withLabels savedLabels (config s')) s');;
    s2 ← getState;
    when_ (running s2) (beginWindow true);;
    mret r.

End Methods.

(** *** What one call does, written out *)

Section Summary.

Variable localeCompare : string -> string -> Z.
Variable base64 : string -> string.
Variable env : Env.

Definition authHeaderOf (c : ResolvedConfig) : option string :=
  match match authToken c with
        | Some token => if String.eqb token "" then None else Some ("Bearer " ++ token)
        | None => None
        end, basicAuth c with
  | Some h, _ => Some h
  | None, Some (username, password) =>
      Some ("Basic " ++ base64 (username ++ ":" ++ password))
  | None, None => None
  end.

(** The request of a push issued under the configuration [c]. *)
Definition requestOf (c : ResolvedConfig) (type folded : string)
    (from until : Z) (rate : float) : PushRequest :=
  mkPushRequest type
    (mkIngestUrl (pyroscopeUrl c)
       (encodePyroscopeName localeCompare (appName c) (labels c))
       from until rate "nodespy" "folded")
    (authHeaderOf c) folded.

(** The events of closing the current window. *)
Definition endWindowEvents (m : Machine) : list Event :=
  match session (st m) with
  | None => []
  | Some sid =>
      let k := posts (world m) in
      let windowEnd := (now_ms env (clockReads (world m)) / 1000)%Z in
      EvPost sid ProfilerStop ::
      match post_error env k with
      | Some e => [EvConsole LError (MsgProfilerStopFailed e)]
      | None =>
          let profile := cpu_result env k in
          let folded := convertToFolded profile in
          ((if String.eqb folded ""
            then if debug (config (st m))
                 then [EvConsole LDebug (MsgEmptyProfile (windowStart (st m)) windowEnd)]
                 else []
            else [EvPush (requestOf (config (st m)) "cpu" folded (windowStart (st m))
                            windowEnd (calculateSampleRate profile))])
           ++ (if heap_enabled (config (st m))
               then [EvPost sid HeapProfilerStopSampling;
                     EvHeapFlushPending (windowStart (st m)) windowEnd (S k)]
               else []))%list
      end
  end.

Definition endWindowWorld (m : Machine) : World :=
  let w := world m in
  match session (st m) with
  | None => w
  | Some _ =>
      mkWorld (trace w ++ endWindowEvents m)
        (match post_error env (posts w) with
         | Some _ => S (posts w)
         | None => if heap_enabled (config (st m)) then S (S (posts w)) else S (posts w)
         end)
        (S (clockReads w)) (sessionsCreated w) (timersCreated w)
        (connects w) (disconnects w)
  end.

(** The events of the continuation of a heap flush. *)
Definition heapResumeEvents (from until : Z) (k : nat) (m : Machine) : list Event :=
  match post_error env k with
  | Some e => [EvConsole LWarn (MsgHeapStopFailed e)]
  | None =>
      (match session (st m) with
       | None => [EvConsole LWarn (MsgHeapRestartFailed "TypeError")]
       | Some sid =>
           EvPost sid (HeapProfilerStartSampling
                         (heap_samplingIntervalBytes (config (st m))))
           :: match post_error env (posts (world m)) with
              | Some e => [EvConsole LWarn (MsgHeapRestartFailed e)]
              | None => []
              end
       end
       ++ let folded := convertHeapToFolded (heap_result env k) in
          if String.eqb folded ""
          then if debug (config (st m))
               then [EvConsole LDebug (MsgEmptyHeapProfile from until)]
               else []
          else [EvPush (requestOf (config (st m)) "alloc_space" folded from until
                          1%float)])%list
  end.

(** The machine after [cancelTimer]. *)
Definition timerCancelled (m : Machine) : Machine :=
  match pushTimer (st m) with
  | Some t =>
      mkMachine (withPushTimer None (st m))
        (mkWorld (trace (world m) ++ [EvClearTimeout t]) (posts (world m))
           (clockReads (world m)) (sessionsCreated (world m))
           (timersCreated (world m)) (connects (world m)) (disconnects (world m)))
  | None => m
  end.

(** The machine after [beginWindow(schedule)]. *)
Definition windowBegun (schedule : bool) (m : Machine) : Machine :=
  let w := world m in
  match session (st m) with
  | None => m
  | Some sid =>
      if negb (running (st m)) then m
      else
        let now := (now_ms env (clockReads w) / 1000)%Z in
        let failure :=
          match post_error env (posts w) with
          | Some e => [EvConsole LError (MsgProfilerStartFailed e)]
          | None => []
          end in
        if schedule then
          mkMachine
            (withPushTimer (Some (timersCreated w)) (withWindowStart now (st m)))
            (mkWorld
               (trace w ++ EvPost sid ProfilerStart :: failure
                  ++ [EvSetTimeout (timersCreated w) (pushIntervalMs (config (st m)))])
               (S (posts w)) (S (clockReads w)) (sessionsCreated w)
               (S (timersCreated w)) (connects w) (disconnects w))
        else
          mkMachine (withWindowStart now (st m))
            (mkWorld (trace w ++ EvPost sid ProfilerStart :: failure)
               (S (posts w)) (S (clockReads w)) (sessionsCreated w)
               (timersCreated w) (connects w) (disconnects w))
  end.

Definition setLabels (ls : JsMap.t string) (m : Machine) : Machine :=
  mkMachine (withConfig (withLabels ls (config (st m))) (st m)) (world m).

(** [tag] up to the call of [fn], and from its return on. *)
Definition tagEntered (extraLabels : JsMap.t string) (m : Machine) : Machine :=
  let flushed := mkMachine (st (timerCancelled m)) (endWindowWorld (timerCancelled m)) in
  windowBegun false
    (setLabels (JsMap.spread (labels (config (st m))) extraLabels) flushed).

Definition tagLeft (savedLabels : JsMap.t string) (m : Machine) : Machine :=
  let flushed := mkMachine (st (timerCancelled m)) (endWindowWorld (timerCancelled m)) in
  windowBegun true (setLabels savedLabels flushed).

(** The requests of the pushes among some events. *)
Definition pushesOf (evs : list Event) : list PushRequest :=
  flat_map (fun e => match e with EvPush req => [req] | _ => [] end) evs.

End Summary.

End Profiler.

(** *** The profiler of the test suite *)

Module ProfilerExamples.
Import Profiler.

(** [BASE] of the tests, with the two default labels. *)
Definition baseConfig : ResolvedConfig :=
  mkConfig "http://localhost:4040" "test-app" 10000 60000
    [("hostname", "web-1"); ("service_name", "test-app")]
    None None 0 false false 32768.

Definition heapConfig : ResolvedConfig := withHeapEnabled true baseConfig.

(** [cpuProfile()] of the tests: two samples in [main]. *)
Definition cpuProfile : CdpProfile :=
  mkProfile
    [mkNode 1 (plainFrame "(root)") None (Some [2]);
     mkNode 2 (mkCallFrame "main" "1" "app.ts" 1 0) None None]
    0%float 1000000%float (Some [2; 2]) (Some [500000; 500000]).

(** The heap profile of the test "pushes heap data to alloc_space stream". *)
Definition allocHeapProfile : SamplingHeapProfile :=
  mkHeapProfile
    (mkHeapNode (plainFrame "(root)") 0 1
       [mkHeapNode (mkCallFrame "allocHeavy" "1" "alloc.ts" 5 0) 1024 2 []]).

(** A session that answers every post, and a clock that advances by
    one second per reading. *)
Definition testEnv : Env :=
  mkEnv (fun _ => None) (fun _ => cpuProfile) (fun _ => allocHeapProfile)
    (fun k => 1700000000000 + 1000 * Z.of_nat k)%Z (fun _ => None) (fun _ => None).

Definition noBase64 (s : string) : string := s.

Definition idleMachine (c : ResolvedConfig) : Machine :=
  mkMachine (mkState c None None false 0 false) (mkWorld [] 0 0 0 0 0 0).

Definition startedMachine (c : ResolvedConfig) : Machine :=
  snd (start testEnv (idleMachine c)).

(** A tagged function that throws. *)
Definition throwing : M (Outcome Z) := fun m => (Thrown "boom", m).

Definition routeLabel : JsMap.t string := [("route", "api")].

End ProfilerExamples.

(** ** Induction and case analysis used in the proofs *)

(** Induction on a heap tree, with the hypothesis for every child. *)
Section HeapInduction.
Variable P : HeapProfileNode -> Prop.
Hypothesis step : forall cf sz i cs, Forall P cs -> P (mkHeapNode cf sz i cs).

Fixpoint HeapProfileNode_nested_ind (node : HeapProfileNode) : P node :=
  match node with
  | mkHeapNode cf sz i cs =>
      step cf sz i cs
        ((fix all (l : list HeapProfileNode) : Forall P l :=
            match l with
            | [] => @List.Forall_nil _ P
            | c :: l' => @List.Forall_cons _ P c l' (HeapProfileNode_nested_ind c) (all l')
            end) cs)
  end.
End HeapInduction.

Module ProfilerTactics.
Import Profiler.

(** Unfolds the methods down to the state transformer they denote. *)
Ltac unfold_m :=
  unfold start, stop, tag, timerCallback, endWindowAndPush, beginWindow, flushHeapWindow,
    flushHeapWindow_resume,
    pushDetached, buildIngestUrl, buildAuthHeader, scheduleNextWindow, cancelTimer,
    installSignalHandlers, postBoth, log, post, dateNowSeconds, newSession, connect,
    disconnect, setTimeout, clearTimeout, emit, when_, changeWorld, modify, getState,
    mbind, mret, M_bind, M_ret, bind, ret.

(** Splits on every [match] whose scrutinee is free of other matches. *)
Ltac split_cases :=
  repeat match goal with
         | |- context [match ?x with _ => _ end] =>
             lazymatch x with
             | context [match _ with _ => _ end] => fail
             | _ => destruct x eqn:?; cbn
             end
         end.

End ProfilerTactics.

(** ** Further vocabulary of the codec *)

(** The distinct elements of a list, each at the place of its first
    occurrence. *)
Fixpoint firstOccurrences (l : list string) : list string :=
  match l with
  | [] => []
  | x :: l' => x :: List.filter (fun y => negb (String.eqb y x)) (firstOccurrences l')
  end.

(** The count a stack has in the counter, 0 when it has no entry. *)
Definition weightOf (stack : string) (stackCounts : JsMap.t nat) : nat :=
  default 0%nat (JsMap.get stack stackCounts).

(** The sum of the counts of all entries. *)
Definition totalWeight (stackCounts : JsMap.t nat) : nat :=
  list_sum (map snd stackCounts).

(** The visible nodes among those an upward walk passes. *)
Definition visibleVisited (ns : list CdpNode) (leaf : Z) : list CdpNode :=
  List.filter (fun node => visibleFrame (callFrame node))
    (visited (buildNodeMap ns) (buildParentMap ns) MAX_DEPTH (Some leaf)).

(** Every node of a heap tree with the chain of nodes that leads to
    it from the head, the node itself last; parents before children,
    children left to right. *)
Fixpoint heapChains (node : HeapProfileNode) (above : list HeapProfileNode)
    {struct node} : list (HeapProfileNode * list HeapProfileNode) :=
  (node, (above ++ [node])%list)
    :: flat_map (fun child => heapChains child (above ++ [node])%list) (heap_children node).

(** The labels of the visible frames of a chain, head first. *)
Definition chainPath (chain : list HeapProfileNode) : list string :=
  map (fun n => frameLabel (heap_callFrame n))
    (List.filter (fun n => visibleFrame (heap_callFrame n)) chain).

(** ** Default labels ([src/labels.ts]) and configuration (the constructor) *)

Module Labels.

(** [process.env]: a variable is set to a string, or is absent. *)
Definition ProcessEnv := string -> option string.

(** [a ?? b] *)
Definition orElse {A} (a b : option A) : option A :=
  match a with
  | Some _ => a
  | None => b
  end.

Definition resolveAppName (penv : ProcessEnv) (appName : option string) : string :=
  default "bun-app"
    (orElse (orElse appName (penv "SERVICE_NAME")) (penv "npm_package_name")).

(** [if (v) labels[key] = v]: a string passes the test when it is
    not empty. *)
Definition setIfTruthy (key : string) (v : option string) (labels : JsMap.t string)
    : JsMap.t string :=
  match v with
  | Some s => if String.eqb s "" then labels else JsMap.set key s labels
  | None => labels
  end.

Definition detectPlatformLabels (penv : ProcessEnv) : JsMap.t string :=
  let labels := JsMap.empty in
  let labels := setIfTruthy "fly_region" (penv "FLY_REGION") labels in
  let labels := setIfTruthy "fly_app_name" (penv "FLY_APP_NAME") labels in
  let awsRegion := orElse (penv "AWS_REGION") (penv "AWS_DEFAULT_REGION") in
  let labels := setIfTruthy "aws_region" awsRegion labels in
  let labels := setIfTruthy "railway_region" (penv "RAILWAY_REGION") labels in
  let labels := setIfTruthy "railway_service" (penv "RAILWAY_SERVICE_NAME") labels in
  let labels := setIfTruthy "pod_name" (penv "POD_NAME") labels in
  let labels := setIfTruthy "k8s_namespace" (penv "K8S_NAMESPACE") labels in
  labels.

(** [hostname] is the result of [os.hostname()].  [Object.assign]
    copies the entries of its source in order. *)
Definition buildDefaultLabels (penv : ProcessEnv) (hostname appName : string)
    : JsMap.t string :=
  let labels := [("hostname", hostname); ("service_name", appName)] in
  let env := orElse (penv "NODE_ENV") (penv "BUN_ENV") in
  let labels := setIfTruthy "environment" env labels in
  let version := orElse (penv "SERVICE_VERSION") (penv "npm_package_version") in
  let labels := setIfTruthy "service_version" version labels in
  JsMap.spread labels (detectPlatformLabels penv).

(** The sources of the optional labels, in the order they are tried. *)
Definition optionalLabelSources (penv : ProcessEnv) : list (string * option string) :=
  [("environment", orElse (penv "NODE_ENV") (penv "BUN_ENV"));
   ("service_version", orElse (penv "SERVICE_VERSION") (penv "npm_package_version"));
   ("fly_region", penv "FLY_REGION");
   ("fly_app_name", penv "FLY_APP_NAME");
   ("aws_region", orElse (penv "AWS_REGION") (penv "AWS_DEFAULT_REGION"));
   ("railway_region", penv "RAILWAY_REGION");
   ("railway_service", penv "RAILWAY_SERVICE_NAME");
   ("pod_name", penv "POD_NAME");
   ("k8s_namespace", penv "K8S_NAMESPACE")].

(** The sources that are set to a non-empty string, as labels. *)
Definition presentLabels (sources : list (string * option string)) : JsMap.t string :=
  flat_map (fun kv =>
              match snd kv with
              | Some s => if String.eqb s "" then [] else [(fst kv, s)]
              | None => []
              end) sources.

(** The options of the constructor; [heap] carries [enabled] and the
    optional [samplingIntervalBytes]. *)
Record BunPyroscopeOptions := mkOptions {
  opt_pyroscopeUrl : string;
  opt_appName : option string;
  opt_sampleIntervalUs : option Z;
  opt_pushIntervalMs : option Z;
  opt_labels : option (JsMap.t string);
  opt_authToken : option string;
  opt_basicAuth : option (string * string);
  opt_maxRetries : option Z;
  opt_debug : option bool;
  opt_heap : option (bool * option Z)
}.

(** [url.replace(/\/$/, "")] *)
Fixpoint stripTrailingSlash (s : string) : string :=
  match s with
  | EmptyString => EmptyString
  | String c EmptyString => if Ascii.eqb c "/" then EmptyString else s
  | String c s' => String c (stripTrailingSlash s')
  end.

(** The configuration the constructor resolves. *)
Definition resolveConfig (penv : ProcessEnv) (hostname : string)
    (options : BunPyroscopeOptions) : Profiler.ResolvedConfig :=
  let appName := resolveAppName penv (opt_appName options) in
  let defaultLabels := buildDefaultLabels penv hostname appName in
  Profiler.mkConfig
    (stripTrailingSlash (opt_pyroscopeUrl options))
    appName
    (default 10000 (opt_sampleIntervalUs options))
    (default 15000 (opt_pushIntervalMs options))
    (JsMap.spread defaultLabels (default JsMap.empty (opt_labels options)))
    (opt_authToken options)
    (opt_basicAuth options)
    (default 2 (opt_maxRetries options))
    (default false (opt_debug options))
    (match opt_heap options with
     | Some (enabled, _) => enabled
     | None => false
     end)
    (match opt_heap options with
     | Some (_, Some bytes) => bytes
     | _ => 32768
     end).

(** [s.endsWith(c)] for one character. *)
Fixpoint endsWithChar (c : ascii) (s : string) : bool :=
  match s with
  | EmptyString => false
  | String d EmptyString => Ascii.eqb d c
  | String _ s' => endsWithChar c s'
  end.

(** An environment with nothing set, and the one of a Fly.io machine
    whose [NODE_ENV] is set to the empty string. *)
Definition emptyEnv : ProcessEnv := fun _ => None.

Definition flyEnv : ProcessEnv :=
  fun name =>
    if String.eqb name "FLY_REGION" then Some "iad"
    else if String.eqb name "NODE_ENV" then Some ""
    else if String.eqb name "BUN_ENV" then Some "production"
    else None.

End Labels.

(** ** Further vocabulary of the window state machine *)

Module ProfilerExtra.
Import Profiler.

(** A tagged function that reads one label of the instance. *)
Definition readLabel (k : string) : M (Outcome (option string)) :=
  fun m => (Returned (JsMap.get k (labels (config (st m)))), m).

(** The time a push spends sleeping, in milliseconds. *)
Definition totalSleepMs (events : list PushEvent) : Z :=
  fold_right (fun e acc => match e with PSleep ms => ms + acc | _ => acc end)%Z 0%Z events.

Definition fetchesOf (events : list PushEvent) : list nat :=
  flat_map (fun e => match e with PFetch attempt => [attempt] | _ => [] end) events.

(** The events that [log("debug", ...)] prints. *)
Definition isDebugEvent (e : PushEvent) : bool :=
  match e with
  | PLogRetry _ _ | PLogPushed _ _ => true
  | _ => false
  end.

(** The error an attempt ends with, if it does not succeed. *)
Definition attemptError (o : FetchOutcome) : option string :=
  match o with
  | Responded status text =>
      if isOk status then None else Some (httpErrorMessage status text)
  | Rejected _ message => Some message
  end.

(** The instance has a session whenever it is running. *)
Definition sessionWhileRunning (m : Machine) : Prop :=
  running (st m) = true -> is_Some (session (st m)).

Definition isSignalInstall (e : Event) : bool :=
  match e with
  | EvSignalHandlers => true
  | _ => false
  end.

(** The signal handlers were installed as often as the flag says:
    once when it is set, never when it is not. *)
Definition handlersInstalledOnce (m : Machine) : Prop :=
  length (List.filter isSignalInstall (trace (world m))) =
  if signalHandlersInstalled (st m) then 1%nat else 0%nat.

(** A step that neither installs the handlers nor touches the flag. *)
Definition quietStep (m m' : Machine) : Prop :=
  signalHandlersInstalled (st m') = signalHandlersInstalled (st m) /\
  exists evs,
    trace (world m') = (trace (world m) ++ evs)%list /\
    Forall (fun e => isSignalInstall e = false) evs.

(** A post of a [HeapProfiler] method, or a heap flush left pending. *)
Definition isHeapEvent (e : Event) : bool :=
  match e with
  | EvPost _ HeapProfilerEnable | EvPost _ (HeapProfilerStartSampling _)
  | EvPost _ HeapProfilerStopSampling | EvPost _ HeapProfilerDisable => true
  | EvHeapFlushPending _ _ _ => true
  | _ => false
  end.

(** A session whose [k]-th post rejects, everything else as in
    [testEnv]. *)
Definition failingPostEnv (k : nat) (err : string) : Env :=
  mkEnv (fun i => if (i =? k)%nat then Some err else None)
    (cpu_result ProfilerExamples.testEnv) (heap_result ProfilerExamples.testEnv)
    (now_ms ProfilerExamples.testEnv) (fun _ => None) (fun _ => None).

End ProfilerExtra.


(** * Properties *)

(** ** String primitives *)

Lemma trimStart_empty s : trimStart s = "" <-> allWhiteSpace s = true.
Proof.
  induction s as [|c s IH]; simpl; [easy|].
  destruct (isWhiteSpace c); simpl; [exact IH|easy].
Qed.

Lemma trimEnd_empty s : trimEnd s = "" <-> allWhiteSpace s = true.
Proof.
  induction s as [|c s IH]; simpl; [easy|].
  destruct (trimEnd s) eqn:E.
  - destruct (isWhiteSpace c); simpl; [tauto|easy].
  - split; [easy|]. intros H. apply andb_true_iff in H as [_ H].
    apply IH in H. discriminate.
Qed.

Lemma allWhiteSpace_trimStart s :
  allWhiteSpace (trimStart s) = allWhiteSpace s.
Proof.
  induction s as [|c s IH]; simpl; [easy|].
  destruct (isWhiteSpace c) eqn:E; simpl; [exact IH|now rewrite E].
Qed.

Lemma trim_empty s : trim s = "" <-> allWhiteSpace s = true.
Proof.
  unfold trim. rewrite trimEnd_empty, allWhiteSpace_trimStart. reflexivity.
Qed.

Lemma split_nosep sep p : hasChar sep p = false -> split sep p = [p].
Proof.
  induction p as [|c p IH]; simpl; [easy|].
  intros H. apply orb_false_iff in H as [Hc Hp].
  rewrite Hc, (IH Hp). reflexivity.
Qed.

Lemma split_app_sep sep p s :
  hasChar sep p = false ->
  split sep (p ++ String sep s) = p :: split sep s.
Proof.
  induction p as [|c p IH]; simpl.
  - intros _. now rewrite Ascii.eqb_refl.
  - intros H. apply orb_false_iff in H as [Hc Hp].
    rewrite Hc, (IH Hp). reflexivity.
Qed.

Lemma split_join sep segs :
  segs <> [] -> Forall (fun p => hasChar sep p = false) segs ->
  split sep (join (String sep "") segs) = segs.
Proof.
  induction segs as [|p ps IH]; [easy|].
  intros _ HF. inversion HF as [|? ? Hp Hps]; subst.
  destruct ps as [|q qs].
  - simpl. now apply split_nosep.
  - change (join (String sep "") (p :: q :: qs))
      with (p ++ String sep (join (String sep "") (q :: qs))).
    rewrite split_app_sep by assumption.
    f_equal. apply IH; [easy|assumption].
Qed.

Lemma lastTwo_app {A} (pre : list A) a b : lastTwo (pre ++ [a; b]) = [a; b].
Proof.
  unfold lastTwo. rewrite length_app. simpl.
  replace (length pre + 2 - 2)%nat with (length pre) by lia.
  now rewrite drop_app_length.
Qed.

(** ** Heap conversion *)


Lemma heapPath_walk frames node :
  heapPath frames node =
  if isRoot (functionName (heap_callFrame node))
     || shouldSkipFrame (functionName (heap_callFrame node)) (url (heap_callFrame node))
  then frames
  else (frames ++ [frameLabel (heap_callFrame node)])%list.
Proof.
  unfold heapPath, visibleFrame.
  destruct (isRoot _), (shouldSkipFrame _ _); reflexivity.
Qed.

Lemma walkHeap_unfold node frames lines :
  walkHeap node frames lines =
  fold_left (fun acc child => walkHeap child (heapPath frames node) acc)
    (heap_children node)
    (if heapEmits (node, heapPath frames node)
     then (lines ++ [heapLine (node, heapPath frames node)])%list else lines).
Proof.
  destruct node as [cf sz i cs].
  cbn [walkHeap]. rewrite <- heapPath_walk.
  unfold heapEmits, heapLine. cbn [fst snd].
  replace (0 <? length (heapPath frames (mkHeapNode cf sz i cs)))%nat
    with (negb (length (heapPath frames (mkHeapNode cf sz i cs)) =? 0)%nat)
    by (destruct (length _); reflexivity).
  reflexivity.
Qed.

Lemma heapVisits_unfold node frames :
  heapVisits node frames =
  (node, heapPath frames node)
    :: flat_map (fun child => heapVisits child (heapPath frames node)) (heap_children node).
Proof. destruct node; reflexivity. Qed.

Lemma walkHeap_visits node : forall frames lines,
  walkHeap node frames lines =
  (lines ++ map heapLine (List.filter heapEmits (heapVisits node frames)))%list.
Proof.
  induction node as [cf sz i cs IH] using HeapProfileNode_nested_ind.
  intros frames lines.
  rewrite walkHeap_unfold, heapVisits_unfold.
  set (node := mkHeapNode cf sz i cs).
  set (next := heapPath frames node).
  cbn [List.filter heap_children node].
  assert (Hkids : forall acc,
    fold_left (fun acc child => walkHeap child next acc) cs acc =
    (acc ++ map heapLine (List.filter heapEmits
       (flat_map (fun child => heapVisits child next) cs)))%list).
  { clear -IH. induction IH as [|c cs' Hc _ IHcs]; intros acc; cbn [fold_left flat_map].
    - now rewrite app_nil_r.
    - rewrite IHcs, Hc, List.filter_app, map_app, app_assoc. reflexivity. }
  rewrite Hkids.
  destruct (heapEmits (node, next)); cbn [map].
  - rewrite <- app_assoc. reflexivity.
  - reflexivity.
Qed.

(** ** CPU conversion *)

Lemma string_eqb_sym (a b : string) : String.eqb a b = String.eqb b a.
Proof.
  destruct (String.eqb_spec a b) as [->|Hne].
  - now rewrite String.eqb_refl.
  - symmetry. apply String.eqb_neq. congruence.
Qed.

Module JsMapFacts.
Import JsMap.

Section Facts.
Context {V : Type}.
Implicit Types (m : t V) (v : V).

Lemma get_set_eq k v m : get k (set k v m) = Some v.
Proof.
induction m as [|[k' v'] m IH]; cbn [get set].
- now rewrite String.eqb_refl.
- destruct (String.eqb k' k) eqn:E; cbn [get]; rewrite E; [reflexivity|exact IH].
Qed.

Lemma get_set_ne k k' v m : k <> k' -> get k' (set k v m) = get k' m.
Proof.
intros Hne. induction m as [|[k0 v0] m IH]; cbn [get set].
- apply String.eqb_neq in Hne. now rewrite Hne.
- destruct (String.eqb k0 k) eqn:E; cbn [get].
  + apply String.eqb_eq in E. subst k0.
    apply String.eqb_neq in Hne. now rewrite Hne.
  + now rewrite IH.
Qed.

Lemma get_None k m : get k m = None <-> ~ In k (map fst m).
Proof.
induction m as [|[k0 v0] m IH]; cbn [get map fst In]; [tauto|].
destruct (String.eqb_spec k0 k) as [->|Hne].
- split; [discriminate|]. intros H. exfalso. apply H. now left.
- rewrite IH. split; [|tauto]. intros H [?|?]; [congruence|tauto].
Qed.

Lemma keys_set k v m :
map fst (set k v m) =
match get k m with
| Some _ => map fst m
| None => (map fst m ++ [k])%list
end.
Proof.
induction m as [|[k0 v0] m IH]; cbn [get set map fst]; [reflexivity|].
destruct (String.eqb k0 k) eqn:E; cbn [map fst]; [reflexivity|].
rewrite IH. destruct (get k m); reflexivity.
Qed.

Lemma In_get k v m :
NoDup (map fst m) -> (In (k, v) m <-> get k m = Some v).
Proof.
induction m as [|[k0 v0] m IH]; cbn [get map fst In]; intros Hnd.
- split; [tauto|discriminate].
- apply NoDup_cons in Hnd as [Hnotin Hnd']. rewrite list_elem_of_In in Hnotin.
  destruct (String.eqb_spec k0 k) as [->|Hne].
  + split.
    * intros [E|Hin]; [congruence|].
      exfalso. apply Hnotin. apply (in_map fst) in Hin. exact Hin.
    * intros E. left. congruence.
  + rewrite <- (IH Hnd'). split; [|tauto].
    intros [E|Hin]; [congruence|exact Hin].
Qed.

End Facts.

End JsMapFacts.

Lemma walkUp_visited nm pm budget : forall cur frames,
  walkUp nm pm budget cur frames =
  (frames ++ map (fun node => frameLabel (callFrame node))
     (List.filter (fun node => visibleFrame (callFrame node))
        (visited nm pm budget cur)))%list.
Proof.
  induction budget as [|b IH]; intros cur frames; cbn [walkUp visited].
  - destruct cur; now rewrite app_nil_r.
  - destruct cur as [cid|]; [|now rewrite app_nil_r].
    destruct (nm !! cid) as [node|]; [|now rewrite app_nil_r].
    destruct (isRoot (functionName (callFrame node))) eqn:Hroot;
      [now rewrite app_nil_r|].
    cbn [List.filter]. unfold visibleFrame at 1. rewrite Hroot. cbn [negb andb].
    rewrite IH.
    destruct (shouldSkipFrame _ _); cbn [negb map]; [reflexivity|].
    now rewrite <- app_assoc.
Qed.

Lemma visited_length nm pm budget : forall cur,
  (length (visited nm pm budget cur) <= budget)%nat.
Proof.
  induction budget as [|b IH]; intros cur; cbn [visited]; [destruct cur; simpl; lia|].
  destruct cur as [cid|]; [|simpl; lia].
  destruct (nm !! cid) as [node|]; [|simpl; lia].
  destruct (isRoot _); cbn [length]; [lia|].
  specialize (IH (pm !! cid)). lia.
Qed.

Lemma sampleFrames_visited nm pm leaf :
  sampleFrames nm pm leaf =
  map (fun node => frameLabel (callFrame node))
    (List.filter (fun node => visibleFrame (callFrame node))
       (rev (visited nm pm MAX_DEPTH (Some leaf)))).
Proof.
  unfold sampleFrames. rewrite walkUp_visited. cbn [app].
  rewrite <- map_rev. f_equal.
  generalize (visited nm pm MAX_DEPTH (Some leaf)). intros l.
  induction l as [|x l IH]; [reflexivity|].
  cbn [List.filter rev]. rewrite List.filter_app. cbn [List.filter].
  destruct (visibleFrame (callFrame x)); cbn [rev]; rewrite IH;
    [reflexivity|now rewrite app_nil_r].
Qed.

(** *** The two maps built in the pre-pass *)

Lemma buildNodeMap_snoc ns node :
  buildNodeMap (ns ++ [node]) = <[node_id node := node]> (buildNodeMap ns).
Proof. unfold buildNodeMap. now rewrite foldl_app. Qed.

Lemma buildNodeMap_lookup ns i node :
  buildNodeMap ns !! i = Some node -> In node ns /\ node_id node = i.
Proof.
  induction ns as [|n ns IH] using rev_ind.
  - unfold buildNodeMap. cbn. rewrite lookup_empty. discriminate.
  - rewrite buildNodeMap_snoc, lookup_insert. case_decide as Hd.
    + intros [= <-]. split; [apply in_or_app; right; now left|exact Hd].
    + intros H. destruct (IH H) as [Hin Hid]. split; [apply in_or_app; now left|exact Hid].
Qed.

Lemma buildNodeMap_is_Some ns node :
  In node ns -> is_Some (buildNodeMap ns !! node_id node).
Proof.
  induction ns as [|n ns IH] using rev_ind; [intros []|].
  intros Hin. rewrite buildNodeMap_snoc, lookup_insert. case_decide as Hd; [eauto|].
  apply in_app_or in Hin as [Hin|[->|[]]]; [now apply IH|congruence].
Qed.

Lemma insertChildren_lookup (m : gmap Z Z) p (cs : list Z) (c : Z) :
  foldl (fun m' childId => <[childId := p]> m') m cs !! c =
  if decide (c ∈ cs) then Some p else m !! c.
Proof.
  revert m. induction cs as [|x cs IH]; intros m; cbn [foldl].
  - case_decide as H; [inversion H|reflexivity].
  - rewrite IH. destruct (decide (c ∈ cs)) as [Hin|Hnin].
    + rewrite decide_True by (now apply list_elem_of_further). reflexivity.
    + rewrite lookup_insert. case_decide as Hd.
      * subst x. rewrite decide_True by apply list_elem_of_here. reflexivity.
      * rewrite decide_False; [reflexivity|].
        intros [?|?]%elem_of_cons; congruence.
Qed.

Lemma buildParentMap_snoc ns node :
  buildParentMap (ns ++ [node]) =
  match children node with
  | Some cs => foldl (fun m' childId => <[childId := node_id node]> m') (buildParentMap ns) cs
  | None => buildParentMap ns
  end.
Proof. unfold buildParentMap. now rewrite foldl_app. Qed.

Lemma buildParentMap_lookup ns c p :
  buildParentMap ns !! c = Some p ->
  exists node cs, In node ns /\ node_id node = p /\ children node = Some cs /\ In c cs.
Proof.
  induction ns as [|n ns IH] using rev_ind.
  - unfold buildParentMap. cbn. rewrite lookup_empty. discriminate.
  - rewrite buildParentMap_snoc.
    assert (Hold : buildParentMap ns !! c = Some p ->
      exists node cs, In node (ns ++ [n]) /\ node_id node = p /\
                      children node = Some cs /\ In c cs).
    { intros H. destruct (IH H) as (node & cs & Hin & Hrest).
      exists node, cs. split; [apply in_or_app; now left|exact Hrest]. }
    destruct (children n) as [cs|] eqn:Hcs; [|exact Hold].
    rewrite insertChildren_lookup. destruct (decide (c ∈ cs)) as [Hin|_]; [|exact Hold].
    intros [= <-]. exists n, cs.
    split; [apply in_or_app; right; now left|].
    split; [reflexivity|]. split; [exact Hcs|now apply list_elem_of_In].
Qed.

(** A parent link always leads to a node of the list. *)
Lemma parent_is_node ns c p :
  buildParentMap ns !! c = Some p -> is_Some (buildNodeMap ns !! p).
Proof.
  intros H. destruct (buildParentMap_lookup _ _ _ H) as (node & cs & Hin & <- & _).
  now apply buildNodeMap_is_Some.
Qed.

(** *** Counting the samples per stack *)

Lemma countSample_empty nm pm m leaf :
  sampleFrames nm pm leaf = [] -> countSample nm pm m leaf = m.
Proof. unfold countSample. now intros ->. Qed.

Lemma countSample_key nm pm m leaf :
  sampleFrames nm pm leaf <> [] ->
  countSample nm pm m leaf =
  JsMap.set (join ";" (sampleFrames nm pm leaf))
    (default 0%nat (JsMap.get (join ";" (sampleFrames nm pm leaf)) m) + 1)%nat m.
Proof.
  unfold countSample. destruct (sampleFrames nm pm leaf); [congruence|reflexivity].
Qed.

Lemma keysOf_snoc nm pm smpls leaf :
  keysOf nm pm (smpls ++ [leaf]) =
  (keysOf nm pm smpls ++
   match sampleFrames nm pm leaf with
   | [] => []
   | fs => [join ";" fs]
   end)%list.
Proof.
  unfold keysOf. rewrite map_app, List.filter_app, map_app. f_equal.
  cbn [map List.filter]. destruct (sampleFrames nm pm leaf); reflexivity.
Qed.

Lemma stackCounts_invariant nm pm smpls :
  NoDup (map fst (foldl (countSample nm pm) JsMap.empty smpls)) /\
  forall stack,
    JsMap.get stack (foldl (countSample nm pm) JsMap.empty smpls) =
    match count_occ string_dec (keysOf nm pm smpls) stack with
    | O => None
    | S n => Some (S n)
    end.
Proof.
  induction smpls as [|leaf smpls [IHnd IHget]] using rev_ind.
  - split; [apply NoDup_nil_2|reflexivity].
  - rewrite foldl_app, keysOf_snoc. cbn [foldl].
    set (m := foldl (countSample nm pm) JsMap.empty smpls) in *.
    destruct (sampleFrames nm pm leaf) as [|f fs] eqn:Hfs.
    + rewrite countSample_empty by assumption. rewrite app_nil_r. now split.
    + rewrite countSample_key by (rewrite Hfs; discriminate). rewrite Hfs.
      set (k := join ";" (f :: fs)).
      split.
      * rewrite JsMapFacts.keys_set.
        destruct (JsMap.get k m) eqn:Hk; [exact IHnd|].
        apply NoDup_app. split; [exact IHnd|]. split; [|apply NoDup_singleton].
        intros x Hx Hxk. apply list_elem_of_singleton in Hxk. subst x.
        apply JsMapFacts.get_None in Hk. apply Hk. now apply list_elem_of_In.
      * intros stack. rewrite count_occ_app. cbn [count_occ].
        destruct (string_dec k stack) as [<-|Hne].
        -- rewrite JsMapFacts.get_set_eq, IHget.
           destruct (count_occ string_dec (keysOf nm pm smpls) k); cbn [default];
             f_equal; lia.
        -- rewrite JsMapFacts.get_set_ne by assumption. rewrite IHget.
           now rewrite Nat.add_0_r.
Qed.



Lemma convertToFolded_Some profile smpls :
  samples profile = Some smpls ->
  convertToFolded profile =
  join newline (map foldedLine (JsMap.entries (stackCountsOf (nodes profile) smpls))).
Proof.
  unfold convertToFolded. intros ->. destruct smpls; reflexivity.
Qed.




Lemma walkUp_missing nm pm b cid frames :
  nm !! cid = None -> walkUp nm pm (S b) (Some cid) frames = frames.
Proof. intros Hn. cbn [walkUp]. now rewrite Hn. Qed.


(** ** Properties of the codec *)

(** C3 (as amended): [frameLabel] names the frame by its trimmed
    function name, or by the literal "(anonymous)" when the function
    name is empty or white space only.  With an empty url the label is
    that name alone.  With a non-empty url the label is
    "name (shortUrl:line)" when the line number is at least 0 and
    "name (shortUrl)" otherwise, where shortUrl is the url itself unless
    the url starts with "file://": only then is the scheme stripped and
    only the last two "/"-separated segments of the rest kept. *)
Theorem frameLabel_format :
  (forall cf,
     frameName cf =
     if allWhiteSpace (functionName cf) then "(anonymous)" else trim (functionName cf)) /\
  (forall cf, url cf = "" -> frameLabel cf = frameName cf) /\
  (forall cf, url cf <> "" -> (0 <= lineNumber cf)%Z ->
     frameLabel cf =
     frameName cf ++ " (" ++ shortenUrl (url cf) ++ ":" ++ showZ (lineNumber cf) ++ ")") /\
  (forall cf, url cf <> "" -> (lineNumber cf < 0)%Z ->
     frameLabel cf = frameName cf ++ " (" ++ shortenUrl (url cf) ++ ")") /\
  (forall u, startsWith u "file://" = false -> shortenUrl u = u) /\
  (forall rest,
     shortenUrl ("file://" ++ rest) = join "/" (lastTwo (split "/" rest))) /\
  (forall pre a b,
     Forall (fun seg => hasChar "/" seg = false) (pre ++ [a; b]) ->
     shortenUrl ("file://" ++ join "/" (pre ++ [a; b])) = a ++ "/" ++ b).
Proof.
  split; [|split; [|split; [|split; [|split; [|split]]]]].
  - intros cf. unfold frameName.
    destruct (allWhiteSpace (functionName cf)) eqn:Hw.
    + apply trim_empty in Hw. now rewrite Hw.
    + destruct (trim (functionName cf)) eqn:Ht; [|reflexivity].
      apply trim_empty in Ht. congruence.
  - intros cf Hu. unfold frameLabel. now rewrite Hu.
  - intros cf Hu Hl. unfold frameLabel.
    apply String.eqb_neq in Hu. rewrite Hu.
    apply Z.leb_le in Hl. now rewrite Hl.
  - intros cf Hu Hl. unfold frameLabel.
    apply String.eqb_neq in Hu. rewrite Hu.
    apply Z.leb_gt in Hl. now rewrite Hl.
  - intros u Hu. unfold shortenUrl. now rewrite Hu.
  - intros rest. reflexivity.
  - intros pre a b Hsegs.
    change (shortenUrl ("file://" ++ join "/" (pre ++ [a; b])))
      with (join "/" (lastTwo (split "/" (join "/" (pre ++ [a; b]))))).
    rewrite split_join; [|now destruct pre|exact Hsegs].
    now rewrite lastTwo_app.
Qed.

Lemma frameLabel_format_witness :
  frameLabel (plainFrame "cacheSatisfyAndReturn") = "cacheSatisfyAndReturn" /\
  frameLabel (mkCallFrame "" "1" "app.ts" 5 (-1)) = "(anonymous) (app.ts:5)" /\
  frameLabel (mkCallFrame "myFunc" "1" "app.ts" (-1) (-1)) = "myFunc (app.ts)" /\
  shortenUrl "node:internal/process/task_queues" = "node:internal/process/task_queues" /\
  shortenUrl ("file://" ++ join "/" ([""; "home"; "user"; "src"] ++ ["deep"; "handler.ts"]))
  = "deep" ++ "/" ++ "handler.ts".
Proof.
  destruct frameLabel_format as (_ & Hbare & Hline & Hnoline & Hplain & _ & Hshort).
  split; [apply Hbare; reflexivity|].
  split; [rewrite Hline; [reflexivity|discriminate|cbn; lia]|].
  split; [rewrite Hnoline; [reflexivity|discriminate|cbn; lia]|].
  split; [apply Hplain; reflexivity|].
  apply Hshort. repeat constructor.
Defined.

(** C3, as stated, fails: the url of a frame that does not start with
    "file://" is kept whole, not cut to its last two segments. *)
Lemma frameLabel_keeps_plain_path :
  frameLabel plainPathFrame = "handler (/home/user/app/src/handler.ts:10)" /\
  frameLabel plainPathFrame <> "handler (src/handler.ts:10)".
Proof. split; [reflexivity|discriminate]. Qed.

(** C4: [convertHeapToFolded] emits, in visiting order, exactly one line
    "path selfSize" for each node with a positive self size and a
    non-empty accumulated path.  The path grows by the node's label at
    a visible (non-root, non-skipped) node and stays as it is at a root
    or skipped node, so the self size of a skipped node is charged to
    the path of its nearest visible ancestor, and is dropped when that
    path is empty.  The tree (root) -> parent -> (idle, 512) gives
    "parent 512", and a tree whose nodes all have self size 0 gives the
    empty string. *)
Theorem convertHeapToFolded_lines :
  (forall profile,
     convertHeapToFolded profile =
     join newline (map heapLine (List.filter heapEmits (heapVisits (head profile) [])))) /\
  (forall node frames,
     heapVisits node frames =
     (node, heapPath frames node)
       :: flat_map (fun child => heapVisits child (heapPath frames node))
            (heap_children node)) /\
  (forall v, heapEmits v = true <-> (0 < selfSize (fst v))%Z /\ snd v <> []) /\
  (forall frames node,
     isRoot (functionName (heap_callFrame node)) = true \/
     shouldSkipFrame (functionName (heap_callFrame node)) (url (heap_callFrame node)) = true ->
     heapPath frames node = frames /\
     heapLine (node, heapPath frames node) = join ";" frames ++ " " ++ showZ (selfSize node)) /\
  (forall frames node,
     isRoot (functionName (heap_callFrame node)) = false ->
     shouldSkipFrame (functionName (heap_callFrame node)) (url (heap_callFrame node)) = false ->
     heapPath frames node = (frames ++ [frameLabel (heap_callFrame node)])%list) /\
  convertHeapToFolded idleHeapProfile = "parent 512" /\
  (forall profile,
     Forall (fun node => selfSize node = 0%Z) (heapNodes (head profile)) ->
     convertHeapToFolded profile = "").
Proof.
  split; [|split; [|split; [|split; [|split; [|split]]]]].
  - intros profile. unfold convertHeapToFolded. now rewrite walkHeap_visits.
  - intros node frames. apply heapVisits_unfold.
  - intros [node path]. unfold heapEmits. cbn [fst snd].
    rewrite andb_true_iff, Z.ltb_lt, negb_true_iff, Nat.eqb_neq.
    destruct path; cbn [length]; split; intros [? ?]; split; auto; try lia; congruence.
  - intros frames node Hskip.
    assert (Hp : heapPath frames node = frames).
    { rewrite heapPath_walk.
      destruct Hskip as [-> | ->]; [reflexivity|now rewrite orb_true_r]. }
    rewrite Hp. split; reflexivity.
  - intros frames node Hr Hs. rewrite heapPath_walk. now rewrite Hr, Hs.
  - reflexivity.
  - intros profile Hzero. unfold convertHeapToFolded. rewrite walkHeap_visits.
    cbn [app].
    assert (Hnone : forall node frames,
      Forall (fun n => selfSize n = 0%Z) (heapNodes node) ->
      List.filter heapEmits (heapVisits node frames) = []).
    { clear. induction node as [cf sz i cs IH] using HeapProfileNode_nested_ind.
      intros frames Hz. rewrite heapVisits_unfold.
      cbn [heapNodes heap_children] in Hz. apply Forall_cons in Hz as [Hsz Hkids].
      cbn [selfSize] in Hsz. subst sz.
      cbn [List.filter heap_children]. unfold heapEmits at 1. cbn [fst selfSize andb Z.ltb Z.compare].
      generalize (heapPath frames (mkHeapNode cf 0 i cs)). intros next.
      induction IH as [|c cs' Hc _ IHcs]; [reflexivity|].
      cbn [flat_map] in *. apply Forall_app in Hkids as [Hc0 Hrest].
      rewrite List.filter_app, (Hc next Hc0), IHcs by exact Hrest. reflexivity. }
    now rewrite Hnone.
Qed.

Lemma convertHeapToFolded_lines_witness : convertHeapToFolded zeroHeapProfile = "".
Proof.
  apply convertHeapToFolded_lines. repeat constructor.
Defined.

Lemma keysOf_app nm pm l1 l2 :
  keysOf nm pm (l1 ++ l2) = (keysOf nm pm l1 ++ keysOf nm pm l2)%list.
Proof. unfold keysOf. now rewrite map_app, List.filter_app, map_app. Qed.

Lemma missingAt_leaf ns budget : forall cur i,
  missingAt (buildNodeMap ns) (buildParentMap ns) budget cur = Some i ->
  cur = Some i /\ buildNodeMap ns !! i = None.
Proof.
  induction budget as [|b IH]; intros cur i; cbn [missingAt]; [now destruct cur|].
  destruct cur as [cid|]; [|discriminate].
  destruct (buildNodeMap ns !! cid) as [node|] eqn:Hn.
  - destruct (isRoot _); [discriminate|].
    intros H. destruct (IH _ _ H) as [Hp Hi].
    apply parent_is_node in Hp. rewrite Hi in Hp. now destruct Hp.
  - intros [= <-]. now split.
Qed.

Lemma sampleFrames_missing nm pm leaf :
  nm !! leaf = None -> sampleFrames nm pm leaf = [].
Proof.
  intros H. unfold sampleFrames, MAX_DEPTH. now rewrite walkUp_missing.
Qed.

Lemma stackCountsOf_drop ns l1 l2 leaf :
  sampleFrames (buildNodeMap ns) (buildParentMap ns) leaf = [] ->
  stackCountsOf ns (l1 ++ leaf :: l2) = stackCountsOf ns (l1 ++ l2).
Proof.
  intros H. unfold stackCountsOf. rewrite !foldl_app. cbn [foldl].
  now rewrite countSample_empty.
Qed.



(** C7: [convertToFolded] is a total function: its loops run over the
    finite node, children and sample lists, and the upward walk of a
    sample is bounded by the depth cap whatever the parent links are.
    The walk passes at most 512 nodes and so collects at most 512
    labels.  On parent links that form a cycle the walk stops at the
    cap and the capped stack is counted like any other; whatever the
    walk of one sample does, the counts of every other stack are what
    they are without that sample. *)
Theorem convertToFolded_depth_cap :
  (forall nm pm leaf,
     (length (visited nm pm MAX_DEPTH (Some leaf)) <= 512)%nat /\
     (length (sampleFrames nm pm leaf) <= 512)%nat) /\
  (let nm := buildNodeMap (nodes cyclicProfile) in
   let pm := buildParentMap (nodes cyclicProfile) in
   pm !! 2 = Some 3 /\ pm !! 3 = Some 2 /\
   length (visited nm pm MAX_DEPTH (Some 2)) = 512%nat) /\
  convertToFolded cyclicProfile =
    join ";" (concat (repeat ["y"; "x"] 256)) ++ " 1" /\
  (forall ns l1 l2 leaf stack,
     stack <> join ";" (sampleFrames (buildNodeMap ns) (buildParentMap ns) leaf) ->
     JsMap.get stack (stackCountsOf ns (l1 ++ leaf :: l2)) =
     JsMap.get stack (stackCountsOf ns (l1 ++ l2))).
Proof.
  split; [|split; [|split]].
  - intros nm pm leaf.
    pose proof (visited_length nm pm MAX_DEPTH (Some leaf)) as Hv.
    change MAX_DEPTH with 512%nat in Hv at 2.
    split; [exact Hv|].
    rewrite sampleFrames_visited, length_map.
    etransitivity; [apply List.filter_length_le|].
    now rewrite length_rev.
  - vm_compute. repeat split; reflexivity.
  - vm_compute. reflexivity.
  - intros ns l1 l2 leaf stack Hne.
    unfold stackCountsOf.
    destruct (stackCounts_invariant (buildNodeMap ns) (buildParentMap ns)
                (l1 ++ leaf :: l2)) as [_ ->].
    destruct (stackCounts_invariant (buildNodeMap ns) (buildParentMap ns)
                (l1 ++ l2)) as [_ ->].
    change (leaf :: l2) with ([leaf] ++ l2)%list.
    rewrite !keysOf_app, !count_occ_app.
    replace (count_occ string_dec (keysOf (buildNodeMap ns) (buildParentMap ns) [leaf]) stack)
      with 0%nat; [now rewrite Nat.add_0_l|].
    unfold keysOf. cbn [map List.filter].
    destruct (sampleFrames (buildNodeMap ns) (buildParentMap ns) leaf) as [|f fs] eqn:Hf;
      [reflexivity|].
    cbn [length Nat.eqb negb map count_occ].
    destruct (string_dec (join ";" (f :: fs)) stack) as [E|_]; [congruence|reflexivity].
Qed.

Lemma convertToFolded_depth_cap_witness :
  JsMap.get "A;B;C" (stackCountsOf (nodes cyclicProfile) ([2] ++ 2 :: [3])) =
  JsMap.get "A;B;C" (stackCountsOf (nodes cyclicProfile) ([2] ++ [3])).
Proof.
  apply convertToFolded_depth_cap. vm_compute. discriminate.
Defined.

(** C10: a sample whose leaf id no node carries collects no label and
    so contributes no line.  An upward walk can only meet a missing
    node at the sample's own leaf id, because every parent link leads
    to a node of the list; the stack collected at that point is empty.
    The sample raises nothing and the conversion of the other samples
    is what it is without it.  A profile whose only sample refers to an
    unknown id converts to the empty string. *)
Theorem convertToFolded_unknown_id :
  (forall ns leaf, buildNodeMap ns !! leaf = None ->
     sampleFrames (buildNodeMap ns) (buildParentMap ns) leaf = []) /\
  (forall ns child parent, buildParentMap ns !! child = Some parent ->
     is_Some (buildNodeMap ns !! parent)) /\
  (forall ns leaf i,
     missingAt (buildNodeMap ns) (buildParentMap ns) MAX_DEPTH (Some leaf) = Some i ->
     i = leaf /\ buildNodeMap ns !! leaf = None /\
     sampleFrames (buildNodeMap ns) (buildParentMap ns) leaf = []) /\
  (forall ns st et td l1 l2 leaf, buildNodeMap ns !! leaf = None ->
     convertToFolded (mkProfile ns st et (Some (l1 ++ leaf :: l2)%list) td) =
     convertToFolded (mkProfile ns st et (Some (l1 ++ l2)%list) td)) /\
  (forall ns st et td leaf, buildNodeMap ns !! leaf = None ->
     convertToFolded (mkProfile ns st et (Some [leaf]) td) = "") /\
  convertToFolded unknownSampleProfile = "".
Proof.
  assert (Hdrop : forall ns st et td l1 l2 leaf, buildNodeMap ns !! leaf = None ->
     convertToFolded (mkProfile ns st et (Some (l1 ++ leaf :: l2)%list) td) =
     convertToFolded (mkProfile ns st et (Some (l1 ++ l2)%list) td)).
  { intros ns st et td l1 l2 leaf Hm.
    rewrite (convertToFolded_Some (mkProfile ns st et (Some (l1 ++ leaf :: l2)%list) td) _ eq_refl).
    rewrite (convertToFolded_Some (mkProfile ns st et (Some (l1 ++ l2)%list) td) _ eq_refl). cbn [nodes].
    rewrite stackCountsOf_drop; [reflexivity|]. now apply sampleFrames_missing. }
  split; [|split; [|split; [|split; [|split]]]].
  - intros ns leaf. apply sampleFrames_missing.
  - intros ns child parent. apply parent_is_node.
  - intros ns leaf i H. apply missingAt_leaf in H as [[= ->] Hm].
    split; [reflexivity|]. split; [exact Hm|]. now apply sampleFrames_missing.
  - exact Hdrop.
  - intros ns st et td leaf Hm. apply (Hdrop ns st et td [] [] leaf Hm).
  - vm_compute. reflexivity.
Qed.

Lemma convertToFolded_unknown_id_witness :
  convertToFolded
    (mkProfile (nodes unknownSampleProfile) 0%float 1000000%float (Some ([2] ++ 99 :: [2])%list) None)
  = convertToFolded
    (mkProfile (nodes unknownSampleProfile) 0%float 1000000%float (Some ([2] ++ [2])%list) None).
Proof.
  apply convertToFolded_unknown_id. vm_compute. reflexivity.
Defined.

(** ** Sample-rate estimation *)

Section Binary64Sign.

Variables prec emax : Z.

Lemma shr_1_nonneg mrs : (0 <= shr_m mrs)%Z -> (0 <= shr_m (shr_1 mrs))%Z.
Proof.
  destruct mrs as [m r s]. cbn [shr_m].
  destruct m as [|p|p]; cbn [shr_1 shr_m]; [lia| |lia].
  intros _. destruct p; cbn [shr_m]; lia.
Qed.

Lemma iter_pos_invariant {A} (Inv : A -> Prop) (f : A -> A) :
  (forall x, Inv x -> Inv (f x)) ->
  forall p x, Inv x -> Inv (SpecFloat.iter_pos f p x).
Proof.
  intros Hf. induction p as [p IH|p IH|]; intros x Hx; cbn [SpecFloat.iter_pos]; auto.
Qed.

Lemma shr_nonneg mrs e n :
  (0 <= shr_m mrs)%Z -> (0 <= shr_m (fst (shr mrs e n)))%Z.
Proof.
  intros H. destruct n as [|p|p]; cbn [shr fst]; [exact H| |exact H].
  apply (iter_pos_invariant (fun x => (0 <= shr_m x)%Z)); [apply shr_1_nonneg|exact H].
Qed.

Lemma shr_fexp_nonneg m e l :
  (0 <= m)%Z -> (0 <= shr_m (fst (shr_fexp prec emax m e l)))%Z.
Proof.
  intros H. unfold shr_fexp. apply shr_nonneg.
  destruct l as [|[]]; cbn [shr_record_of_loc shr_m]; exact H.
Qed.

Lemma round_nearest_even_nonneg m l :
  (0 <= m)%Z -> (0 <= round_nearest_even m l)%Z.
Proof.
  intros H. destruct l as [|[]]; cbn [round_nearest_even]; try lia.
  destruct (Z.even m); lia.
Qed.

Lemma binary_round_aux_nonneg m e l :
  (0 <= m)%Z -> nonnegSF (binary_round_aux prec emax false m e l).
Proof.
  intros H. unfold binary_round_aux.
  pose proof (shr_fexp_nonneg m e l H) as H1.
  destruct (shr_fexp prec emax m e l) as [mrs' e']. cbn [fst] in H1.
  pose proof (shr_fexp_nonneg
                (round_nearest_even (shr_m mrs') (loc_of_shr_record mrs')) e' loc_Exact
                (round_nearest_even_nonneg _ _ H1)) as H2.
  destruct (shr_fexp prec emax _ e' loc_Exact) as [mrs'' e'']. cbn [fst] in H2.
  destruct (shr_m mrs'') as [|p|p]; [exact I| |lia].
  destruct (e'' <=? emax - prec)%Z; exact I.
Qed.

Lemma binary_normalize_nonneg m e :
  (0 <= m)%Z -> nonnegSF (binary_normalize prec emax m e false).
Proof.
  intros H. destruct m as [|p|p]; cbn [binary_normalize]; [exact I| |lia].
  unfold binary_round. destruct (shl_align _ _ _) as [mz ez].
  apply binary_round_aux_nonneg. lia.
Qed.

Lemma SFmul_nonneg x my ey :
  nonnegSF x -> nonnegSF (SFmul prec emax x (S754_finite false my ey)).
Proof.
  destruct x as [[]|[]| |[] mx ex]; cbn [nonnegSF SFmul xorb]; try tauto.
  intros _. apply binary_round_aux_nonneg. lia.
Qed.

Lemma SFdiv_nonneg x my ey :
  nonnegSF x -> nonnegSF (SFdiv prec emax x (S754_finite false my ey)).
Proof.
  destruct x as [[]|[]| |[] mx ex]; cbn [nonnegSF SFdiv xorb]; try tauto.
  intros _. unfold SFdiv_core_binary.
  set (m' := match _ with Z0 => _ | Zpos _ => _ | Zneg _ => _ end).
  assert (Hm' : (0 <= m')%Z).
  { subst m'. destruct (_ - _ - _)%Z; [lia| |lia]. apply Z.shiftl_nonneg. lia. }
  pose proof (Z.div_pos m' (Z.pos my) Hm' ltac:(lia)) as Hq.
  unfold Z.div in Hq. destruct (Z.div_eucl m' (Z.pos my)) as [q r].
  apply binary_round_aux_nonneg. exact Hq.
Qed.

End Binary64Sign.

Lemma ofLength_nonneg n : nonnegSF (Prim2SF (JsNumber.ofLength n)).
Proof.
  unfold JsNumber.ofLength. rewrite of_uint63_spec.
  apply binary_normalize_nonneg. apply Uint63.to_Z_bounded.
Qed.

Lemma of_uint63_nonneg i : nonnegSF (Prim2SF (PrimFloat.of_uint63 i)).
Proof.
  rewrite of_uint63_spec. apply binary_normalize_nonneg. apply Uint63.to_Z_bounded.
Qed.

Lemma round_nonneg x : nonnegSF (Prim2SF x) -> nonnegSF (Prim2SF (JsNumber.round x)).
Proof.
  intros H. unfold JsNumber.round.
  destruct (Prim2SF x) as [s|s| |s m e] eqn:Hx; try (rewrite Hx; exact H).
  destruct s; [destruct H|].
  destruct (Z.leb_spec 0 e) as [_|He]; [rewrite Hx; exact I|].
  assert (Hr : (0 <= (Z.pos (2 * m) + 2 ^ (- e)) / 2 ^ (1 - e))%Z).
  { apply Z.div_pos; [|apply Z.pow_pos_nonneg; lia].
    assert (0 <= 2 ^ (- e))%Z by (apply Z.pow_nonneg; lia). lia. }
  destruct ((Z.pos (2 * m) + 2 ^ (- e)) / 2 ^ (1 - e))%Z as [|p|p]; [|apply of_uint63_nonneg|lia].
  vm_compute. exact I.
Qed.

Lemma leb_zero_nonneg x : nonnegSF (Prim2SF x) -> (0 <=? x)%float = true.
Proof.
  rewrite leb_spec. change (Prim2SF 0%float) with (S754_zero false).
  destruct (Prim2SF x) as [[]|[]| |[] m e]; cbn; tauto.
Qed.

Lemma finite_positive d :
  (d <=? 0)%float = false -> is_finite d = true ->
  exists m e, Prim2SF d = S754_finite false m e.
Proof.
  intros Hle Hfin. rewrite leb_spec in Hle.
  change (Prim2SF 0%float) with (S754_zero false) in Hle.
  unfold is_finite, is_nan, is_infinity in Hfin.
  rewrite !FloatAxioms.eqb_spec, abs_spec in Hfin.
  change (Prim2SF infinity) with (S754_infinity false) in Hfin.
  destruct (Prim2SF d) as [s|s| |s m e]; try discriminate.
  - destruct s; discriminate.
  - destruct s; [discriminate|]. now exists m, e.
Qed.

Lemma leb_false_eqb_false d : (d <=? 0)%float = false -> (d =? 0)%float = false.
Proof.
  rewrite leb_spec, FloatAxioms.eqb_spec. unfold SFleb, SFeqb.
  destruct (SFcompare _ _) as [[]|]; congruence.
Qed.

Lemma SFdiv_notNegative x y :
  nonnegSF x -> notNegativeSF y -> notNegativeSF (SFdiv prec emax x y).
Proof.
  intros Hx [Hy| ->]; [|right; now destruct x].
  destruct y as [[]|[]| |[] my ey]; try destruct Hy.
  - destruct x as [[]|[]| |[] mx ex]; try destruct Hx; cbn; [right|left|left]; easy.
  - destruct x as [[]|[]| |[] mx ex]; try destruct Hx; cbn; [left|right|left]; easy.
  - left. now apply SFdiv_nonneg.
Qed.

Lemma SFmul_notNegative x my ey :
  notNegativeSF x -> notNegativeSF (SFmul prec emax x (S754_finite false my ey)).
Proof.
  intros [Hx| ->]; [left; now apply SFmul_nonneg|right; reflexivity].
Qed.

Lemma round_notNegative x :
  notNegativeSF (Prim2SF x) -> notNegativeSF (Prim2SF (JsNumber.round x)).
Proof.
  intros [H|H]; [left; now apply round_nonneg|right].
  unfold JsNumber.round. now rewrite H.
Qed.

Lemma ltb_zero_notNegative x : notNegativeSF (Prim2SF x) -> (x <? 0)%float = false.
Proof.
  rewrite ltb_spec. change (Prim2SF 0%float) with (S754_zero false).
  intros [H| ->]; [|reflexivity].
  destruct (Prim2SF x) as [[]|[]| |[] m e]; cbn in *; tauto.
Qed.

Lemma guard_notNegative d : (d <=? 0)%float = false -> notNegativeSF (Prim2SF d).
Proof.
  rewrite leb_spec. change (Prim2SF 0%float) with (S754_zero false).
  destruct (Prim2SF d) as [[]|[]| |[] m e]; cbn; try discriminate; intros _;
    [left|right|left]; easy.
Qed.

(** [calculateSampleRate] on profiles whose duration is a number: it
    returns exactly 100 when the sample sequence is absent or empty
    and when the duration [endTime - startTime] is at most 0;
    otherwise it returns [round (sampleCount / duration * 1_000_000)],
    computed in binary64 with a divisor that is not zero.  The rate is
    never negative, and for every profile whose duration is a finite
    number it is a number, at least 0.  It is 1000 for 1000 samples
    over one second and 100 for 1500 samples over fifteen seconds.
    A duration that is not a number is followed separately below. *)
Theorem calculateSampleRate_spec :
  (forall profile, samples profile = None \/ samples profile = Some [] ->
     calculateSampleRate profile = 100%float) /\
  (forall profile, (durationUs profile <=? 0)%float = true ->
     calculateSampleRate profile = 100%float) /\
  (forall profile smpls,
     samples profile = Some smpls -> smpls <> [] ->
     (durationUs profile <=? 0)%float = false ->
     (durationUs profile =? 0)%float = false /\
     calculateSampleRate profile =
     JsNumber.round
       ((JsNumber.ofLength (length smpls) / durationUs profile) * 1000000)%float) /\
  (forall profile, (calculateSampleRate profile <? 0)%float = false) /\
  (forall profile, is_finite (durationUs profile) = true ->
     (0 <=? calculateSampleRate profile)%float = true) /\
  calculateSampleRate (profileOfLength 1000 0%float 1000000%float) = 1000%float /\
  calculateSampleRate (profileOfLength 1500 0%float 15000000%float) = 100%float.
Proof.
  split; [|split; [|split; [|split; [|split; [|split]]]]].
  - intros profile [H|H]; unfold calculateSampleRate; now rewrite H.
  - intros profile H. unfold calculateSampleRate, durationUs in *.
    destruct (samples profile) as [[|]|]; try reflexivity. now rewrite H.
  - intros profile smpls Hs Hne Hd. split; [now apply leb_false_eqb_false|].
    unfold calculateSampleRate, durationUs in *. rewrite Hs.
    destruct smpls; [congruence|]. now rewrite Hd.
  - intros profile. unfold calculateSampleRate.
    destruct (samples profile) as [[|s smpls]|]; try (vm_compute; reflexivity).
    fold (durationUs profile).
    destruct (durationUs profile <=? 0)%float eqn:Hd; [vm_compute; reflexivity|].
    apply ltb_zero_notNegative, round_notNegative.
    rewrite mul_spec, div_spec.
    change (Prim2SF 1000000%float) with (S754_finite false 8589934592000000 (-33)).
    apply SFmul_notNegative, SFdiv_notNegative;
      [apply ofLength_nonneg|now apply guard_notNegative].
  - intros profile Hfin. unfold calculateSampleRate.
    destruct (samples profile) as [[|s smpls]|]; try (vm_compute; reflexivity).
    fold (durationUs profile).
    destruct (durationUs profile <=? 0)%float eqn:Hd; [vm_compute; reflexivity|].
    destruct (finite_positive _ Hd Hfin) as (m & e & Hsf).
    apply leb_zero_nonneg, round_nonneg.
    rewrite mul_spec, div_spec, Hsf.
    change (Prim2SF 1000000%float) with (S754_finite false 8589934592000000 (-33)).
    apply SFmul_nonneg, SFdiv_nonneg, ofLength_nonneg.
  - vm_compute. reflexivity.
  - vm_compute. reflexivity.
Qed.

Lemma calculateSampleRate_spec_witness :
  (0 <=? calculateSampleRate (profileOfLength 3 0%float 2000000%float))%float = true /\
  calculateSampleRate (profileOfLength 3 1000%float 1000%float) = 100%float.
Proof.
  destruct calculateSampleRate_spec as (_ & Hzero & _ & _ & Hpos & _).
  split; [apply Hpos|apply Hzero]; vm_compute; reflexivity.
Defined.

(** ** Delivery: the retry loop *)

Module RetryFacts.
Import Profiler.

Lemma client_error_prefix status text :
  (400 <= status < 500)%Z ->
  startsWith (httpErrorMessage status text) "HTTP 4" = true.
Proof.
  intros H.
  assert (Hall : forallb (fun n => startsWith (showZ (400 + Z.of_nat n)) "4")
                   (seq 0 100) = true) by (vm_compute; reflexivity).
  rewrite forallb_forall in Hall.
  specialize (Hall (Z.to_nat (status - 400))).
  rewrite Z2Nat.id in Hall by lia.
  replace (400 + (status - 400))%Z with status in Hall by lia.
  assert (Hs : startsWith (showZ status) "4" = true).
  { apply Hall. apply in_seq. lia. }
  unfold httpErrorMessage. cbn.
  destruct (showZ status) as [|c rest]; [discriminate|].
  cbn in Hs |- *. exact Hs.
Qed.

Lemma retryMessage_client_error status text :
  (400 <= status < 500)%Z -> retryMessage (Responded status text) = None.
Proof.
  intros H. unfold retryMessage.
  destruct (isOk status); [reflexivity|].
  replace ((400 <=? status)%Z && (status <? 500)%Z) with true
    by (symmetry; apply andb_true_iff; split; [apply Z.leb_le|apply Z.ltb_lt]; lia).
  now rewrite client_error_prefix.
Qed.

Lemma scheduleOf_app e1 e2 :
  scheduleOf (e1 ++ e2) = (scheduleOf e1 ++ scheduleOf e2)%list.
Proof. apply List.filter_app. Qed.

Lemma scheduleUpTo_S k :
  scheduleUpTo (S k) = (scheduleUpTo k ++ attemptSchedule k)%list.
Proof.
  unfold scheduleUpTo. rewrite seq_S, flat_map_app. cbn. now rewrite app_nil_r.
Qed.

Section Loop.

Variable debugLog : bool.
Variable folded : string.
Variable fetches : nat -> FetchOutcome.

Lemma scheduleOf_debugEvent e :
  match e with PSleep _ | PFetch _ => False | _ => True end ->
  scheduleOf (debugEvent debugLog e) = [].
Proof. unfold debugEvent. destruct debugLog, e; cbn; tauto. Qed.

(** The events of one attempt, up to the fetch. *)
Lemma attempt_schedule attempt events :
  scheduleOf
    ((if (0 <? attempt)%nat
      then (events ++ debugEvent debugLog (PLogRetry attempt (backoffMs attempt))
                   ++ [PSleep (backoffMs attempt)])%list
      else events) ++ [PFetch attempt]) =
  (scheduleOf events ++ attemptSchedule attempt)%list.
Proof.
  destruct attempt as [|j]; cbn [Nat.ltb Nat.leb attemptSchedule].
  - now rewrite scheduleOf_app.
  - rewrite !scheduleOf_app, scheduleOf_debugEvent by exact I.
    cbn. now rewrite <- app_assoc.
Qed.

(** One iteration that fails in a retryable way. *)
Lemma retryLoop_retry remaining attempt lastError events message :
  retryMessage (fetches attempt) = Some message ->
  exists events',
    retryLoop debugLog folded fetches (S remaining) attempt lastError events =
    retryLoop debugLog folded fetches remaining (S attempt) (Some message) events' /\
    scheduleOf events' = (scheduleOf events ++ attemptSchedule attempt)%list.
Proof.
  intros Hm. cbn [retryLoop]. unfold retryMessage in Hm.
  set (events2 := (_ ++ [PFetch attempt])%list).
  assert (H2 : scheduleOf events2 = (scheduleOf events ++ attemptSchedule attempt)%list)
    by apply attempt_schedule.
  destruct (fetches attempt) as [status text|isError msg].
  - destruct (isOk status); [discriminate|].
    destruct ((400 <=? status)%Z && (status <? 500)%Z).
    + destruct (startsWith _ "HTTP 4"); [discriminate|].
      injection Hm as <-. eexists. split; [reflexivity|].
      rewrite scheduleOf_app, H2. cbn. now rewrite app_nil_r.
    + injection Hm as <-. eexists. split; [reflexivity|].
      rewrite scheduleOf_app, H2. cbn. now rewrite app_nil_r.
  - destruct (isError && startsWith msg "HTTP 4"); [discriminate|].
    injection Hm as <-. eexists. split; [reflexivity|].
    rewrite scheduleOf_app, H2. cbn. now rewrite app_nil_r.
Qed.

(** One iteration that ends the loop. *)
Lemma retryLoop_final remaining attempt lastError events :
  retryMessage (fetches attempt) = None ->
  exists events',
    retryLoop debugLog folded fetches (S remaining) attempt lastError events =
    (match fetches attempt with
     | Responded status text =>
         if isOk status then Returned tt else Thrown (httpErrorMessage status text)
     | Rejected _ message => Thrown message
     end, events') /\
    scheduleOf events' = (scheduleOf events ++ attemptSchedule attempt)%list.
Proof.
  intros Hm. cbn [retryLoop]. unfold retryMessage in Hm.
  set (events2 := (_ ++ [PFetch attempt])%list).
  assert (H2 : scheduleOf events2 = (scheduleOf events ++ attemptSchedule attempt)%list)
    by apply attempt_schedule.
  destruct (fetches attempt) as [status text|isError msg].
  - destruct (isOk status).
    + eexists. split; [reflexivity|].
      rewrite scheduleOf_app, H2, scheduleOf_debugEvent by exact I.
      now rewrite app_nil_r.
    + destruct ((400 <=? status)%Z && (status <? 500)%Z); [|discriminate].
      destruct (startsWith _ "HTTP 4"); [|discriminate].
      eexists. split; [reflexivity|exact H2].
  - destruct (isError && startsWith msg "HTTP 4"); [|discriminate].
    eexists. split; [reflexivity|exact H2].
Qed.

(** After [k] attempts that all failed in a retryable way. *)
Lemma retryLoop_prefix k : forall remaining,
  (forall j, (j < k)%nat -> is_Some (retryMessage (fetches j))) ->
  exists events,
    retryLoop debugLog folded fetches (k + remaining) 0 None [] =
    retryLoop debugLog folded fetches remaining k
      (match k with O => None | S j => retryMessage (fetches j) end) events /\
    scheduleOf events = scheduleUpTo k.
Proof.
  induction k as [|k IH]; intros remaining Hall.
  - exists []. split; reflexivity.
  - destruct (IH (S remaining)) as (events & Hrun & Hsched); [intros j Hj; apply Hall; lia|].
    destruct (Hall k) as [message Hm]; [lia|].
    destruct (retryLoop_retry remaining k
                (match k with O => None | S j => retryMessage (fetches j) end)
                events message Hm) as (events' & Hstep & Hsched').
    exists events'. split.
    + replace (S k + remaining)%nat with (k + S remaining)%nat by lia.
      rewrite Hrun, Hstep, Hm. reflexivity.
    + rewrite Hsched', Hsched, scheduleUpTo_S. reflexivity.
Qed.

(** Whatever the attempts return, the loop makes them in order,
    each after its back-off, and at most [remaining] of them. *)
Lemma retryLoop_schedule remaining : forall attempt lastError events,
  exists n, (n <= remaining)%nat /\ (remaining <> 0%nat -> (1 <= n)%nat) /\
    scheduleOf (snd (retryLoop debugLog folded fetches remaining attempt lastError events)) =
    (scheduleOf events ++ flat_map attemptSchedule (seq attempt n))%list.
Proof.
  induction remaining as [|remaining IH]; intros attempt lastError events.
  - exists 0%nat. cbn. rewrite app_nil_r. repeat split; [lia|congruence].
  - destruct (retryMessage (fetches attempt)) as [message|] eqn:Hm.
    + destruct (retryLoop_retry remaining attempt lastError events message Hm)
        as (events' & -> & Hs).
      destruct (IH (S attempt) (Some message) events') as (n & Hn & _ & Hrun).
      exists (S n). split; [lia|]. split; [lia|].
      rewrite Hrun, Hs. cbn [seq flat_map]. now rewrite <- app_assoc.
    + destruct (retryLoop_final remaining attempt lastError events Hm)
        as (events' & -> & Hs).
      exists 1%nat. split; [lia|]. split; [lia|].
      cbn [snd seq flat_map]. now rewrite Hs, app_nil_r.
Qed.

End Loop.

End RetryFacts.

Import Profiler.

(** C5 (as amended): [pushWithRetry] makes its attempts in order,
    attempt 0 at once and attempt [j > 0] after sleeping
    [min(1000 * 2^(j-1), 30000)] milliseconds, and never more than
    [maxRetries + 1] of them.  A 2xx response ends the loop at once
    with success.  A 4xx response ends it at once with the error
    "HTTP status: text", and so does a thrown [Error] whose message
    starts with "HTTP 4".  A 5xx response, and any other thrown value,
    is retried as long as attempts are left.  When every attempt has
    failed in a retryable way the error of the last attempt is
    thrown. *)
Theorem pushWithRetry_policy :
  forall (debugLog : bool) (folded : string) (fetches : nat -> FetchOutcome)
         (maxRetries : Z),
  let run := pushWithRetry debugLog folded fetches maxRetries in
  (forall k, (Z.of_nat k <= maxRetries)%Z ->
     (forall j, (j < k)%nat -> is_Some (retryMessage (fetches j))) ->
     retryMessage (fetches k) = None ->
     fst run =
       match fetches k with
       | Responded status text =>
           if isOk status then Returned tt else Thrown (httpErrorMessage status text)
       | Rejected _ message => Thrown message
       end /\
     scheduleOf (snd run) = scheduleUpTo (S k)) /\
  (forall k, (Z.of_nat k < maxRetries)%Z ->
     (forall j, (j <= k)%nat -> is_Some (retryMessage (fetches j))) ->
     exists rest,
       scheduleOf (snd run) =
       (scheduleUpTo (S k)
          ++ [PSleep (Z.min (1000 * 2 ^ Z.of_nat k) 30000); PFetch (S k)] ++ rest)%list) /\
  (forall n, maxRetries = Z.of_nat n ->
     (forall j, (j <= n)%nat -> is_Some (retryMessage (fetches j))) ->
     (exists message, retryMessage (fetches n) = Some message /\ fst run = Thrown message) /\
     scheduleOf (snd run) = scheduleUpTo (S n)) /\
  (exists n, (n <= Z.to_nat (maxRetries + 1))%nat /\ scheduleOf (snd run) = scheduleUpTo n) /\
  (forall status text, (200 <= status <= 299)%Z ->
     retryMessage (Responded status text) = None /\ isOk status = true) /\
  (forall status text, (400 <= status < 500)%Z ->
     retryMessage (Responded status text) = None /\ isOk status = false) /\
  (forall status text, (500 <= status)%Z ->
     retryMessage (Responded status text) = Some (httpErrorMessage status text)) /\
  (forall isError message, isError && startsWith message "HTTP 4" = false ->
     retryMessage (Rejected isError message) = Some message) /\
  (forall message, startsWith message "HTTP 4" = true ->
     retryMessage (Rejected true message) = None).
Proof.
  intros debugLog folded fetches maxRetries run.
  split; [|split; [|split; [|split; [|split; [|split; [|split; [|split]]]]]]].
  - intros k Hk Hall Hm. subst run. unfold pushWithRetry.
    replace (Z.to_nat (maxRetries + 1)) with (k + S (Z.to_nat (maxRetries - Z.of_nat k)))%nat
      by lia.
    destruct (RetryFacts.retryLoop_prefix debugLog folded fetches k
                (S (Z.to_nat (maxRetries - Z.of_nat k))) Hall)
      as (events & -> & Hs).
    destruct (RetryFacts.retryLoop_final debugLog folded fetches
                (Z.to_nat (maxRetries - Z.of_nat k)) k
                (match k with O => None | S j => retryMessage (fetches j) end) events Hm)
      as (events' & -> & Hs').
    cbn [fst snd]. split; [reflexivity|].
    now rewrite Hs', Hs, RetryFacts.scheduleUpTo_S.
  - intros k Hk Hall. subst run. unfold pushWithRetry.
    replace (Z.to_nat (maxRetries + 1))
      with (S k + S (Z.to_nat (maxRetries - Z.of_nat k - 1)))%nat by lia.
    destruct (RetryFacts.retryLoop_prefix debugLog folded fetches (S k)
                (S (Z.to_nat (maxRetries - Z.of_nat k - 1)))
                ltac:(intros j Hj; apply Hall; lia)) as (events & -> & Hs).
    destruct (RetryFacts.retryLoop_schedule debugLog folded fetches
                (S (Z.to_nat (maxRetries - Z.of_nat k - 1))) (S k)
                (retryMessage (fetches k)) events) as (n & _ & Hn & ->).
    destruct n as [|n]; [specialize (Hn ltac:(discriminate)); lia|].
    exists (flat_map attemptSchedule (seq (S (S k)) n)).
    rewrite Hs. cbn [seq flat_map attemptSchedule]. unfold backoffMs.
    replace (Z.of_nat (S k) - 1)%Z with (Z.of_nat k) by lia.
    reflexivity.
  - intros n Hmax Hall. subst run. unfold pushWithRetry.
    replace (Z.to_nat (maxRetries + 1)) with (S n + 0)%nat by lia.
    destruct (RetryFacts.retryLoop_prefix debugLog folded fetches (S n) 0%nat
                ltac:(intros j Hj; apply Hall; lia)) as (events & -> & Hs).
    cbn [retryLoop fst snd]. split; [|exact Hs].
    destruct (Hall n) as [message Hm]; [lia|]. exists message. now rewrite Hm.
  - subst run. unfold pushWithRetry.
    destruct (RetryFacts.retryLoop_schedule debugLog folded fetches
                (Z.to_nat (maxRetries + 1)) 0%nat None []) as (n & Hn & _ & Hs).
    exists n. split; [exact Hn|exact Hs].
  - intros status text H. unfold retryMessage, isOk.
    replace ((200 <=? status)%Z && (status <=? 299)%Z) with true; [now split|].
    symmetry. apply andb_true_iff. split; [apply Z.leb_le|apply Z.leb_le]; lia.
  - intros status text H. split; [now apply RetryFacts.retryMessage_client_error|].
    unfold isOk. apply andb_false_iff. right. apply Z.leb_gt. lia.
  - intros status text H. unfold retryMessage, isOk.
    replace (status <=? 299)%Z with false by (symmetry; apply Z.leb_gt; lia).
    replace (status <? 500)%Z with false by (symmetry; apply Z.ltb_ge; lia).
    now rewrite !andb_false_r.
  - intros isError message H. unfold retryMessage. now rewrite H.
  - intros message H. unfold retryMessage. now rewrite H.
Qed.

Lemma pushWithRetry_policy_witness :
  fst (pushWithRetry false "main 2" twoFailuresThenOk 2) = Returned tt /\
  scheduleOf (snd (pushWithRetry false "main 2" twoFailuresThenOk 2)) =
    [PFetch 0; PSleep 1000; PFetch 1; PSleep 2000; PFetch 2] /\
  fst (pushWithRetry false "main 2" alwaysUnavailable 1) = Thrown "HTTP 503: unavailable".
Proof.
  destruct (pushWithRetry_policy false "main 2" twoFailuresThenOk 2) as (Hend & _).
  destruct (pushWithRetry_policy false "main 2" alwaysUnavailable 1) as (_ & _ & Hexh & _).
  destruct (Hend 2%nat) as [Hres Hsched].
  - cbn. lia.
  - intros j Hj. destruct j as [|[|j]]; [cbn; eauto|cbn; eauto|lia].
  - reflexivity.
  - split; [exact Hres|]. split; [exact Hsched|].
    destruct (Hexh 1%nat) as [(message & Hm & Hres') _].
    + reflexivity.
    + intros j Hj. cbn. eauto.
    + cbn in Hm. injection Hm as <-. exact Hres'.
Defined.

(** C5, as stated, fails: a transport-level failure that [fetch] throws
    as an [Error] whose message starts with "HTTP 4" is not retried,
    although two retries are configured. *)
Lemma pushWithRetry_transport_error_not_retried :
  pushWithRetry false "main 2" proxyRefuses 2 =
  (Thrown "HTTP 407 from proxy after CONNECT", [PFetch 0]).
Proof. reflexivity. Qed.


(** ** The window state machine *)

Module ProfilerFacts.
Import Profiler ProfilerTactics.

Section Runs.

Variable lc : string -> string -> Z.
Variable b64 : string -> string.
Variable env : Env.

Lemma endWindowAndPush_run m :
  endWindowAndPush lc b64 env m = (tt, mkMachine (st m) (endWindowWorld lc b64 env m)).
Proof.
  destruct m as [[cfg sess timer run ws sig] w].
  unfold endWindowWorld, endWindowEvents, requestOf, authHeaderOf. unfold_m. cbn.
  destruct sess as [sid|]; [|reflexivity]. cbn.
  destruct (post_error env (posts w)) as [e|]; cbn.
  - now rewrite <- app_assoc.
  - destruct (String.eqb (convertToFolded (cpu_result env (posts w))) ""); cbn.
    + destruct (debug cfg); cbn; destruct (heap_enabled cfg); cbn;
        rewrite <- ?app_assoc; reflexivity.
    + destruct (heap_enabled cfg); cbn; rewrite <- ?app_assoc; reflexivity.
Qed.

Lemma cancelTimer_run m : cancelTimer m = (tt, timerCancelled m).
Proof.
  destruct m as [[cfg sess timer run ws sig] w]. unfold timerCancelled. unfold_m. cbn.
  destruct timer; reflexivity.
Qed.

Lemma beginWindow_run schedule m :
  beginWindow env schedule m = (tt, windowBegun env schedule m).
Proof.
  destruct m as [[cfg sess timer run ws sig] w]. unfold windowBegun. unfold_m. cbn.
  destruct sess as [sid|]; [|reflexivity].
  destruct run; [|reflexivity]. cbn.
  destruct (post_error env (posts w)) as [e|]; destruct schedule; cbn;
    rewrite <- ?app_assoc; reflexivity.
Qed.

Lemma flushHeapWindow_resume_trace from until k m :
  trace (world (snd (flushHeapWindow_resume lc b64 env from until k m))) =
  (trace (world m) ++ heapResumeEvents lc b64 env from until k m)%list.
Proof.
  destruct m as [[cfg sess timer run ws sig] w].
  unfold heapResumeEvents, requestOf, authHeaderOf. unfold_m. cbn.
  destruct (post_error env k) as [e|]; [reflexivity|]. cbn.
  destruct sess as [sid|]; cbn.
  - destruct (post_error env (posts w)) as [e|]; cbn;
      destruct (String.eqb (convertHeapToFolded (heap_result env k)) ""); cbn;
      try destruct (debug cfg); cbn; rewrite <- ?app_assoc; cbn;
      rewrite ?app_nil_r; reflexivity.
  - destruct (String.eqb (convertHeapToFolded (heap_result env k)) ""); cbn;
      try destruct (debug cfg); cbn; rewrite <- ?app_assoc; cbn;
      rewrite ?app_nil_r; reflexivity.
Qed.

Lemma tag_run {T} extra (fn : M (Outcome T)) m :
  running (st m) = true -> is_Some (session (st m)) ->
  tag lc b64 env extra fn m =
  (fst (fn (tagEntered lc b64 env extra m)),
   tagLeft lc b64 env (labels (config (st m)))
     (snd (fn (tagEntered lc b64 env extra m)))).
Proof.
  intros Hrun [sid Hs].
  unfold tag. unfold mbind at 1. unfold M_bind, bind, getState at 1.
  rewrite Hrun, Hs. cbn [negb orb].
  rewrite bool_decide_true by eauto. cbn [negb].
  unfold mbind, M_bind, bind.
  rewrite cancelTimer_run, endWindowAndPush_run.
  unfold getState at 1, modify at 1.
  cbn [st world].
  rewrite beginWindow_run.
  assert (Hl : labels (config (st (timerCancelled m))) = labels (config (st m))).
  { unfold timerCancelled. destruct (pushTimer (st m)); reflexivity. }
  rewrite Hl.
  unfold tagEntered, tagLeft, setLabels. cbn [st world].
  destruct (fn _) as [r m5]. cbn [fst snd].
  rewrite cancelTimer_run, endWindowAndPush_run.
  unfold modify at 1, getState at 1. cbn [st world].
  unfold when_, mret, M_ret, ret.
  set (s7 := withConfig _ _).
  set (w7 := endWindowWorld lc b64 env (timerCancelled m5)).
  destruct (running s7) eqn:Hr7.
  - rewrite beginWindow_run. reflexivity.
  - f_equal. unfold windowBegun. cbn [st]. rewrite Hr7. cbn [negb].
    destruct (session s7); reflexivity.
Qed.

End Runs.

End ProfilerFacts.

Module ProfilerProps.
Import Profiler ProfilerTactics ProfilerFacts ProfilerExamples.

Section Props.

Variable lc : string -> string -> Z.
Variable b64 : string -> string.
Variable env : Env.

Lemma timerCancelled_config m : config (st (timerCancelled m)) = config (st m).
Proof. unfold timerCancelled. now destruct (pushTimer (st m)). Qed.

Lemma timerCancelled_pushTimer m : pushTimer (st (timerCancelled m)) = None.
Proof. unfold timerCancelled. now destruct (pushTimer (st m)) eqn:E. Qed.

Lemma timerCancelled_trace m :
  trace (world (timerCancelled m)) =
  (trace (world m) ++
   match pushTimer (st m) with Some t => [EvClearTimeout t] | None => [] end)%list.
Proof.
  unfold timerCancelled. destruct (pushTimer (st m)); cbn; [reflexivity|].
  now rewrite app_nil_r.
Qed.

Lemma endWindowWorld_trace m :
  trace (endWindowWorld lc b64 env m) =
  (trace (world m) ++ endWindowEvents lc b64 env m)%list.
Proof.
  unfold endWindowWorld, endWindowEvents.
  destruct (session (st m)); cbn; [reflexivity|now rewrite app_nil_r].
Qed.

Lemma windowBegun_config schedule m :
  config (st (windowBegun env schedule m)) = config (st m).
Proof.
  unfold windowBegun. destruct (session (st m)); [|reflexivity].
  destruct (running (st m)); [|reflexivity]. now destruct schedule.
Qed.

Lemma windowBegun_running schedule m :
  running (st (windowBegun env schedule m)) = running (st m).
Proof.
  unfold windowBegun. destruct (session (st m)); [|reflexivity].
  destruct (running (st m)) eqn:E; cbn [negb]; [|exact E]. now destruct schedule.
Qed.

Lemma windowBegun_false_pushTimer m :
  pushTimer (st (windowBegun env false m)) = pushTimer (st m).
Proof.
  unfold windowBegun. destruct (session (st m)); [|reflexivity].
  now destruct (running (st m)).
Qed.

Lemma windowBegun_trace schedule m :
  exists evs, trace (world (windowBegun env schedule m)) = (trace (world m) ++ evs)%list.
Proof.
  unfold windowBegun. destruct (session (st m)); [|exists []; now rewrite app_nil_r].
  destruct (running (st m)); [|exists []; now rewrite app_nil_r].
  destruct schedule; cbn; eauto.
Qed.

Lemma endWindowEvents_pushes m req :
  In req (pushesOf (endWindowEvents lc b64 env m)) ->
  req_type req = "cpu" /\
  url_name (req_url req) =
    encodePyroscopeName lc (appName (config (st m))) (labels (config (st m))).
Proof.
  unfold endWindowEvents.
  destruct (session (st m)); [|intros []].
  destruct (post_error env _); [intros []|].
  unfold pushesOf. cbn [flat_map app]. rewrite flat_map_app.
  destruct (String.eqb _ ""), (debug (config (st m))), (heap_enabled (config (st m)));
    cbn; intros H; intuition (subst; auto).
Qed.

Lemma heapResumeEvents_pushes from until k m req :
  In req (pushesOf (heapResumeEvents lc b64 env from until k m)) ->
  req_type req = "alloc_space" /\
  url_sampleRate (req_url req) = 1%float /\
  url_name (req_url req) =
    encodePyroscopeName lc (appName (config (st m))) (labels (config (st m))).
Proof.
  unfold heapResumeEvents.
  destruct (post_error env k); [intros []|].
  unfold pushesOf. rewrite flat_map_app.
  destruct (session (st m)); [destruct (post_error env _)|];
  destruct (String.eqb _ ""), (debug (config (st m))); cbn;
    intros H; intuition (subst; auto).
Qed.

Lemma start_returns m m' :
  running (st m) = false ->
  start env m = (Returned tt, m') ->
  running (st m') = true /\ is_Some (session (st m')) /\
  connects (world m') = S (connects (world m)).
Proof.
  destruct m as [[cfg sess timer run ws sig] w]. cbn [st running].
  intros -> H. revert H. unfold_m. cbn. split_cases;
    intros [= <-]; cbn; eauto.
Qed.

Lemma stop_stops m : running (st (snd (stop lc b64 env m))) = false.
Proof.
  unfold stop. unfold mbind at 1. unfold M_bind, bind, getState at 1.
  destruct (running (st m)) eqn:Hr; cbn [negb]; [|exact Hr].
  unfold mbind, M_bind, bind, modify at 1.
  rewrite cancelTimer_run, endWindowAndPush_run. unfold getState at 1.
  cbn [st world].
  assert (Hrun : running (st (timerCancelled (mkMachine (withRunning false (st m)) (world m)))) = false).
  { unfold timerCancelled. cbn. destruct (pushTimer (st m)); reflexivity. }
  destruct (session _); [|exact Hrun].
  unfold_m. cbn. split_cases; exact Hrun.
Qed.

End Props.

End ProfilerProps.

Import Profiler ProfilerTactics ProfilerFacts ProfilerProps ProfilerExamples.

Lemma startsWith_app p s : startsWith (p ++ s) p = true.
Proof.
  induction p as [|c p IH]; [reflexivity|].
  change (String c p ++ s) with (String c (p ++ s)).
  cbn [startsWith]. now rewrite Ascii.eqb_refl, IH.
Qed.

Lemma startsWith_refl s : startsWith s s = true.
Proof.
  induction s as [|c s IH]; [reflexivity|].
  cbn [startsWith]. now rewrite Ascii.eqb_refl, IH.
Qed.

Lemma startsWith_app2 p q s : startsWith (p ++ q ++ s) (p ++ q) = true.
Proof.
  induction p as [|c p IH]; [exact (startsWith_app q s)|].
  change (String c p ++ q ++ s) with (String c (p ++ q ++ s)).
  change (String c p ++ q) with (String c (p ++ q)).
  cbn [startsWith]. now rewrite Ascii.eqb_refl, IH.
Qed.

Lemma encodePyroscopeName_cpu lc app (ls : JsMap.t string) :
  startsWith (encodePyroscopeName lc app ls) (app ++ ".cpu") = true.
Proof.
  unfold encodePyroscopeName. destruct (length (JsMap.entries ls) =? 0)%nat.
  - apply startsWith_refl.
  - exact (startsWith_app2 app ".cpu"
             ("{" ++ join "," (map encodeLabel (sortEntries lc (JsMap.entries ls))) ++ "}")).
Qed.

(** C2 (the code evaluated): the name of a heap push is
    [encodePyroscopeName(appName, labels)], the very name of a CPU
    push under the same configuration, and it starts with
    "appName.cpu": the stream type ["alloc_space"] that
    [flushHeapWindow] passes on does not reach the name.  The weight
    of a heap push is the fixed sample rate 1. *)
Theorem heap_push_name_is_cpu_name :
  (forall lc app (ls : JsMap.t string),
     startsWith (encodePyroscopeName lc app ls) (app ++ ".cpu") = true) /\
  (forall lc b64 env from until k m,
     trace (world (snd (flushHeapWindow_resume lc b64 env from until k m))) =
       (trace (world m) ++ heapResumeEvents lc b64 env from until k m)%list /\
     Forall (fun req =>
               req_type req = "alloc_space" /\
               url_sampleRate (req_url req) = 1%float /\
               url_name (req_url req) =
                 encodePyroscopeName lc (appName (config (st m))) (labels (config (st m))) /\
               url_name (req_url req) =
                 url_name (req_url (requestOf lc b64 (config (st m)) "cpu" "" from until 100%float)))
       (pushesOf (heapResumeEvents lc b64 env from until k m))) /\
  pushesOf (heapResumeEvents codeUnitCompare noBase64 testEnv 100 115 1
              (startedMachine heapConfig)) =
    [mkPushRequest "alloc_space"
       (mkIngestUrl "http://localhost:4040"
          "test-app.cpu{hostname=web-1,service_name=test-app}"
          100 115 1%float "nodespy" "folded")
       None "allocHeavy (alloc.ts:5) 1024"].
Proof.
  split; [|split].
  - apply encodePyroscopeName_cpu.
  - intros lc b64 env from until k m. split; [apply flushHeapWindow_resume_trace|].
    apply Forall_forall. intros req Hin. apply list_elem_of_In in Hin.
    destruct (heapResumeEvents_pushes lc b64 env from until k m req Hin) as (Ht & Hr & Hn).
    repeat split; assumption.
  - vm_compute. reflexivity.
Qed.

(** C9: [start()] on a running profiler returns at once: it logs a
    warning and leaves the instance as it is, with no session
    connected and nothing posted.  [stop()] on a stopped profiler
    returns at once and changes nothing at all.  After a [start()]
    that succeeded the profiler is running, and after any [stop()] it
    is stopped: so a second consecutive [start()] connects no session
    and enables no sampler, and a second consecutive [stop()]
    disconnects nothing and flushes nothing. *)
Theorem start_stop_idempotent :
  (forall env m, running (st m) = true ->
     start env m =
     (Returned tt,
      mkMachine (st m)
        (mkWorld (trace (world m) ++ [EvConsole LWarn MsgAlreadyRunning])
           (posts (world m)) (clockReads (world m)) (sessionsCreated (world m))
           (timersCreated (world m)) (connects (world m)) (disconnects (world m))))) /\
  (forall lc b64 env m, running (st m) = false -> stop lc b64 env m = (tt, m)) /\
  (forall env m m1, running (st m) = false -> start env m = (Returned tt, m1) ->
     connects (world m1) = S (connects (world m)) /\
     let again := start env m1 in
     fst again = Returned tt /\
     st (snd again) = st m1 /\
     connects (world (snd again)) = connects (world m1) /\
     posts (world (snd again)) = posts (world m1) /\
     trace (world (snd again)) =
       (trace (world m1) ++ [EvConsole LWarn MsgAlreadyRunning])%list) /\
  (forall lc b64 env m,
     let m1 := snd (stop lc b64 env m) in
     running (st m1) = false /\ stop lc b64 env m1 = (tt, m1)).
Proof.
  assert (Hstart : forall env m, running (st m) = true ->
     start env m =
     (Returned tt,
      mkMachine (st m)
        (mkWorld (trace (world m) ++ [EvConsole LWarn MsgAlreadyRunning])
           (posts (world m)) (clockReads (world m)) (sessionsCreated (world m))
           (timersCreated (world m)) (connects (world m)) (disconnects (world m))))).
  { intros env m H. unfold_m. now rewrite H. }
  assert (Hstop : forall lc b64 env m, running (st m) = false -> stop lc b64 env m = (tt, m)).
  { intros lc b64 env m H. unfold_m. now rewrite H. }
  split; [exact Hstart|]. split; [exact Hstop|]. split.
  - intros env m m1 Hidle Hrun.
    destruct (start_returns env m m1 Hidle Hrun) as (Hr & _ & Hc).
    split; [exact Hc|]. cbn zeta. rewrite (Hstart env m1 Hr). cbn. repeat split.
  - intros lc b64 env m m1. subst m1.
    pose proof (stop_stops lc b64 env m) as Hr. split; [exact Hr|].
    now apply Hstop.
Qed.

Lemma start_stop_idempotent_witness :
  fst (start testEnv (startedMachine baseConfig)) = Returned tt /\
  st (snd (start testEnv (startedMachine baseConfig))) = st (startedMachine baseConfig) /\
  connects (world (snd (start testEnv (startedMachine baseConfig)))) = 1%nat /\
  stop codeUnitCompare noBase64 testEnv (idleMachine baseConfig) = (tt, idleMachine baseConfig).
Proof.
  destruct start_stop_idempotent as (_ & Hstop & Hagain & _).
  destruct (Hagain testEnv (idleMachine baseConfig) (startedMachine baseConfig))
    as (Hc & Hres & Hst & Hconn & _).
  - vm_compute. reflexivity.
  - vm_compute. reflexivity.
  - split; [exact Hres|]. split; [exact Hst|]. split.
    + rewrite Hconn. exact Hc.
    + apply Hstop. vm_compute. reflexivity.
Defined.

(** What [tag(extraLabels, fn)] does in step with its own control
    flow, on a running profiler with a session: it runs [fn] under the
    pre-tag labels overlaid with [extraLabels], with no timer pending.
    Whatever [fn] does and whether it returns or throws: its result or
    exception is the outcome of [tag]; a timer that it leaves set is
    cleared; the pushes issued inside the closing flush, which are the
    CPU pushes, are encoded under the labels in force when [fn] ends,
    the overlaid ones when [fn] leaves the labels alone; and the label
    set is restored to exactly the pre-tag label set, so that every
    push issued inside the flush of the next window is encoded under
    the pre-tag labels.  The cleanup is the same on both exits and
    runs in this order: clear the timer, flush the window, restore the
    labels, open the next window with its timer.  The heap push of a
    window is not issued inside the flush; it is followed separately
    below. *)
Theorem tag_restores_labels :
  forall lc b64 env (T : Type) (extra : JsMap.t string) (fn : M (Outcome T)) (m : Machine),
  running (st m) = true -> is_Some (session (st m)) ->
  let saved := labels (config (st m)) in
  let overlaid := JsMap.spread saved extra in
  let entered := tagEntered lc b64 env extra m in
  let afterFn := snd (fn entered) in
  let left := snd (tag lc b64 env extra fn m) in
  labels (config (st entered)) = overlaid /\
  pushTimer (st entered) = None /\
  fst (tag lc b64 env extra fn m) = fst (fn entered) /\
  labels (config (st left)) = saved /\
  left =
    windowBegun env true
      (setLabels saved
         (mkMachine (st (timerCancelled afterFn))
            (endWindowWorld lc b64 env (timerCancelled afterFn)))) /\
  (forall t, pushTimer (st afterFn) = Some t -> In (EvClearTimeout t) (trace (world left))) /\
  (exists resumed,
     trace (world left) =
     (trace (world (timerCancelled afterFn))
        ++ endWindowEvents lc b64 env (timerCancelled afterFn) ++ resumed)%list) /\
  Forall (fun req =>
            url_name (req_url req) =
            encodePyroscopeName lc (appName (config (st afterFn)))
              (labels (config (st afterFn))))
    (pushesOf (endWindowEvents lc b64 env (timerCancelled afterFn))) /\
  (labels (config (st afterFn)) = labels (config (st entered)) ->
   Forall (fun req =>
             url_name (req_url req) =
             encodePyroscopeName lc (appName (config (st afterFn))) overlaid)
     (pushesOf (endWindowEvents lc b64 env (timerCancelled afterFn)))) /\
  Forall (fun req =>
            url_name (req_url req) =
            encodePyroscopeName lc (appName (config (st left))) saved)
    (pushesOf (endWindowEvents lc b64 env left)).
Proof.
  intros lc b64 env T extra fn m Hrun Hs saved overlaid entered afterFn left.
  assert (Hentered : labels (config (st entered)) = overlaid).
  { subst entered. unfold tagEntered. rewrite windowBegun_config. reflexivity. }
  assert (Hleft : left = tagLeft lc b64 env saved afterFn).
  { subst left. rewrite tag_run by assumption. reflexivity. }
  assert (Hlabels : labels (config (st left)) = saved).
  { rewrite Hleft. unfold tagLeft. rewrite windowBegun_config. reflexivity. }
  assert (Htrace : exists resumed,
     trace (world left) =
     (trace (world (timerCancelled afterFn))
        ++ endWindowEvents lc b64 env (timerCancelled afterFn) ++ resumed)%list).
  { rewrite Hleft. unfold tagLeft.
    destruct (windowBegun_trace env true
                (setLabels saved
                   (mkMachine (st (timerCancelled afterFn))
                      (endWindowWorld lc b64 env (timerCancelled afterFn)))))
      as [evs ->].
    exists evs. cbn [setLabels world]. rewrite endWindowWorld_trace.
    now rewrite <- app_assoc. }
  assert (Hnames : forall m0,
     Forall (fun req =>
               url_name (req_url req) =
               encodePyroscopeName lc (appName (config (st m0))) (labels (config (st m0))))
       (pushesOf (endWindowEvents lc b64 env m0))).
  { intros m0. apply Forall_forall. intros req Hin. apply list_elem_of_In in Hin.
    now destruct (endWindowEvents_pushes lc b64 env m0 req Hin). }
  split; [exact Hentered|]. split.
  { subst entered. unfold tagEntered.
    rewrite windowBegun_false_pushTimer. cbn [setLabels st withConfig pushTimer].
    apply timerCancelled_pushTimer. }
  split; [subst left; rewrite tag_run by assumption; reflexivity|].
  split; [exact Hlabels|]. split; [exact Hleft|]. split.
  { intros t Ht. destruct Htrace as [resumed ->].
    rewrite timerCancelled_trace, Ht.
    apply in_or_app. left. apply in_or_app. right. now left. }
  split; [exact Htrace|]. split.
  { pose proof (Hnames (timerCancelled afterFn)) as H.
    now rewrite timerCancelled_config in H. }
  split.
  { intros Hkeep. pose proof (Hnames (timerCancelled afterFn)) as H.
    rewrite timerCancelled_config, Hkeep, Hentered in H. exact H. }
  pose proof (Hnames left) as H. now rewrite Hlabels in H.
Qed.

Lemma tag_restores_labels_witness :
  fst (tag codeUnitCompare noBase64 testEnv routeLabel throwing (startedMachine baseConfig))
    = Thrown "boom" /\
  labels (config (st (snd (tag codeUnitCompare noBase64 testEnv routeLabel throwing
                             (startedMachine baseConfig)))))
    = labels baseConfig.
Proof.
  destruct (tag_restores_labels codeUnitCompare noBase64 testEnv Z routeLabel throwing
              (startedMachine baseConfig)) as (_ & _ & Hres & Hlabels & _).
  - vm_compute. reflexivity.
  - vm_compute. eauto.
  - split; [exact Hres|exact Hlabels].
Defined.

(** The pushes of a tagged run in the test setting: the window before
    the tag under the default labels, the tagged window with
    [route=api] added. *)
Example tag_pushes_in_order :
  map (fun req => url_name (req_url req))
    (pushesOf (trace (world (snd (tag codeUnitCompare noBase64 testEnv routeLabel throwing
                                    (startedMachine baseConfig)))))) =
  ["test-app.cpu{hostname=web-1,service_name=test-app}";
   "test-app.cpu{hostname=web-1,route=api,service_name=test-app}"].
Proof. vm_compute. reflexivity. Qed.

(** With heap sampling on, closing the tagged window posts
    [HeapProfiler.stopSampling] and leaves the rest of
    [flushHeapWindow] pending.  That rest builds its request when it
    gets there: resumed on the machine that [tag] leaves behind, it
    names its push by the labels in force then. *)
Example heap_flush_names_at_resume :
  let left :=
    snd (tag codeUnitCompare noBase64 testEnv routeLabel throwing (startedMachine heapConfig)) in
  In (EvHeapFlushPending 1700000002 1700000003 9) (trace (world left)) /\
  map (fun req => (req_type req, url_name (req_url req)))
    (pushesOf (heapResumeEvents codeUnitCompare noBase64 testEnv 1700000002 1700000003 9 left)) =
  [("alloc_space", "test-app.cpu{hostname=web-1,service_name=test-app}")].
Proof.
  split; [|vm_compute; reflexivity].
  vm_compute. do 17 right. left. reflexivity.
Qed.

(** ** Further properties of the codec *)

Lemma firstOccurrences_In x l : In x (firstOccurrences l) <-> In x l.
Proof.
  induction l as [|y l IH]; cbn [firstOccurrences In]; [tauto|].
  rewrite List.filter_In, IH, negb_true_iff, String.eqb_neq.
  destruct (string_dec y x) as [->|Hne]; [tauto|].
  split; [tauto|]. intros [?|?]; [tauto|]. right. split; [assumption|congruence].
Qed.

Lemma firstOccurrences_snoc l x :
  firstOccurrences (l ++ [x]) =
  if decide (x ∈ l) then firstOccurrences l else (firstOccurrences l ++ [x])%list.
Proof.
  induction l as [|y l IH]; cbn [firstOccurrences app].
  - destruct (decide (x ∈ [])) as [H|_]; [|reflexivity]. now apply elem_of_nil in H.
  - rewrite IH. destruct (string_dec y x) as [->|Hne].
    + destruct (decide (x ∈ x :: l)) as [_|H]; [|exfalso; apply H; left].
      destruct (decide (x ∈ l)); [reflexivity|].
      rewrite List.filter_app. cbn [List.filter]. rewrite String.eqb_refl. cbn [negb].
      now rewrite app_nil_r.
    + destruct (decide (x ∈ l)) as [Hin|Hnin].
      * destruct (decide (x ∈ y :: l)) as [_|H]; [reflexivity|].
        exfalso. apply H. now right.
      * destruct (decide (x ∈ y :: l)) as [H|_].
        { apply elem_of_cons in H as [?|?]; congruence. }
        rewrite List.filter_app. cbn [List.filter app].
        replace (String.eqb x y) with false
          by (symmetry; apply String.eqb_neq; congruence).
        reflexivity.
Qed.

Lemma count_occ_pos_In (l : list string) x :
  (0 < count_occ string_dec l x)%nat <-> In x l.
Proof. symmetry. apply count_occ_In. Qed.

(** The keys of the counter, in order, are the stacks in the order of
    their first sample. *)
Lemma stackCounts_keys nm pm smpls :
  map fst (foldl (countSample nm pm) JsMap.empty smpls) =
  firstOccurrences (keysOf nm pm smpls).
Proof.
  induction smpls as [|leaf smpls IH] using rev_ind; [reflexivity|].
  rewrite foldl_app, keysOf_snoc. cbn [foldl].
  destruct (stackCounts_invariant nm pm smpls) as [_ Hget].
  set (m := foldl (countSample nm pm) JsMap.empty smpls) in *.
  destruct (sampleFrames nm pm leaf) as [|f fs] eqn:Hfs.
  - rewrite countSample_empty by assumption. now rewrite app_nil_r.
  - rewrite countSample_key by (rewrite Hfs; discriminate). rewrite Hfs.
    set (k := join ";" (f :: fs)).
    rewrite JsMapFacts.keys_set, firstOccurrences_snoc, Hget, IH.
    destruct (decide (k ∈ keysOf nm pm smpls)) as [Hin|Hnin].
    + apply list_elem_of_In, count_occ_pos_In in Hin.
      destruct (count_occ string_dec (keysOf nm pm smpls) k); [lia|reflexivity].
    + rewrite list_elem_of_In, <- count_occ_pos_In in Hnin.
      destruct (count_occ string_dec (keysOf nm pm smpls) k); [reflexivity|lia].
Qed.

Lemma entries_of_keys {V} (m : JsMap.t V) (f : string -> V) :
  NoDup (map fst m) ->
  (forall k, In k (map fst m) -> JsMap.get k m = Some (f k)) ->
  m = map (fun k => (k, f k)) (map fst m).
Proof.
  induction m as [|[k v] m IH]; [reflexivity|].
  cbn [map fst]. intros Hnd Hget. apply NoDup_cons in Hnd as [Hk Hnd].
  f_equal.
  - specialize (Hget k (or_introl eq_refl)). cbn [JsMap.get] in Hget.
    rewrite String.eqb_refl in Hget. congruence.
  - apply IH; [exact Hnd|]. intros k' Hin.
    specialize (Hget k' (or_intror Hin)). cbn [JsMap.get] in Hget.
    destruct (String.eqb_spec k k') as [->|_]; [|exact Hget].
    exfalso. apply Hk. now apply list_elem_of_In.
Qed.

Lemma stackCountsOf_closed_form ns smpls :
  stackCountsOf ns smpls =
  map (fun k => (k, count_occ string_dec (stackKeys ns smpls) k))
    (firstOccurrences (stackKeys ns smpls)).
Proof.
  unfold stackCountsOf, stackKeys.
  destruct (stackCounts_invariant (buildNodeMap ns) (buildParentMap ns) smpls) as [Hnd Hget].
  rewrite <- stackCounts_keys.
  apply entries_of_keys; [exact Hnd|].
  intros k Hin. rewrite Hget.
  rewrite stackCounts_keys, firstOccurrences_In in Hin.
  apply count_occ_pos_In in Hin.
  destruct (count_occ _ _ k); [lia|reflexivity].
Qed.

(** X1: the lines [convertToFolded] emits come in the order in which
    their stacks first occur in the sample sequence, because the
    counter is a [Map] and keeps insertion order.  The whole output is
    determined by the sequence of stacks of the samples that are not
    discarded: one line per distinct stack, at the place of its first
    occurrence, with the number of its occurrences. *)
Theorem convertToFolded_line_order :
  forall profile smpls, samples profile = Some smpls ->
  let keys := stackKeys (nodes profile) smpls in
  map fst (JsMap.entries (stackCountsOf (nodes profile) smpls)) = firstOccurrences keys /\
  convertToFolded profile =
  join newline
    (map (fun stack => stack ++ " " ++ showNat (count_occ string_dec keys stack))
       (firstOccurrences keys)).
Proof.
  intros profile smpls Hs keys. subst keys. split.
  - unfold JsMap.entries. rewrite stackCountsOf_closed_form, map_map. cbn [fst].
    apply map_id.
  - rewrite (convertToFolded_Some _ _ Hs). unfold JsMap.entries.
    rewrite stackCountsOf_closed_form, map_map. reflexivity.
Qed.

Lemma convertToFolded_line_order_witness :
  let profile := chainProfile 1 2 3 4 0%float 1000000%float [4; 3; 4] in
  map fst (JsMap.entries (stackCountsOf (nodes profile) [4; 3; 4])) = ["A;B;C"; "A;B"] /\
  convertToFolded profile = join newline ["A;B;C 2"; "A;B 1"].
Proof.
  destruct (convertToFolded_line_order
              (chainProfile 1 2 3 4 0%float 1000000%float [4; 3; 4]) [4; 3; 4] eq_refl)
    as [Hkeys Hout].
  split; [rewrite Hkeys|rewrite Hout]; vm_compute; reflexivity.
Defined.

Lemma totalWeight_cons k v (m : JsMap.t nat) :
  totalWeight ((k, v) :: m) = (v + totalWeight m)%nat.
Proof. reflexivity. Qed.

Lemma totalWeight_bump k (m : JsMap.t nat) :
  totalWeight (JsMap.set k (default 0%nat (JsMap.get k m) + 1)%nat m) = S (totalWeight m).
Proof.
  induction m as [|[k' v'] m IH]; cbn [JsMap.set JsMap.get].
  - cbn. lia.
  - destruct (String.eqb k' k); rewrite !totalWeight_cons.
    + cbn [default]. unfold id. lia.
    + rewrite IH. lia.
Qed.

Lemma keysOf_length nm pm smpls : (length (keysOf nm pm smpls) <= length smpls)%nat.
Proof.
  unfold keysOf. rewrite length_map.
  etransitivity; [apply List.filter_length_le|]. now rewrite length_map.
Qed.

Lemma stackCounts_totalWeight nm pm smpls :
  totalWeight (foldl (countSample nm pm) JsMap.empty smpls) = length (keysOf nm pm smpls).
Proof.
  induction smpls as [|leaf smpls IH] using rev_ind; [reflexivity|].
  rewrite foldl_app, keysOf_snoc, length_app. cbn [foldl].
  destruct (sampleFrames nm pm leaf) as [|f fs] eqn:Hfs.
  - rewrite countSample_empty by assumption. cbn [length]. lia.
  - rewrite countSample_key by (rewrite Hfs; discriminate).
    rewrite totalWeight_bump, IH. cbn [length]. lia.
Qed.

(** X2: the counts of all the lines [convertToFolded] emits add up to
    the number of samples whose upward walk passes at least one visible
    frame.  No sample is counted twice and none is counted that was
    discarded, so the total never exceeds the number of samples. *)
Theorem convertToFolded_total_weight :
  forall ns smpls,
  totalWeight (stackCountsOf ns smpls) =
    length (List.filter (fun leaf => negb (length (visibleVisited ns leaf) =? 0)%nat) smpls) /\
  (totalWeight (stackCountsOf ns smpls) <= length smpls)%nat.
Proof.
  intros ns smpls. unfold stackCountsOf. rewrite stackCounts_totalWeight. split.
  - unfold keysOf. rewrite length_map.
    induction smpls as [|leaf smpls IH]; [reflexivity|].
    cbn [map List.filter]. rewrite sampleFrames_visited, length_map, List.filter_rev, length_rev.
    fold (visibleVisited ns leaf).
    destruct (negb _); cbn [length]; now rewrite IH.
  - apply keysOf_length.
Qed.

Lemma weightOf_count nm pm smpls stack :
  weightOf stack (foldl (countSample nm pm) JsMap.empty smpls) =
  count_occ string_dec (keysOf nm pm smpls) stack.
Proof.
  unfold weightOf. destruct (stackCounts_invariant nm pm smpls) as [_ ->].
  now destruct (count_occ _ _ _).
Qed.

Lemma keysOf_cons nm pm leaf smpls :
  keysOf nm pm (leaf :: smpls) = (keysOf nm pm [leaf] ++ keysOf nm pm smpls)%list.
Proof. exact (keysOf_app nm pm [leaf] smpls). Qed.

Lemma keysOf_Permutation nm pm l1 l2 :
  Permutation l1 l2 -> Permutation (keysOf nm pm l1) (keysOf nm pm l2).
Proof.
  intros H. induction H as [|x l l' _ IH|x y l|l l' l'' _ IH1 _ IH2].
  - apply Permutation_refl.
  - rewrite (keysOf_cons nm pm x l), (keysOf_cons nm pm x l').
    apply Permutation_app_head. exact IH.
  - rewrite (keysOf_cons nm pm y (x :: l)), (keysOf_cons nm pm x l).
    rewrite (keysOf_cons nm pm x (y :: l)), (keysOf_cons nm pm y l).
    rewrite !app_assoc. apply Permutation_app_tail. apply Permutation_app_comm.
  - exact (Permutation_trans IH1 IH2).
Qed.

Lemma count_occ_Permutation (l1 l2 : list string) x :
  Permutation l1 l2 -> count_occ string_dec l1 x = count_occ string_dec l2 x.
Proof.
  induction 1; cbn [count_occ]; try congruence.
  - destruct (string_dec _ _); congruence.
  - destruct (string_dec _ _), (string_dec _ _); reflexivity.
Qed.

(** X3: the count of a stack over a sample sequence [l1 ++ l2] is its
    count over [l1] plus its count over [l2].  Reordering the samples
    changes no count: the emitted lines are the same up to their
    order. *)
Theorem convertToFolded_counts_additive :
  (forall ns l1 l2 stack,
     weightOf stack (stackCountsOf ns (l1 ++ l2)%list) =
     (weightOf stack (stackCountsOf ns l1) + weightOf stack (stackCountsOf ns l2))%nat) /\
  (forall ns l1 l2, Permutation l1 l2 ->
     (forall stack,
        JsMap.get stack (stackCountsOf ns l1) = JsMap.get stack (stackCountsOf ns l2)) /\
     Permutation (map foldedLine (JsMap.entries (stackCountsOf ns l1)))
       (map foldedLine (JsMap.entries (stackCountsOf ns l2)))).
Proof.
  split.
  - intros ns l1 l2 stack. unfold stackCountsOf.
    rewrite !weightOf_count, keysOf_app. apply count_occ_app.
  - intros ns l1 l2 Hp.
    assert (Hget : forall stack,
      JsMap.get stack (stackCountsOf ns l1) = JsMap.get stack (stackCountsOf ns l2)).
    { intros stack. unfold stackCountsOf.
      destruct (stackCounts_invariant (buildNodeMap ns) (buildParentMap ns) l1) as [_ ->].
      destruct (stackCounts_invariant (buildNodeMap ns) (buildParentMap ns) l2) as [_ ->].
      now rewrite (count_occ_Permutation _ _ stack (keysOf_Permutation _ _ _ _ Hp)). }
    split; [exact Hget|].
    apply Permutation_map. unfold JsMap.entries.
    destruct (stackCounts_invariant (buildNodeMap ns) (buildParentMap ns) l1) as [Hnd1 _].
    destruct (stackCounts_invariant (buildNodeMap ns) (buildParentMap ns) l2) as [Hnd2 _].
    fold (stackCountsOf ns l1) in Hnd1. fold (stackCountsOf ns l2) in Hnd2.
    apply NoDup_Permutation.
    + eapply NoDup_fmap_1. exact Hnd1.
    + eapply NoDup_fmap_1. exact Hnd2.
    + intros [k v]. rewrite !list_elem_of_In, !JsMapFacts.In_get by assumption.
      now rewrite Hget.
Qed.

Lemma join_nil_inv sep (ls : list string) :
  Forall (fun l => l <> "") ls -> join sep ls = "" -> ls = [].
Proof.
  destruct ls as [|l ls]; [reflexivity|].
  intros Hf. apply Forall_cons in Hf as [Hl _].
  destruct ls as [|l' ls]; cbn [join]; [congruence|].
  destruct l; [congruence|discriminate].
Qed.

Lemma foldedLine_nonempty e : foldedLine e <> "".
Proof.
  unfold foldedLine. destruct (fst e); discriminate.
Qed.

Lemma sampleFrames_nil_iff ns leaf :
  sampleFrames (buildNodeMap ns) (buildParentMap ns) leaf = [] <-> visibleVisited ns leaf = [].
Proof.
  rewrite sampleFrames_visited, List.filter_rev. unfold visibleVisited.
  destruct (List.filter _ _) as [|n l]; [easy|].
  cbn [rev]. split; [|discriminate].
  intros H. apply (f_equal (@length _)) in H. rewrite length_map, length_app in H.
  cbn in H. lia.
Qed.

(** X4: [convertToFolded] returns the empty string exactly when the
    sample list is missing or no sample's upward walk passes a visible
    frame (this includes the empty sample list).  This is the case in
    which [endWindowAndPush] skips the push. *)
Theorem convertToFolded_empty_iff :
  forall profile,
  convertToFolded profile = "" <->
  match samples profile with
  | None => True
  | Some smpls => Forall (fun leaf => visibleVisited (nodes profile) leaf = []) smpls
  end.
Proof.
  intros profile. destruct (samples profile) as [smpls|] eqn:Hs.
  - rewrite (convertToFolded_Some _ _ Hs). unfold JsMap.entries.
    rewrite stackCountsOf_closed_form, map_map.
    split.
    + intros H. apply join_nil_inv in H.
      2:{ apply Forall_forall. intros l Hl. apply list_elem_of_In, in_map_iff in Hl.
          destruct Hl as (k & <- & _). apply foldedLine_nonempty. }
      apply map_eq_nil in H.
      assert (Hk : stackKeys (nodes profile) smpls = []).
      { destruct (stackKeys (nodes profile) smpls) as [|k ks]; [reflexivity|].
        cbn [firstOccurrences] in H. discriminate. }
      apply Forall_forall. intros leaf Hin. apply list_elem_of_In in Hin.
      apply sampleFrames_nil_iff.
      destruct (sampleFrames (buildNodeMap (nodes profile)) (buildParentMap (nodes profile)) leaf)
        as [|f fs] eqn:Hf; [reflexivity|exfalso].
      assert (Hin' : In (join ";" (f :: fs)) (stackKeys (nodes profile) smpls)).
      { unfold stackKeys, keysOf. apply in_map, List.filter_In. split.
        - rewrite <- Hf. now apply in_map.
        - reflexivity. }
      now rewrite Hk in Hin'.
    + intros Hall.
      replace (stackKeys (nodes profile) smpls) with (@nil string); [reflexivity|].
      symmetry. unfold stackKeys, keysOf. clear Hs.
      induction Hall as [|leaf smpls' Hleaf _ IH]; [reflexivity|].
      cbn [map List.filter]. apply sampleFrames_nil_iff in Hleaf. rewrite Hleaf.
      cbn [length Nat.eqb negb]. exact IH.
  - unfold convertToFolded. rewrite Hs. easy.
Qed.

Lemma chainPath_snoc above node :
  chainPath (above ++ [node]) = heapPath (chainPath above) node.
Proof.
  unfold chainPath, heapPath. rewrite List.filter_app, map_app. cbn [List.filter].
  destruct (visibleFrame (heap_callFrame node)); cbn [map]; [reflexivity|apply app_nil_r].
Qed.

Lemma heapChains_unfold node above :
  heapChains node above =
  (node, (above ++ [node])%list)
    :: flat_map (fun child => heapChains child (above ++ [node])%list) (heap_children node).
Proof. destruct node; reflexivity. Qed.

Lemma heapNodes_unfold node :
  heapNodes node = node :: flat_map heapNodes (heap_children node).
Proof. destruct node; reflexivity. Qed.

Lemma heapVisits_chains node : forall above,
  heapVisits node (chainPath above) =
  map (fun v => (fst v, chainPath (snd v))) (heapChains node above).
Proof.
  induction node as [cf sz i cs IH] using HeapProfileNode_nested_ind.
  intros above. rewrite heapVisits_unfold, heapChains_unfold.
  set (node := mkHeapNode cf sz i cs).
  cbn [map fst snd heap_children node]. rewrite <- chainPath_snoc. f_equal.
  generalize (above ++ [node])%list. intros chain.
  induction IH as [|c cs' Hc _ IHcs]; [reflexivity|].
  cbn [flat_map]. now rewrite map_app, Hc, IHcs.
Qed.

Lemma heapChains_nodes node : forall above,
  map fst (heapChains node above) = heapNodes node.
Proof.
  induction node as [cf sz i cs IH] using HeapProfileNode_nested_ind.
  intros above. rewrite heapChains_unfold, heapNodes_unfold.
  set (node := mkHeapNode cf sz i cs).
  cbn [map fst heap_children node]. f_equal.
  generalize (above ++ [node])%list. intros chain.
  induction IH as [|c cs' Hc _ IHcs]; [reflexivity|].
  cbn [flat_map]. now rewrite map_app, Hc, IHcs.
Qed.

Lemma heapChains_shape node : forall above,
  Forall (fun v => exists between, snd v = (above ++ between ++ [fst v])%list)
    (heapChains node above).
Proof.
  induction node as [cf sz i cs IH] using HeapProfileNode_nested_ind.
  intros above. rewrite heapChains_unfold.
  set (node := mkHeapNode cf sz i cs).
  apply Forall_cons. split; [exists []; reflexivity|].
  cbn [heap_children node]. clearbody node.
  induction IH as [|c cs' Hc _ IHcs]; [apply Forall_nil_2|].
  cbn [flat_map]. apply Forall_app. split; [|exact IHcs].
  specialize (Hc (above ++ [node])%list).
  eapply Forall_impl; [exact Hc|].
  intros v [between Hv]. exists (node :: between).
  rewrite Hv, <- app_assoc. reflexivity.
Qed.

Lemma chainPath_nil_iff chain :
  negb (length (chainPath chain) =? 0)%nat =
  existsb (fun n => visibleFrame (heap_callFrame n)) chain.
Proof.
  unfold chainPath. rewrite length_map.
  induction chain as [|n chain IH]; [reflexivity|].
  cbn [List.filter existsb]. destruct (visibleFrame (heap_callFrame n)); [reflexivity|exact IH].
Qed.

(** X5: in [convertHeapToFolded] the path of a node is the list of the
    labels of the visible frames on the chain of nodes from the head
    down to the node itself, head first.  A root or skipped node in the
    middle of the chain only adds nothing: it does not cut the path
    off.  A line is emitted for a node exactly when its self size is
    positive and some node of its chain is visible, so a tree without
    any visible node converts to the empty string whatever its self
    sizes are. *)
Theorem convertHeapToFolded_chains :
  (forall profile,
     convertHeapToFolded profile =
     join newline
       (map (fun v => join ";" (chainPath (snd v)) ++ " " ++ showZ (selfSize (fst v)))
          (List.filter
             (fun v => (0 <? selfSize (fst v))%Z
                       && existsb (fun n => visibleFrame (heap_callFrame n)) (snd v))
             (heapChains (head profile) [])))) /\
  (forall node above,
     map fst (heapChains node above) = heapNodes node /\
     Forall (fun v => exists between, snd v = (above ++ between ++ [fst v])%list)
       (heapChains node above)) /\
  (forall profile,
     Forall (fun n => visibleFrame (heap_callFrame n) = false) (heapNodes (head profile)) ->
     convertHeapToFolded profile = "").
Proof.
  assert (Hform : forall profile,
     convertHeapToFolded profile =
     join newline
       (map (fun v => join ";" (chainPath (snd v)) ++ " " ++ showZ (selfSize (fst v)))
          (List.filter
             (fun v => (0 <? selfSize (fst v))%Z
                       && existsb (fun n => visibleFrame (heap_callFrame n)) (snd v))
             (heapChains (head profile) [])))).
  { intros profile. unfold convertHeapToFolded. rewrite walkHeap_visits. cbn [app].
    change (@nil string) with (chainPath []). rewrite heapVisits_chains.
    f_equal. induction (heapChains (head profile) []) as [|[n chain] l IH]; [reflexivity|].
    cbn [map List.filter fst snd]. unfold heapEmits at 1. cbn [fst snd].
    rewrite chainPath_nil_iff.
    destruct (_ && _); cbn [map]; [|exact IH].
    rewrite IH. reflexivity. }
  split; [exact Hform|]. split.
  - intros node above. split; [apply heapChains_nodes|apply heapChains_shape].
  - intros profile Hinv. rewrite Hform.
    replace (List.filter _ _) with (@nil (HeapProfileNode * list HeapProfileNode));
      [reflexivity|].
    symmetry.
    assert (Hall : Forall (fun v => Forall (fun n => visibleFrame (heap_callFrame n) = false)
                                      (snd v)) (heapChains (head profile) [])).
    { revert Hinv. generalize (head profile). intros node.
      assert (Hgen : forall above,
        Forall (fun n => visibleFrame (heap_callFrame n) = false) above ->
        Forall (fun n => visibleFrame (heap_callFrame n) = false) (heapNodes node) ->
        Forall (fun v => Forall (fun n => visibleFrame (heap_callFrame n) = false) (snd v))
          (heapChains node above)).
      { induction node as [cf sz i cs IH] using HeapProfileNode_nested_ind.
        intros above Habove Hnodes.
        rewrite heapChains_unfold. rewrite heapNodes_unfold in Hnodes.
        set (node := mkHeapNode cf sz i cs) in *.
        apply Forall_cons in Hnodes as [Hnode Hkids].
        assert (Hchain : Forall (fun n => visibleFrame (heap_callFrame n) = false)
                           (above ++ [node])).
        { apply Forall_app. split; [exact Habove|]. now apply Forall_singleton. }
        apply Forall_cons. split; [exact Hchain|].
        cbn [heap_children node] in *. clearbody node.
        induction IH as [|c cs' Hc _ IHcs]; [apply Forall_nil_2|].
        cbn [flat_map] in *. apply Forall_app in Hkids as [Hc0 Hrest].
        apply Forall_app. split; [now apply Hc|now apply IHcs]. }
      apply Hgen. apply Forall_nil_2. }
    induction Hall as [|[n chain] l Hv _ IH]; [reflexivity|].
    cbn [List.filter fst snd] in *.
    replace (existsb (fun n0 => visibleFrame (heap_callFrame n0)) chain) with false.
    + rewrite andb_false_r. exact IH.
    + symmetry. clear -Hv. induction Hv as [|n0 chain Hn _ IHc]; [reflexivity|].
      cbn [existsb]. now rewrite Hn.
Qed.
(** ** Default labels and their encoding *)

Module LabelsFacts.
Import Labels.

Lemma set_fresh {V} k (v : V) (m : JsMap.t V) :
  ~ In k (map fst m) -> JsMap.set k v m = (m ++ [(k, v)])%list.
Proof.
  induction m as [|[k' v'] m IH]; cbn [JsMap.set map fst In app]; [reflexivity|].
  intros H. destruct (String.eqb_spec k' k) as [->|_]; [tauto|].
  rewrite IH by tauto. reflexivity.
Qed.

Lemma presentLabels_cons k v sources :
  presentLabels ((k, v) :: sources) =
  (match v with
   | Some s => if String.eqb s "" then [] else [(k, s)]
   | None => []
   end ++ presentLabels sources)%list.
Proof. reflexivity. Qed.

Lemma presentLabels_app l1 l2 :
  presentLabels (l1 ++ l2) = (presentLabels l1 ++ presentLabels l2)%list.
Proof. apply flat_map_app. Qed.

Lemma NoDup_drop_middle (pre : list string) k rest :
  NoDup (pre ++ k :: rest) -> NoDup (pre ++ rest).
Proof.
  intros Hnd. apply NoDup_app in Hnd as (H1 & H2 & H3).
  apply NoDup_cons in H3 as [_ H3]. apply NoDup_app. repeat split; [exact H1| |exact H3].
  intros x Hx Hin. apply (H2 x Hx). now right.
Qed.

Lemma NoDup_middle_fresh (pre : list string) k rest :
  NoDup (pre ++ k :: rest) -> ~ In k pre.
Proof.
  intros Hnd Hin. apply NoDup_app in Hnd as (_ & H2 & _).
  apply (H2 k); [now apply list_elem_of_In|left].
Qed.

Lemma presentLabels_NoDup sources : forall pre : list string,
  NoDup (pre ++ map fst sources) -> NoDup (pre ++ map fst (presentLabels sources)).
Proof.
  induction sources as [|[k v] sources IH]; intros pre; [tauto|].
  cbn [map fst]. intros Hnd. rewrite presentLabels_cons.
  pose proof (IH pre (NoDup_drop_middle pre k _ Hnd)) as Hskip.
  destruct v as [s|]; [|exact Hskip].
  destruct (String.eqb s ""); [exact Hskip|].
  cbn [app map fst].
  replace (pre ++ k :: map fst (presentLabels sources))%list
    with ((pre ++ [k]) ++ map fst (presentLabels sources))%list
    by now rewrite <- app_assoc.
  apply IH. now rewrite <- app_assoc.
Qed.

Lemma fold_setIfTruthy sources : forall m,
  NoDup (map fst m ++ map fst sources) ->
  fold_left (fun m kv => setIfTruthy (fst kv) (snd kv) m) sources m =
  (m ++ presentLabels sources)%list.
Proof.
  induction sources as [|[k v] sources IH]; intros m Hnd; cbn [fold_left].
  - cbn. now rewrite app_nil_r.
  - cbn [map fst] in Hnd.
    pose proof (NoDup_middle_fresh _ _ _ Hnd) as Hk.
    rewrite presentLabels_cons. unfold setIfTruthy. cbn [fst snd].
    destruct v as [s|]; [destruct (String.eqb s "")|].
    + apply IH. exact (NoDup_drop_middle _ _ _ Hnd).
    + rewrite set_fresh by exact Hk. rewrite IH.
      * now rewrite <- app_assoc.
      * rewrite map_app. cbn [map fst]. now rewrite <- app_assoc.
    + apply IH. exact (NoDup_drop_middle _ _ _ Hnd).
Qed.

Lemma spread_fresh {V} (extra : JsMap.t V) : forall base,
  NoDup (map fst base ++ map fst extra) ->
  JsMap.spread base extra = (base ++ extra)%list.
Proof.
  unfold JsMap.spread.
  induction extra as [|[k v] extra IH]; intros base Hnd; cbn [fold_left fst snd].
  - now rewrite app_nil_r.
  - cbn [map fst] in Hnd.
    assert (Hk : ~ In k (map fst base)).
    { apply NoDup_app in Hnd as (_ & H2 & _). intros Hin.
      apply (H2 k); [now apply list_elem_of_In|left]. }
    rewrite set_fresh by exact Hk. rewrite IH.
    + now rewrite <- app_assoc.
    + rewrite map_app. cbn [map fst]. now rewrite <- app_assoc.
Qed.

Lemma optionalLabelSources_NoDup penv :
  NoDup (["hostname"; "service_name"] ++ map fst (optionalLabelSources penv)).
Proof. cbn. apply (bool_decide_unpack _). vm_compute. exact I. Qed.

Lemma buildDefaultLabels_closed_form penv hostname appName :
  buildDefaultLabels penv hostname appName =
  ([("hostname", hostname); ("service_name", appName)]
     ++ presentLabels (optionalLabelSources penv))%list.
Proof.
  pose proof (optionalLabelSources_NoDup penv) as Hnd.
  unfold buildDefaultLabels.
  change (detectPlatformLabels penv)
    with (fold_left (fun m kv => setIfTruthy (fst kv) (snd kv) m)
            (skipn 2 (optionalLabelSources penv)) []).
  set (base := [("hostname", hostname); ("service_name", appName)]).
  change (setIfTruthy "service_version" _ (setIfTruthy "environment" _ base))
    with (fold_left (fun m kv => setIfTruthy (fst kv) (snd kv) m)
            (firstn 2 (optionalLabelSources penv)) base).
  change (optionalLabelSources penv)
    with (firstn 2 (optionalLabelSources penv) ++ skipn 2 (optionalLabelSources penv))%list
    in Hnd |- * at 3.
  generalize dependent (skipn 2 (optionalLabelSources penv)).
  generalize (firstn 2 (optionalLabelSources penv)).
  intros first rest Hnd.
  change ["hostname"; "service_name"] with (map fst base) in Hnd.
  rewrite map_app, app_assoc in Hnd.
  assert (Hfirst : NoDup (map fst base ++ map fst first)).
  { apply NoDup_app in Hnd as (H & _). exact H. }
  rewrite (fold_setIfTruthy first base Hfirst).
  rewrite (fold_setIfTruthy rest []).
  2:{ apply NoDup_app in Hnd as (_ & _ & H). exact H. }
  cbn [app]. rewrite presentLabels_app, app_assoc.
  apply spread_fresh. rewrite map_app.
  assert (Hswap : forall (a b c : list string),
            NoDup ((a ++ b) ++ c) -> NoDup ((a ++ c) ++ b)).
  { intros a b c H. rewrite <- app_assoc in H |- *.
    apply NoDup_app in H as (Ha & Hd & Hbc). apply NoDup_app in Hbc as (Hb & Hd' & Hc).
    apply NoDup_app. split; [exact Ha|]. split.
    - intros x Hx Hin. apply (Hd x Hx). apply elem_of_app in Hin as [?|?];
        apply elem_of_app; tauto.
    - apply NoDup_app. split; [exact Hc|]. split; [|exact Hb].
      intros x Hx Hin. exact (Hd' x Hin Hx). }
  apply presentLabels_NoDup, Hswap, presentLabels_NoDup, Hswap. exact Hnd.
Qed.

Lemma presentLabels_In sources k v :
  In (k, v) (presentLabels sources) <-> In (k, Some v) sources /\ v <> "".
Proof.
  induction sources as [|[k' o] sources IH]; [cbn; tauto|].
  rewrite presentLabels_cons. rewrite in_app_iff, IH. cbn [In].
  destruct o as [s|].
  - destruct (String.eqb_spec s "") as [->|Hne]; cbn [In].
    + split; [tauto|]. intros [[E|?] ?]; [congruence|tauto].
    + split.
      * intros [[E|[]]|[? ?]]; [|tauto]. injection E as <- <-. tauto.
      * intros [[E|?] ?]; [|tauto]. injection E as <- <-. tauto.
  - cbn [In]. split; [tauto|]. intros [[E|?] ?]; [discriminate|tauto].
Qed.

Lemma presentLabels_keys sources k :
  In k (map fst (presentLabels sources)) -> In k (map fst sources).
Proof.
  intros H. apply in_map_iff in H as ([k' v] & <- & Hin).
  apply presentLabels_In in Hin as [Hin _].
  apply in_map_iff. now exists (k', Some v).
Qed.

Lemma NoDup_keys_functional {K V} (l : list (K * V)) k a b :
  NoDup (map fst l) -> In (k, a) l -> In (k, b) l -> a = b.
Proof.
  induction l as [|[k' v'] l IH]; [easy|].
  cbn [map fst In]. intros Hnd Ha Hb. apply NoDup_cons in Hnd as [Hk Hnd].
  rewrite list_elem_of_In in Hk.
  destruct Ha as [Ha|Ha], Hb as [Hb|Hb].
  - congruence.
  - injection Ha as -> ->. exfalso. apply Hk. apply in_map_iff. now exists (k, b).
  - injection Hb as -> ->. exfalso. apply Hk. apply in_map_iff. now exists (k, a).
  - now apply IH.
Qed.

Lemma get_app {V} k (m1 m2 : JsMap.t V) :
  JsMap.get k (m1 ++ m2)%list =
  match JsMap.get k m1 with
  | Some v => Some v
  | None => JsMap.get k m2
  end.
Proof.
  induction m1 as [|[k' v'] m1 IH]; cbn [JsMap.get app]; [reflexivity|].
  destruct (String.eqb k' k); [reflexivity|exact IH].
Qed.

Lemma spread_cons {V} (base : JsMap.t V) k v extra :
  JsMap.spread base ((k, v) :: extra) = JsMap.spread (JsMap.set k v base) extra.
Proof. reflexivity. Qed.

Lemma get_spread {V} (extra : JsMap.t V) : forall base k,
  NoDup (map fst extra) ->
  JsMap.get k (JsMap.spread base extra) =
  match JsMap.get k extra with
  | Some v => Some v
  | None => JsMap.get k base
  end.
Proof.
  induction extra as [|[k0 v0] extra IH]; intros base k Hnd; [reflexivity|].
  cbn [map fst] in Hnd. apply NoDup_cons in Hnd as [Hk0 Hnd].
  rewrite spread_cons, IH by exact Hnd. cbn [JsMap.get].
  destruct (String.eqb_spec k0 k) as [->|Hne].
  - assert (Hnone : JsMap.get k extra = None).
    { apply JsMapFacts.get_None. intros Hin. apply Hk0. now apply list_elem_of_In. }
    rewrite Hnone. apply JsMapFacts.get_set_eq.
  - now rewrite JsMapFacts.get_set_ne by exact Hne.
Qed.

Lemma set_NoDup {V} k (v : V) m : NoDup (map fst m) -> NoDup (map fst (JsMap.set k v m)).
Proof.
  intros Hnd. rewrite JsMapFacts.keys_set.
  destruct (JsMap.get k m) eqn:Hk; [exact Hnd|].
  apply NoDup_app. split; [exact Hnd|]. split; [|apply NoDup_singleton].
  intros x Hx Hxk. apply list_elem_of_singleton in Hxk. subst x.
  apply JsMapFacts.get_None in Hk. apply Hk. now apply list_elem_of_In.
Qed.

Lemma spread_NoDup {V} (extra : JsMap.t V) : forall base,
  NoDup (map fst base) -> NoDup (map fst (JsMap.spread base extra)).
Proof.
  induction extra as [|[k v] extra IH]; intros base Hnd; [exact Hnd|].
  rewrite spread_cons. apply IH. now apply set_NoDup.
Qed.

Lemma buildDefaultLabels_NoDup penv hostname appName :
  NoDup (map fst (buildDefaultLabels penv hostname appName)).
Proof.
  rewrite buildDefaultLabels_closed_form.
  exact (presentLabels_NoDup _ _ (optionalLabelSources_NoDup penv)).
Qed.

Lemma stripTrailingSlash_spec u :
  (stripTrailingSlash u ++ (if endsWithChar "/" u then "/" else ""))%string = u.
Proof.
  induction u as [|c u IH]; [reflexivity|].
  destruct u as [|d u].
  - cbn. destruct (Ascii.eqb_spec c "/"%char) as [->|_]; reflexivity.
  - change (stripTrailingSlash (String c (String d u)))
      with (String c (stripTrailingSlash (String d u))).
    change (endsWithChar "/" (String c (String d u))) with (endsWithChar "/" (String d u)).
    change (String c (stripTrailingSlash (String d u)) ++ ?x)%string
      with (String c (stripTrailingSlash (String d u) ++ x)%string).
    now rewrite IH.
Qed.

End LabelsFacts.

Import Labels LabelsFacts.

(** X6: [buildDefaultLabels] returns [hostname] and [service_name],
    followed in a fixed order by one label for each of the nine
    optional sources that is set to a non-empty string.  The keys are
    distinct, the two fixed labels always carry the host name and the
    application name, and an optional label is never empty.  A
    variable that is set to the empty string gives no label and, being
    set, also hides the fallback behind [??]: with [NODE_ENV] empty
    there is no [environment] label even when [BUN_ENV] is set, and
    likewise for [AWS_REGION] and [AWS_DEFAULT_REGION]. *)
Theorem buildDefaultLabels_contents :
  forall penv hostname appName,
  let ls := buildDefaultLabels penv hostname appName in
  ls = ([("hostname", hostname); ("service_name", appName)]
          ++ presentLabels (optionalLabelSources penv))%list /\
  (forall k v, In (k, v) (presentLabels (optionalLabelSources penv)) <->
               In (k, Some v) (optionalLabelSources penv) /\ v <> "") /\
  JsMap.get "hostname" ls = Some hostname /\
  JsMap.get "service_name" ls = Some appName /\
  NoDup (map fst ls) /\
  (penv "NODE_ENV" = Some "" -> JsMap.get "environment" ls = None) /\
  (penv "AWS_REGION" = Some "" -> JsMap.get "aws_region" ls = None).
Proof.
  intros penv hostname appName ls. subst ls.
  assert (Hmask : forall k,
    In (k, Some "") (optionalLabelSources penv) ->
    JsMap.get k (buildDefaultLabels penv hostname appName) = None).
  { intros k Hin. apply JsMapFacts.get_None. intros Hk.
    rewrite buildDefaultLabels_closed_form, map_app in Hk.
    apply in_app_iff in Hk as [Hk|Hk].
    - pose proof (optionalLabelSources_NoDup penv) as Hnd.
      apply NoDup_app in Hnd as (_ & Hd & _).
      apply (Hd k); [now apply list_elem_of_In|].
      apply list_elem_of_In, in_map_iff. now exists (k, Some "").
    - apply in_map_iff in Hk as ([k' v] & Hk' & Hin'). cbn in Hk'. subst k'.
      apply presentLabels_In in Hin' as [Hin' Hv].
      pose proof (optionalLabelSources_NoDup penv) as Hnd.
      apply NoDup_app in Hnd as (_ & _ & Hnd).
      assert (Heq : Some v = Some "")
        by exact (NoDup_keys_functional _ k _ _ Hnd Hin' Hin).
      congruence. }
  split; [apply buildDefaultLabels_closed_form|].
  split; [intros k v; apply presentLabels_In|].
  split; [now rewrite buildDefaultLabels_closed_form|].
  split; [now rewrite buildDefaultLabels_closed_form|].
  split; [apply buildDefaultLabels_NoDup|].
  split; intros H; apply Hmask; unfold optionalLabelSources; rewrite H; cbn; tauto.
Qed.

(** On a Fly.io machine whose [NODE_ENV] is set to the empty string,
    and in an environment with nothing set. *)
Example buildDefaultLabels_examples :
  buildDefaultLabels flyEnv "web-1" "api" =
    [("hostname", "web-1"); ("service_name", "api"); ("fly_region", "iad")] /\
  buildDefaultLabels emptyEnv "web-1" (resolveAppName emptyEnv None) =
    [("hostname", "web-1"); ("service_name", "bun-app")].
Proof. split; reflexivity. Qed.

(** X7: in the configuration the constructor resolves, a label given
    in the options overrides the default label of the same key and
    every other default label is kept; the keys stay distinct.  An
    explicit application name wins over the environment, which is
    consulted in the order [SERVICE_NAME], [npm_package_name], and the
    name is "bun-app" when nothing is set.  The server url loses at
    most one trailing slash, and heap sampling is off unless the
    options ask for it. *)
Theorem resolveConfig_labels :
  forall penv hostname options,
  let cfg := resolveConfig penv hostname options in
  let userLabels := default JsMap.empty (opt_labels options) in
  (NoDup (map fst userLabels) ->
   forall k,
     JsMap.get k (labels cfg) =
     match JsMap.get k userLabels with
     | Some v => Some v
     | None => JsMap.get k (buildDefaultLabels penv hostname (appName cfg))
     end) /\
  NoDup (map fst (labels cfg)) /\
  (forall a, opt_appName options = Some a -> appName cfg = a) /\
  (opt_appName options = None ->
   appName cfg =
   match penv "SERVICE_NAME", penv "npm_package_name" with
   | Some s, _ => s
   | None, Some s => s
   | None, None => "bun-app"
   end) /\
  (pyroscopeUrl cfg ++ (if endsWithChar "/" (opt_pyroscopeUrl options) then "/" else ""))%string
    = opt_pyroscopeUrl options /\
  (opt_heap options = None -> heap_enabled cfg = false).
Proof.
  intros penv hostname options cfg userLabels.
  split; [|split; [|split; [|split; [|split]]]].
  - intros Hnd k. subst cfg. cbn [resolveConfig labels appName].
    now apply get_spread.
  - apply spread_NoDup, buildDefaultLabels_NoDup.
  - intros a Ha. subst cfg. cbn [resolveConfig appName]. unfold resolveAppName.
    now rewrite Ha.
  - intros Ha. subst cfg. cbn [resolveConfig appName]. unfold resolveAppName.
    rewrite Ha. now destruct (penv "SERVICE_NAME"), (penv "npm_package_name").
  - apply stripTrailingSlash_spec.
  - intros Hh. subst cfg. cbn [resolveConfig heap_enabled]. now rewrite Hh.
Qed.

(** X8: inside [tag(extraLabels, fn)] on a running profiler, [fn] sees
    for every key the value of [extraLabels] when the key is there and
    the pre-tag value otherwise; once [tag] has returned, the lookup of
    every key is what it was before the call. *)
Theorem tag_overlay_lookup :
  forall lc b64 env (extra : JsMap.t string) (m : Machine) (k : string),
  running (st m) = true -> is_Some (session (st m)) -> NoDup (map fst extra) ->
  fst (tag lc b64 env extra (ProfilerExtra.readLabel k) m) =
    Returned (match JsMap.get k extra with
              | Some v => Some v
              | None => JsMap.get k (labels (config (st m)))
              end) /\
  JsMap.get k (labels (config (st (snd (tag lc b64 env extra (ProfilerExtra.readLabel k) m))))) =
    JsMap.get k (labels (config (st m))).
Proof.
  intros lc b64 env extra m k Hrun Hs Hnd.
  rewrite tag_run by assumption. cbn [fst snd ProfilerExtra.readLabel].
  split.
  - f_equal. unfold tagEntered. rewrite windowBegun_config. cbn [setLabels st config withConfig withLabels labels].
    now apply get_spread.
  - unfold tagLeft. rewrite windowBegun_config. reflexivity.
Qed.

Lemma tag_overlay_lookup_witness :
  fst (tag codeUnitCompare noBase64 testEnv routeLabel (ProfilerExtra.readLabel "route")
         (startedMachine baseConfig)) = Returned (Some "api") /\
  JsMap.get "route"
    (labels (config (st (snd (tag codeUnitCompare noBase64 testEnv routeLabel
                                (ProfilerExtra.readLabel "route")
                                (startedMachine baseConfig)))))) = None.
Proof.
  apply (tag_overlay_lookup codeUnitCompare noBase64 testEnv routeLabel
           (startedMachine baseConfig) "route").
  - vm_compute. reflexivity.
  - vm_compute. eauto.
  - apply (bool_decide_unpack _). vm_compute. exact I.
Defined.
(** ** The encoded name *)

Lemma hasChar_app c a b : hasChar c (a ++ b) = hasChar c a || hasChar c b.
Proof.
  induction a as [|d a IH]; [reflexivity|].
  change (String d a ++ b) with (String d (a ++ b)). cbn [hasChar].
  now rewrite IH, orb_assoc.
Qed.

Lemma hasChar_replaceChars bad c s :
  bad c = true -> c <> "_"%char -> hasChar c (replaceChars bad s) = false.
Proof.
  intros Hbad Hc. induction s as [|d s IH]; [reflexivity|].
  cbn [replaceChars hasChar]. rewrite IH, orb_false_r.
  destruct (bad d) eqn:Hd.
  - apply Ascii.eqb_neq. congruence.
  - apply Ascii.eqb_neq. congruence.
Qed.

Lemma hasChar_join c sep parts :
  hasChar c sep = false -> Forall (fun p => hasChar c p = false) parts ->
  hasChar c (join sep parts) = false.
Proof.
  intros Hsep Hall. induction Hall as [|p ps Hp _ IH]; [reflexivity|].
  destruct ps as [|q qs]; [exact Hp|].
  change (join sep (p :: q :: qs)) with (p ++ sep ++ join sep (q :: qs)).
  now rewrite !hasChar_app, Hp, Hsep, IH.
Qed.

Lemma encodeLabel_hasChar c e :
  isLabelSyntax c = true -> c <> "="%char -> hasChar c (encodeLabel e) = false.
Proof.
  intros Hc Hne. unfold encodeLabel. cbn zeta. rewrite !hasChar_app.
  assert (Hu : c <> "_"%char) by (intros ->; discriminate).
  rewrite !hasChar_replaceChars; try assumption.
  - cbn [hasChar]. replace (Ascii.eqb "=" c) with false; [reflexivity|].
    symmetry. apply Ascii.eqb_neq. congruence.
  - unfold isLabelSyntaxOrSpace. now rewrite Hc.
Qed.

Lemma encodeLabel_split e :
  split "=" (encodeLabel e) =
  [replaceChars isLabelSyntaxOrSpace (fst e); replaceChars isLabelSyntax (snd e)].
Proof.
  unfold encodeLabel. cbn zeta.
  change (replaceChars isLabelSyntaxOrSpace (fst e) ++ "=" ++ replaceChars isLabelSyntax (snd e))
    with (replaceChars isLabelSyntaxOrSpace (fst e)
            ++ String "=" (replaceChars isLabelSyntax (snd e))).
  rewrite split_app_sep by (apply hasChar_replaceChars; [reflexivity|discriminate]).
  rewrite split_nosep by (apply hasChar_replaceChars; [reflexivity|discriminate]).
  reflexivity.
Qed.

Lemma sortEntries_Permutation lc (es : list (string * string)) :
  Permutation (sortEntries lc es) es.
Proof. unfold sortEntries. apply merge_sort_Permutation. Qed.

(** X9: for a non-empty label set, the text that [encodePyroscopeName]
    puts between the braces contains no brace, and splitting it at
    the commas and each part at "=" gives back, label by label, the
    sanitised key and the sanitised value of the sorted entries.  A
    sanitised key contains no space.  The sorted entries are the
    entries of the label set in some order, so no label is lost or
    duplicated. *)
Theorem encodePyroscopeName_parses :
  forall lc app (ls : JsMap.t string), ls <> [] ->
  let sorted := sortEntries lc (JsMap.entries ls) in
  let body := join "," (map encodeLabel sorted) in
  encodePyroscopeName lc app ls = app ++ ".cpu{" ++ body ++ "}" /\
  hasChar "{" body = false /\ hasChar "}" body = false /\
  map (split "=") (split "," body) =
    map (fun e => [replaceChars isLabelSyntaxOrSpace (fst e);
                   replaceChars isLabelSyntax (snd e)]) sorted /\
  Forall (fun e => hasChar " " (replaceChars isLabelSyntaxOrSpace (fst e)) = false) sorted /\
  Permutation sorted ls.
Proof.
  intros lc app ls Hne sorted body.
  assert (Hperm : Permutation sorted ls) by apply sortEntries_Permutation.
  assert (Hsorted : sorted <> []).
  { intros E. rewrite E in Hperm. apply Permutation_nil in Hperm. congruence. }
  assert (Hno : forall c, isLabelSyntax c = true -> c <> "="%char ->
            Forall (fun p => hasChar c p = false) (map encodeLabel sorted)).
  { intros c Hc Hneq. apply Forall_forall. intros p Hp.
    apply list_elem_of_In, in_map_iff in Hp as (e & <- & _).
    now apply encodeLabel_hasChar. }
  split; [|split; [|split; [|split; [|split]]]].
  - unfold encodePyroscopeName. destruct ls; [congruence|reflexivity].
  - apply hasChar_join; [reflexivity|]. apply Hno; [reflexivity|discriminate].
  - apply hasChar_join; [reflexivity|]. apply Hno; [reflexivity|discriminate].
  - subst body. rewrite split_join.
    + rewrite map_map. apply map_ext. intros e. apply encodeLabel_split.
    + intros E. apply map_eq_nil in E. congruence.
    + apply Hno; [reflexivity|discriminate].
  - apply Forall_forall. intros e _.
    apply hasChar_replaceChars; [reflexivity|discriminate].
  - exact Hperm.
Qed.

Lemma encodePyroscopeName_parses_witness :
  encodePyroscopeName codeUnitCompare "my app" [("b c", "x=1"); ("a", "2,3")]
  = "my app" ++ ".cpu{" ++ "a=2_3,b_c=x_1" ++ "}".
Proof.
  apply (encodePyroscopeName_parses codeUnitCompare "my app" [("b c", "x=1"); ("a", "2,3")]).
  discriminate.
Defined.








(** ** Further properties of delivery *)

Module RetryExtraFacts.
Import Profiler ProfilerExtra.

Lemma backoffMs_pos j : (1 <= j)%nat -> (1000 <= backoffMs j <= 30000)%Z.
Proof.
  intros Hj. unfold backoffMs.
  assert (1 <= 2 ^ (Z.of_nat j - 1))%Z
    by (apply (Z.pow_le_mono_r 2 0 (Z.of_nat j - 1)); lia).
  lia.
Qed.

Lemma backoffMs_mono i j : (1 <= i <= j)%nat -> (backoffMs i <= backoffMs j)%Z.
Proof.
  intros Hij. unfold backoffMs.
  assert (2 ^ (Z.of_nat i - 1) <= 2 ^ (Z.of_nat j - 1))%Z
    by (apply Z.pow_le_mono_r; lia).
  lia.
Qed.

Lemma backoffMs_cap j : (6 <= j)%nat -> backoffMs j = 30000%Z.
Proof.
  intros Hj. unfold backoffMs.
  assert (2 ^ 5 <= 2 ^ (Z.of_nat j - 1))%Z by (apply Z.pow_le_mono_r; lia).
  change (2 ^ 5)%Z with 32%Z in H. lia.
Qed.

Lemma backoffMs_double j :
  (1 <= j <= 5)%nat -> backoffMs j = (1000 * 2 ^ (Z.of_nat j - 1))%Z.
Proof.
  intros Hj. unfold backoffMs.
  assert (2 ^ (Z.of_nat j - 1) <= 2 ^ 4)%Z by (apply Z.pow_le_mono_r; lia).
  change (2 ^ 4)%Z with 16%Z in H. lia.
Qed.

Lemma totalSleepMs_app e1 e2 :
  totalSleepMs (e1 ++ e2) = (totalSleepMs e1 + totalSleepMs e2)%Z.
Proof.
  induction e1 as [|e e1 IH]; [reflexivity|].
  cbn [app totalSleepMs fold_right]. fold (totalSleepMs (e1 ++ e2)). fold (totalSleepMs e1).
  rewrite IH. destruct e; lia.
Qed.

Lemma totalSleepMs_scheduleOf events :
  totalSleepMs (scheduleOf events) = totalSleepMs events.
Proof.
  induction events as [|e events IH]; [reflexivity|].
  unfold scheduleOf in *. cbn [List.filter].
  destruct e; cbn [totalSleepMs fold_right] in *; fold (totalSleepMs events);
    try exact IH; now rewrite <- IH.
Qed.

Lemma totalSleepMs_scheduleUpTo n :
  (0 <= totalSleepMs (scheduleUpTo n) <= 30000 * Z.of_nat (n - 1))%Z.
Proof.
  induction n as [|n IH]; [cbn; lia|].
  rewrite RetryFacts.scheduleUpTo_S, totalSleepMs_app.
  destruct n as [|n].
  - cbn. lia.
  - cbn [attemptSchedule]. cbn [totalSleepMs fold_right].
    pose proof (backoffMs_pos (S n) ltac:(lia)). fold (totalSleepMs (scheduleUpTo (S n))).
    replace (S (S n) - 1)%nat with (S (S n - 1))%nat by lia. lia.
Qed.

Lemma fetchesOf_app e1 e2 : fetchesOf (e1 ++ e2) = (fetchesOf e1 ++ fetchesOf e2)%list.
Proof. apply flat_map_app. Qed.

Lemma fetchesOf_cons e events :
  fetchesOf (e :: events) =
  (match e with PFetch attempt => [attempt] | _ => [] end ++ fetchesOf events)%list.
Proof. reflexivity. Qed.

Lemma fetchesOf_scheduleOf events : fetchesOf (scheduleOf events) = fetchesOf events.
Proof.
  induction events as [|e events IH]; [reflexivity|].
  rewrite fetchesOf_cons, <- IH. unfold scheduleOf. cbn [List.filter].
  destruct e; try reflexivity; now rewrite fetchesOf_cons.
Qed.

Lemma fetchesOf_scheduleUpTo n : fetchesOf (scheduleUpTo n) = seq 0 n.
Proof.
  induction n as [|n IH]; [reflexivity|].
  rewrite RetryFacts.scheduleUpTo_S, fetchesOf_app, IH, seq_S.
  destruct n; reflexivity.
Qed.

Section Loop.

Variable folded : string.
Variable fetches : nat -> FetchOutcome.

Lemma retryLoop_outcome debugLog remaining : forall attempt lastError events,
  match fst (retryLoop debugLog folded fetches remaining attempt lastError events) with
  | Returned _ =>
      (exists k status text,
         (attempt <= k < attempt + remaining)%nat /\
         fetches k = Responded status text /\ isOk status = true) \/
      remaining = 0%nat /\ lastError = None
  | Thrown message =>
      (exists k, (attempt <= k < attempt + remaining)%nat /\
                 attemptError (fetches k) = Some message) \/
      lastError = Some message
  end.
Proof.
  induction remaining as [|remaining IH]; intros attempt lastError events.
  - cbn [retryLoop fst]. destruct lastError; [now right|].
    right. now split.
  - cbn [retryLoop].
    set (events2 := (_ ++ [PFetch attempt])%list).
    assert (Hshift : forall message events',
      match fst (retryLoop debugLog folded fetches remaining (S attempt) (Some message) events') with
      | Returned _ =>
          exists k status text,
            (attempt <= k < attempt + S remaining)%nat /\
            fetches k = Responded status text /\ isOk status = true
      | Thrown msg =>
          (exists k, (attempt <= k < attempt + S remaining)%nat /\
                     attemptError (fetches k) = Some msg) \/ Some message = Some msg
      end).
    { intros message events'. specialize (IH (S attempt) (Some message) events').
      destruct (fst (retryLoop _ _ _ _ _ _ _)) as [[]|msg].
      - destruct IH as [(k & status & text & Hk & H1 & H2)|[_ H]]; [|discriminate].
        exists k, status, text. split; [lia|]. now split.
      - destruct IH as [(k & Hk & H1)|H]; [|now right].
        left. exists k. split; [lia|exact H1]. }
    destruct (fetches attempt) as [status text|isError msg] eqn:Hf.
    + destruct (isOk status) eqn:Hok.
      * cbn [fst]. left. exists attempt, status, text. split; [lia|]. now split.
      * destruct ((400 <=? status)%Z && (status <? 500)%Z).
        -- destruct (startsWith _ "HTTP 4") eqn:Hp.
           ++ cbn [fst]. left. exists attempt. split; [lia|].
              rewrite Hf. cbn [attemptError]. now rewrite Hok.
           ++ specialize (Hshift (httpErrorMessage status text)
                            (events2 ++ [PLogPushError attempt (httpErrorMessage status text)])%list).
              destruct (fst (retryLoop _ _ _ _ _ _ _)) as [[]|m]; [now left|].
              destruct Hshift as [H|[= <-]]; [now left|].
              left. exists attempt. split; [lia|]. rewrite Hf. cbn [attemptError]. now rewrite Hok.
        -- specialize (Hshift (httpErrorMessage status text)
                         (events2 ++ [PLogPushFailed attempt (httpErrorMessage status text)])%list).
           destruct (fst (retryLoop _ _ _ _ _ _ _)) as [[]|m]; [now left|].
           destruct Hshift as [H|[= <-]]; [now left|].
           left. exists attempt. split; [lia|]. rewrite Hf. cbn [attemptError]. now rewrite Hok.
    + destruct (isError && startsWith msg "HTTP 4").
      * cbn [fst]. left. exists attempt. split; [lia|]. now rewrite Hf.
      * specialize (Hshift msg (events2 ++ [PLogPushError attempt msg])%list).
        destruct (fst (retryLoop _ _ _ _ _ _ _)) as [[]|m]; [now left|].
        destruct Hshift as [H|[= <-]]; [now left|].
        left. exists attempt. split; [lia|]. now rewrite Hf.
Qed.

Lemma retryLoop_debug remaining : forall attempt lastError events1 events2,
  List.filter (fun e => negb (isDebugEvent e)) events1 = events2 ->
  fst (retryLoop true folded fetches remaining attempt lastError events1) =
  fst (retryLoop false folded fetches remaining attempt lastError events2) /\
  List.filter (fun e => negb (isDebugEvent e))
    (snd (retryLoop true folded fetches remaining attempt lastError events1)) =
  snd (retryLoop false folded fetches remaining attempt lastError events2).
Proof.
  induction remaining as [|remaining IH]; intros attempt lastError events1 events2 Hev.
  - cbn [retryLoop fst snd]. now split.
  - cbn [retryLoop]. unfold debugEvent.
    set (e1 := (if (0 <? attempt)%nat then _ else _)).
    set (e2 := (if (0 <? attempt)%nat then _ else events2)).
    assert (He : List.filter (fun e => negb (isDebugEvent e)) (e1 ++ [PFetch attempt])
                 = (e2 ++ [PFetch attempt])%list).
    { subst e1 e2. destruct (0 <? attempt)%nat; rewrite !List.filter_app; cbn; now rewrite Hev. }
    destruct (fetches attempt) as [status text|isError msg].
    + destruct (isOk status).
      * cbn [fst snd]. split; [reflexivity|].
        rewrite List.filter_app, He. cbn. now rewrite app_nil_r.
      * destruct ((400 <=? status)%Z && (status <? 500)%Z).
        -- destruct (startsWith _ "HTTP 4"); [cbn [fst snd]; now split|].
           apply IH. rewrite List.filter_app, He. reflexivity.
        -- apply IH. rewrite List.filter_app, He. reflexivity.
    + destruct (isError && startsWith msg "HTTP 4"); [cbn [fst snd]; now split|].
      apply IH. rewrite List.filter_app, He. reflexivity.
Qed.

Lemma retryLoop_quiet remaining : forall attempt lastError events,
  Forall (fun e => isDebugEvent e = false) events ->
  Forall (fun e => isDebugEvent e = false)
    (snd (retryLoop false folded fetches remaining attempt lastError events)).
Proof.
  induction remaining as [|remaining IH]; intros attempt lastError events Hev; [exact Hev|].
  cbn [retryLoop]. unfold debugEvent.
  set (e1 := (if (0 <? attempt)%nat then _ else events)).
  assert (He : Forall (fun e => isDebugEvent e = false) (e1 ++ [PFetch attempt])).
  { subst e1. apply Forall_app. split; [|now apply Forall_singleton].
    destruct (0 <? attempt)%nat; [|exact Hev].
    cbn [app]. apply Forall_app. split; [exact Hev|now apply Forall_singleton]. }
  destruct (fetches attempt) as [status text|isError msg].
  - destruct (isOk status); [cbn [snd]; now rewrite app_nil_r|].
    destruct ((400 <=? status)%Z && (status <? 500)%Z).
    + destruct (startsWith _ "HTTP 4"); [exact He|].
      apply IH. apply Forall_app. split; [exact He|now apply Forall_singleton].
    + apply IH. apply Forall_app. split; [exact He|now apply Forall_singleton].
  - destruct (isError && startsWith msg "HTTP 4"); [exact He|].
    apply IH. apply Forall_app. split; [exact He|now apply Forall_singleton].
Qed.

End Loop.

End RetryExtraFacts.

Import ProfilerExtra RetryExtraFacts.

(** X11: the delay before retry [j >= 1] is between 1 s and 30 s, it
    doubles from 1 s up to 16 s over the first five retries, is 30 s
    from the sixth on and never decreases.  A push sleeps for at most
    [30 s * maxRetries] in total, and its fetches are the attempts
    [0, 1, ..., n - 1] for some [n <= maxRetries + 1]. *)
Theorem pushWithRetry_backoff_bounds :
  (forall j, (1 <= j)%nat -> (1000 <= backoffMs j <= 30000)%Z) /\
  (forall j, (1 <= j <= 5)%nat -> backoffMs j = (1000 * 2 ^ (Z.of_nat j - 1))%Z) /\
  (forall j, (6 <= j)%nat -> backoffMs j = 30000%Z) /\
  (forall i j, (1 <= i <= j)%nat -> (backoffMs i <= backoffMs j)%Z) /\
  (forall debugLog folded fetches maxRetries,
     let events := snd (pushWithRetry debugLog folded fetches maxRetries) in
     (0 <= totalSleepMs events <= 30000 * Z.max 0 maxRetries)%Z /\
     exists n, (n <= Z.to_nat (maxRetries + 1))%nat /\ fetchesOf events = seq 0 n).
Proof.
  split; [exact backoffMs_pos|]. split; [exact backoffMs_double|].
  split; [exact backoffMs_cap|]. split; [exact backoffMs_mono|].
  intros debugLog folded fetches maxRetries events. subst events. unfold pushWithRetry.
  destruct (RetryFacts.retryLoop_schedule debugLog folded fetches
              (Z.to_nat (maxRetries + 1)) 0%nat None []) as (n & Hn & _ & Hs).
  cbn [scheduleOf List.filter app] in Hs. fold (scheduleUpTo n) in Hs.
  split.
  - rewrite <- totalSleepMs_scheduleOf, Hs.
    pose proof (totalSleepMs_scheduleUpTo n). lia.
  - exists n. split; [exact Hn|].
    now rewrite <- fetchesOf_scheduleOf, Hs, fetchesOf_scheduleUpTo.
Qed.

(** X12: with a negative [maxRetries] [pushWithRetry] makes no attempt
    at all and returns normally.  With [maxRetries >= 0] it makes at
    least the first attempt; it returns normally only after an
    attempt that was answered with a 2xx status, and an error it
    throws is the error of one of the attempts [0 .. maxRetries]. *)
Theorem pushWithRetry_outcome_sound :
  forall debugLog folded fetches maxRetries,
  let run := pushWithRetry debugLog folded fetches maxRetries in
  ((maxRetries < 0)%Z -> run = (Returned tt, [])) /\
  ((0 <= maxRetries)%Z ->
   In (PFetch 0) (snd run) /\
   (fst run = Returned tt ->
    exists k status text,
      (Z.of_nat k <= maxRetries)%Z /\ fetches k = Responded status text /\
      isOk status = true) /\
   (forall message, fst run = Thrown message ->
    exists k, (Z.of_nat k <= maxRetries)%Z /\ attemptError (fetches k) = Some message)).
Proof.
  intros debugLog folded fetches maxRetries run. subst run. unfold pushWithRetry. split.
  - intros Hneg. replace (Z.to_nat (maxRetries + 1)) with 0%nat by lia. reflexivity.
  - intros Hpos.
    pose proof (retryLoop_outcome folded fetches debugLog (Z.to_nat (maxRetries + 1))
                  0%nat None []) as Hout.
    split; [|split].
    + replace (Z.to_nat (maxRetries + 1)) with (S (Z.to_nat maxRetries)) by lia.
      destruct (RetryFacts.retryLoop_schedule debugLog folded fetches
                  (S (Z.to_nat maxRetries)) 0%nat None []) as (n & _ & Hn & Hs).
      specialize (Hn ltac:(discriminate)).
      assert (Hin : In (PFetch 0) (scheduleOf (snd (retryLoop debugLog folded fetches
                        (S (Z.to_nat maxRetries)) 0 None [])))).
      { rewrite Hs. destruct n; [lia|]. cbn. now left. }
      unfold scheduleOf in Hin. apply List.filter_In in Hin. tauto.
    + intros Hret. rewrite Hret in Hout.
      destruct Hout as [(k & status & text & Hk & H1 & H2)|[Hzero _]]; [|lia].
      exists k, status, text. split; [lia|]. now split.
    + intros message Hthrown. rewrite Hthrown in Hout.
      destruct Hout as [(k & Hk & H1)|H]; [|discriminate].
      exists k. split; [lia|exact H1].
Qed.

(** X13: the [debug] flag changes nothing but the log: the outcome of
    [pushWithRetry] is the same with and without it, its events with
    the flag set are those without it plus debug lines, and without
    the flag no debug line is logged.  The warnings about failed
    attempts are logged in both cases. *)
Theorem pushWithRetry_debug_only_logs :
  forall folded fetches maxRetries,
  fst (pushWithRetry true folded fetches maxRetries) =
    fst (pushWithRetry false folded fetches maxRetries) /\
  List.filter (fun e => negb (isDebugEvent e))
    (snd (pushWithRetry true folded fetches maxRetries)) =
    snd (pushWithRetry false folded fetches maxRetries) /\
  Forall (fun e => isDebugEvent e = false) (snd (pushWithRetry false folded fetches maxRetries)).
Proof.
  intros folded fetches maxRetries. unfold pushWithRetry.
  destruct (retryLoop_debug folded fetches (Z.to_nat (maxRetries + 1)) 0%nat None [] []
              eq_refl) as [Hfst Hsnd].
  split; [exact Hfst|]. split; [exact Hsnd|].
  apply retryLoop_quiet. apply Forall_nil_2.
Qed.
(** ** Further properties of the window state machine *)

Module MachineFacts.
Import Profiler ProfilerExtra.

Section Facts.

Variable lc : string -> string -> Z.
Variable b64 : string -> string.
Variable env : Env.

Lemma timerCallback_run m :
  timerCallback lc b64 env m =
  (tt, if running (st m)
       then windowBegun env true (mkMachine (st m) (endWindowWorld lc b64 env m))
       else mkMachine (st m) (endWindowWorld lc b64 env m)).
Proof.
  unfold timerCallback. unfold mbind, M_bind, bind.
  rewrite endWindowAndPush_run. unfold getState. cbn [st].
  destruct (running (st m)); cbn [when_]; [apply beginWindow_run|reflexivity].
Qed.

Lemma endWindowWorld_counters m :
  timersCreated (endWindowWorld lc b64 env m) = timersCreated (world m) /\
  sessionsCreated (endWindowWorld lc b64 env m) = sessionsCreated (world m) /\
  connects (endWindowWorld lc b64 env m) = connects (world m) /\
  disconnects (endWindowWorld lc b64 env m) = disconnects (world m).
Proof. unfold endWindowWorld. destruct (session (st m)); cbn; auto. Qed.

Lemma stop_run m :
  running (st m) = true ->
  stop lc b64 env m =
  (tt,
   let m1 := timerCancelled (mkMachine (withRunning false (st m)) (world m)) in
   let w2 := endWindowWorld lc b64 env m1 in
   match session (st m1) with
   | None => mkMachine (st m1) w2
   | Some sid =>
       let w3 :=
         if heap_enabled (config (st m1))
         then mkWorld (trace w2 ++ [EvPost sid HeapProfilerDisable]) (S (posts w2))
                (clockReads w2) (sessionsCreated w2) (timersCreated w2) (connects w2)
                (disconnects w2)
         else w2 in
       mkMachine (withSession None (st m1))
         (mkWorld (trace w3 ++ [EvDisconnect sid]) (posts w3) (clockReads w3)
            (sessionsCreated w3) (timersCreated w3) (connects w3) (S (disconnects w3)))
   end).
Proof.
  intros Hrun.
  unfold stop. unfold mbind at 1. unfold M_bind, bind, getState at 1.
  rewrite Hrun. cbn [negb].
  unfold mbind, M_bind, bind, modify at 1.
  rewrite cancelTimer_run, endWindowAndPush_run. unfold getState at 1. cbn [st world].
  set (m1 := timerCancelled _).
  destruct (session (st m1)) as [sid|]; [|reflexivity].
  unfold_m. cbn. destruct (heap_enabled (config (st m1))); reflexivity.
Qed.

End Facts.

End MachineFacts.
Import ProfilerExtra MachineFacts.

(** X14: [start()] on a stopped instance succeeds exactly when the
    session connects and the posts [Profiler.enable] and
    [Profiler.setSamplingInterval] are both answered; a failure of the
    heap sampler or of [Profiler.start] does not make it fail.  After
    a successful start the instance is running on a fresh session, the
    signal handlers are installed, and the last thing it did was to
    schedule the first push timer with the configured interval. *)
Theorem start_outcome :
  forall env m, running (st m) = false ->
  let w := world m in
  let m' := snd (start env m) in
  (fst (start env m) = Returned tt <->
   connect_error env (connects w) = None /\
   post_error env (posts w) = None /\ post_error env (S (posts w)) = None) /\
  (fst (start env m) = Returned tt ->
   running (st m') = true /\
   session (st m') = Some (sessionsCreated w) /\
   pushTimer (st m') = Some (timersCreated w) /\
   signalHandlersInstalled (st m') = true /\
   (exists evs,
      trace (world m') = (trace w ++ EvConnect (sessionsCreated w) :: evs)%list) /\
   last (trace (world m')) =
     Some (EvSetTimeout (timersCreated w) (pushIntervalMs (config (st m))))).
Proof.
  intros env m Hrun w m'. subst w m'.
  destruct m as [[cfg sess timer run ws sig] w]. cbn [st running world] in *. subst run.
  unfold_m. cbn.
  destruct (connect_error env (connects w)) as [e|]; cbn.
  { split; [split; [discriminate|intros [? _]; discriminate]|discriminate]. }
  destruct (post_error env (posts w)) as [e|]; cbn.
  { destruct (disconnect_error env (disconnects w)); cbn;
      (split; [split; [discriminate|intros (_ & ? & _); discriminate]|discriminate]). }
  destruct (post_error env (S (posts w))) as [e|]; cbn.
  { destruct (disconnect_error env (disconnects w)); cbn;
      (split; [split; [discriminate|intros (_ & _ & ?); discriminate]|discriminate]). }
  split_cases; (split; [split; [auto|reflexivity]|]); intros _;
    repeat (split; [reflexivity|]); rewrite <- ?app_assoc; cbn;
    (split; [eexists; reflexivity|]); rewrite last_app; reflexivity.
Qed.

Lemma start_outcome_witness :
  fst (start testEnv (idleMachine baseConfig)) = Returned tt /\
  pushTimer (st (snd (start testEnv (idleMachine baseConfig)))) = Some 0%nat /\
  fst (start (failingPostEnv 1 "no sampler") (idleMachine baseConfig)) <> Returned tt.
Proof.
  destruct (start_outcome testEnv (idleMachine baseConfig) eq_refl) as [Hiff Hok].
  destruct (start_outcome (failingPostEnv 1 "no sampler") (idleMachine baseConfig) eq_refl)
    as [Hiff' _].
  assert (Hret : fst (start testEnv (idleMachine baseConfig)) = Returned tt).
  { apply Hiff. repeat split. }
  split; [exact Hret|]. split.
  - destruct (Hok Hret) as (_ & _ & Ht & _). exact Ht.
  - intros H. apply Hiff' in H as (_ & _ & H). discriminate H.
Defined.

(** X15: when [connect()] throws, [start()] throws the same error
    before posting anything; the session object stays assigned and is
    not disconnected.  When one of the two initialising posts rejects,
    the session is disconnected and dropped and [start()] throws
    "[bun-pyroscope] Failed to initialize profiler session: ..."; apart
    from the session field the instance is as before: not running, no
    timer. *)
Theorem start_failure_cleanup :
  forall env m, running (st m) = false ->
  let w := world m in
  let sid := sessionsCreated w in
  (forall e, connect_error env (connects w) = Some e ->
     fst (start env m) = Thrown e /\
     st (snd (start env m)) = withSession (Some sid) (st m) /\
     posts (world (snd (start env m))) = posts w /\
     disconnects (world (snd (start env m))) = disconnects w) /\
  (forall e, connect_error env (connects w) = None ->
     post_error env (posts w) = Some e \/
     (post_error env (posts w) = None /\ post_error env (S (posts w)) = Some e) ->
     disconnect_error env (disconnects w) = None ->
     fst (start env m) =
       Thrown ("[bun-pyroscope] Failed to initialize profiler session: " ++ e) /\
     st (snd (start env m)) = withSession None (st m) /\
     timersCreated (world (snd (start env m))) = timersCreated w /\
     disconnects (world (snd (start env m))) = S (disconnects w) /\
     last (trace (world (snd (start env m)))) = Some (EvDisconnect sid)).
Proof.
  intros env m Hrun w sid. subst w sid.
  destruct m as [[cfg sess timer run ws sig] w]. cbn [st running world] in *. subst run.
  split.
  - intros e He. unfold_m. cbn. rewrite He. cbn. repeat split.
  - intros e Hc Hpost Hd. unfold_m. cbn. rewrite Hc. cbn.
    destruct Hpost as [Hp|[Hp1 Hp2]].
    + rewrite Hp. cbn. rewrite Hd. cbn. rewrite <- ?app_assoc. cbn.
      repeat split. now rewrite last_app.
    + rewrite Hp1. cbn. rewrite Hp2. cbn. rewrite Hd. cbn. rewrite <- ?app_assoc. cbn.
      repeat split. now rewrite last_app.
Qed.

Lemma start_failure_cleanup_witness :
  fst (start (failingPostEnv 0 "no profiler") (idleMachine baseConfig)) =
    Thrown "[bun-pyroscope] Failed to initialize profiler session: no profiler" /\
  st (snd (start (failingPostEnv 0 "no profiler") (idleMachine baseConfig))) =
    st (idleMachine baseConfig).
Proof.
  destruct (start_failure_cleanup (failingPostEnv 0 "no profiler") (idleMachine baseConfig)
              eq_refl) as [_ H].
  destruct (H "no profiler" eq_refl (or_introl eq_refl) eq_refl) as (H1 & H2 & _).
  split; [exact H1|exact H2].
Defined.

(** X16: when heap sampling is requested and [HeapProfiler.enable] or
    [HeapProfiler.startSampling] rejects, [start()] still succeeds: it
    logs a warning, switches [heap.enabled] off in the configuration
    and leaves everything else of the configuration alone; the
    instance is running and the first push timer is scheduled. *)
Theorem start_heap_degrades :
  forall env m e, running (st m) = false ->
  let w := world m in
  connect_error env (connects w) = None ->
  post_error env (posts w) = None -> post_error env (S (posts w)) = None ->
  heap_enabled (config (st m)) = true ->
  post_error env (S (S (posts w))) = Some e \/
  (post_error env (S (S (posts w))) = None /\
   post_error env (S (S (S (posts w)))) = Some e) ->
  let m' := snd (start env m) in
  fst (start env m) = Returned tt /\
  running (st m') = true /\
  config (st m') = withHeapEnabled false (config (st m)) /\
  In (EvConsole LWarn (MsgHeapInitFailed e)) (trace (world m')) /\
  pushTimer (st m') = Some (timersCreated w).
Proof.
  intros env m e Hrun w Hc Hp0 Hp1 Hheap Hfail m'. subst w m'.
  destruct m as [[cfg sess timer run ws sig] w]. cbn [st running world config] in *. subst run.
  unfold_m. cbn. rewrite Hc. cbn. rewrite Hp0. cbn. rewrite Hp1. cbn.
  rewrite Hheap. cbn.
  destruct Hfail as [Hf|[Hf1 Hf2]].
  - rewrite Hf. cbn. split_cases; rewrite <- ?app_assoc; cbn;
      (split; [reflexivity|]); (split; [reflexivity|]); (split; [reflexivity|]);
      (split; [apply in_or_app; right; cbn; tauto|reflexivity]).
  - rewrite Hf1. cbn. rewrite Hf2. cbn. split_cases; rewrite <- ?app_assoc; cbn;
      (split; [reflexivity|]); (split; [reflexivity|]); (split; [reflexivity|]);
      (split; [apply in_or_app; right; cbn; tauto|reflexivity]).
Qed.

Lemma start_heap_degrades_witness :
  fst (start (failingPostEnv 2 "no heap profiler") (idleMachine heapConfig)) = Returned tt /\
  heap_enabled
    (config (st (snd (start (failingPostEnv 2 "no heap profiler") (idleMachine heapConfig)))))
  = false.
Proof.
  destruct (start_heap_degrades (failingPostEnv 2 "no heap profiler") (idleMachine heapConfig)
              "no heap profiler" eq_refl eq_refl eq_refl eq_refl eq_refl (or_introl eq_refl))
    as (H1 & _ & H2 & _).
  split; [exact H1|]. now rewrite H2.
Defined.

Lemma Forall_quiet_app (l1 l2 : list Event) :
  Forall (fun e => isHeapEvent e = false) l1 ->
  Forall (fun e => isHeapEvent e = false) l2 ->
  Forall (fun e => isHeapEvent e = false) (l1 ++ l2).
Proof. intros H1 H2. apply Forall_app. now split. Qed.

Lemma endWindowEvents_no_heap lc b64 env m :
  heap_enabled (config (st m)) = false ->
  Forall (fun e => isHeapEvent e = false) (endWindowEvents lc b64 env m).
Proof.
  intros Hh. unfold endWindowEvents. rewrite Hh.
  destruct (session (st m)); [|constructor].
  destruct (post_error env _); [repeat constructor|].
  rewrite app_nil_r.
  destruct (String.eqb _ ""); [destruct (debug _)|]; repeat constructor.
Qed.

Lemma windowBegun_events env schedule m :
  exists evs,
    trace (world (windowBegun env schedule m)) = (trace (world m) ++ evs)%list /\
    Forall (fun e => isHeapEvent e = false) evs.
Proof.
  unfold windowBegun.
  destruct (session (st m)); [|exists []; split; [now rewrite app_nil_r|constructor]].
  destruct (running (st m)); cbn [negb];
    [|exists []; split; [now rewrite app_nil_r|constructor]].
  destruct schedule; cbn [world trace]; eexists; (split; [reflexivity|]);
    destruct (post_error env _); repeat constructor.
Qed.

(** X17: while [heap.enabled] is off, [start()], the timer callback
    and [stop()] post no [HeapProfiler] method and start no heap flush,
    and they leave [heap.enabled] off. *)
Theorem heap_disabled_posts_nothing :
  forall lc b64 env m, heap_enabled (config (st m)) = false ->
  (exists evs,
     trace (world (snd (start env m))) = (trace (world m) ++ evs)%list /\
     Forall (fun e => isHeapEvent e = false) evs /\
     heap_enabled (config (st (snd (start env m)))) = false) /\
  (exists evs,
     trace (world (snd (timerCallback lc b64 env m))) = (trace (world m) ++ evs)%list /\
     Forall (fun e => isHeapEvent e = false) evs /\
     heap_enabled (config (st (snd (timerCallback lc b64 env m)))) = false) /\
  (exists evs,
     trace (world (snd (stop lc b64 env m))) = (trace (world m) ++ evs)%list /\
     Forall (fun e => isHeapEvent e = false) evs /\
     heap_enabled (config (st (snd (stop lc b64 env m)))) = false).
Proof.
  intros lc b64 env m Hh. split; [|split].
  - destruct m as [[cfg sess timer run ws sig] w]. cbn [st config world] in *.
    unfold_m. cbn. rewrite Hh. split_cases; rewrite <- ?app_assoc;
      eexists; (split; [reflexivity|]); (split; [repeat constructor|exact Hh]).
  - rewrite timerCallback_run. cbn [snd].
    pose proof (endWindowEvents_no_heap lc b64 env m Hh) as Hq.
    destruct (running (st m)).
    + destruct (windowBegun_events env true
                  (mkMachine (st m) (endWindowWorld lc b64 env m))) as (evs & -> & Hevs).
      cbn [world]. rewrite endWindowWorld_trace, <- app_assoc.
      eexists. split; [reflexivity|]. split; [now apply Forall_quiet_app|].
      now rewrite windowBegun_config.
    + cbn [world st]. rewrite endWindowWorld_trace.
      eexists. split; [reflexivity|]. now split.
  - destruct (running (st m)) eqn:Hrun.
    + rewrite (stop_run lc b64 env m Hrun). cbn [snd].
      set (m1 := timerCancelled _).
      assert (Hc1 : config (st m1) = config (st m)).
      { subst m1. rewrite timerCancelled_config. reflexivity. }
      assert (Hh1 : heap_enabled (config (st m1)) = false) by now rewrite Hc1.
      assert (Ht1 : exists evs, trace (world m1) = (trace (world m) ++ evs)%list /\
                                Forall (fun e => isHeapEvent e = false) evs).
      { subst m1. rewrite timerCancelled_trace. cbn [st world pushTimer withRunning].
        eexists. split; [reflexivity|]. destruct (pushTimer (st m)); repeat constructor. }
      destruct Ht1 as (evs1 & Ht1 & Hq1).
      pose proof (endWindowEvents_no_heap lc b64 env m1 Hh1) as Hq2.
      cbn zeta. destruct (session (st m1)) as [sid|].
      * rewrite Hh1. cbn [world trace st config withSession].
        rewrite endWindowWorld_trace, Ht1, <- !app_assoc.
        eexists. split; [reflexivity|]. split; [|exact Hh1].
        apply Forall_quiet_app; [exact Hq1|]. apply Forall_quiet_app; [exact Hq2|].
        repeat constructor.
      * cbn [world st]. rewrite endWindowWorld_trace, Ht1, <- !app_assoc.
        eexists. split; [reflexivity|]. split; [|exact Hh1].
        now apply Forall_quiet_app.
    + assert (Hs : stop lc b64 env m = (tt, m)) by (unfold_m; now rewrite Hrun).
      rewrite Hs. exists []. cbn [snd]. split; [now rewrite app_nil_r|]. now split.
Qed.

Lemma heap_disabled_posts_nothing_witness :
  exists evs,
    trace (world (snd (stop codeUnitCompare noBase64 testEnv (startedMachine baseConfig)))) =
      (trace (world (startedMachine baseConfig)) ++ evs)%list /\
    Forall (fun e => isHeapEvent e = false) evs /\
    heap_enabled
      (config (st (snd (stop codeUnitCompare noBase64 testEnv (startedMachine baseConfig)))))
    = false.
Proof.
  apply (heap_disabled_posts_nothing codeUnitCompare noBase64 testEnv
           (startedMachine baseConfig)).
  vm_compute. reflexivity.
Defined.


(** X18: [stop()] on a running instance clears the pending timer,
    posts [Profiler.stop] for a final flush and disconnects the
    session last.  Afterwards the instance is not running, has no
    session and no timer, and its configuration and the other fields
    are unchanged; no new timer has been created, and the session was
    disconnected exactly once, whatever the posts answered. *)
Theorem stop_releases_session :
  forall lc b64 env m sid,
  running (st m) = true -> session (st m) = Some sid ->
  let m' := snd (stop lc b64 env m) in
  st m' = mkState (config (st m)) None None false (windowStart (st m))
            (signalHandlersInstalled (st m)) /\
  timersCreated (world m') = timersCreated (world m) /\
  disconnects (world m') = S (disconnects (world m)) /\
  (exists after,
     trace (world m') =
     (trace (world m)
        ++ match pushTimer (st m) with Some t => [EvClearTimeout t] | None => [] end
        ++ EvPost sid ProfilerStop :: after)%list) /\
  last (trace (world m')) = Some (EvDisconnect sid).
Proof.
  intros lc b64 env m sid Hrun Hs m'. subst m'.
  rewrite (stop_run lc b64 env m Hrun). cbn [snd].
  destruct m as [[cfg sess timer run ws sig] w]. cbn [st running session world] in *.
  subst run sess.
  unfold timerCancelled, endWindowWorld, endWindowEvents.
  destruct timer as [t|]; cbn;
    destruct (heap_enabled cfg); cbn;
    destruct (post_error env (posts w)); cbn;
    try destruct (String.eqb _ ""); try destruct (debug cfg); cbn;
    rewrite <- ?app_assoc; cbn;
    (split; [reflexivity|]); (split; [reflexivity|]); (split; [reflexivity|]);
    (split; [eexists; reflexivity|]); rewrite ?last_app; reflexivity.
Qed.

Lemma stop_releases_session_witness :
  session (st (snd (stop codeUnitCompare noBase64 testEnv (startedMachine baseConfig)))) = None /\
  last (trace (world (snd (stop codeUnitCompare noBase64 testEnv (startedMachine baseConfig)))))
  = Some (EvDisconnect 0%nat).
Proof.
  destruct (stop_releases_session codeUnitCompare noBase64 testEnv (startedMachine baseConfig)
              0%nat eq_refl eq_refl) as (Hst & _ & _ & _ & Hlast).
  split; [now rewrite Hst|exact Hlast].
Defined.

(** X19: when the push timer fires on a running instance, the
    callback closes the window, posts [Profiler.start] and schedules
    the next timer, in this order and whatever the posts answer: a
    failed [Profiler.stop] or [Profiler.start] is logged and the loop
    goes on.  The instance stays running on the same session and
    configuration, and the new window starts at the clock reading
    that follows the one taken as the end of the closed window. *)
Theorem timer_always_reschedules :
  forall lc b64 env m sid,
  running (st m) = true -> session (st m) = Some sid ->
  let m' := snd (timerCallback lc b64 env m) in
  let flushed := endWindowWorld lc b64 env m in
  running (st m') = true /\ session (st m') = Some sid /\ config (st m') = config (st m) /\
  pushTimer (st m') = Some (timersCreated (world m)) /\
  windowStart (st m') = (now_ms env (S (clockReads (world m))) / 1000)%Z /\
  trace (world m') =
    (trace (world m) ++ endWindowEvents lc b64 env m
       ++ EvPost sid ProfilerStart
       :: match post_error env (posts flushed) with
          | Some e => [EvConsole LError (MsgProfilerStartFailed e)]
          | None => []
          end
       ++ [EvSetTimeout (timersCreated (world m)) (pushIntervalMs (config (st m)))])%list.
Proof.
  intros lc b64 env m sid Hrun Hs m' flushed. subst m' flushed.
  rewrite timerCallback_run, Hrun. cbn [snd].
  destruct (endWindowWorld_counters lc b64 env m) as (Ht & _).
  assert (Hclock : clockReads (endWindowWorld lc b64 env m) = S (clockReads (world m))).
  { unfold endWindowWorld. now rewrite Hs. }
  unfold windowBegun. cbn [st world]. rewrite Hs, Hrun. cbn [negb].
  cbn [st world running session config pushTimer windowStart withPushTimer withWindowStart trace].
  rewrite Ht, Hclock, endWindowWorld_trace, <- !app_assoc.
  repeat split; assumption.
Qed.

Lemma timer_always_reschedules_witness :
  pushTimer (st (snd (timerCallback codeUnitCompare noBase64
                        (failingPostEnv 3 "inspector busy") (startedMachine baseConfig))))
  = Some 1%nat.
Proof.
  destruct (timer_always_reschedules codeUnitCompare noBase64
              (failingPostEnv 3 "inspector busy") (startedMachine baseConfig) 0%nat
              eq_refl eq_refl) as (_ & _ & _ & Ht & _).
  exact Ht.
Defined.

(** X20: [endWindowAndPush] changes no field of the instance.  Without
    a session it does nothing.  When [Profiler.stop] rejects it only
    logs the error: nothing is pushed and no heap flush is started.
    Otherwise it issues at most one push: none when the folded profile
    is empty, and else one CPU push of the folded profile, from the
    start of the window to the clock reading taken before the post,
    at the sample rate of the profile, named by the current labels. *)
Theorem endWindowAndPush_effects :
  forall lc b64 env m,
  let m' := snd (endWindowAndPush lc b64 env m) in
  let w := world m in
  st m' = st m /\
  trace (world m') = (trace w ++ endWindowEvents lc b64 env m)%list /\
  (session (st m) = None -> m' = m) /\
  (forall sid e, session (st m) = Some sid -> post_error env (posts w) = Some e ->
     endWindowEvents lc b64 env m =
     [EvPost sid ProfilerStop; EvConsole LError (MsgProfilerStopFailed e)]) /\
  (session (st m) <> None -> post_error env (posts w) = None ->
   pushesOf (endWindowEvents lc b64 env m) =
   let profile := cpu_result env (posts w) in
   if String.eqb (convertToFolded profile) "" then []
   else [mkPushRequest "cpu"
           (mkIngestUrl (pyroscopeUrl (config (st m)))
              (encodePyroscopeName lc (appName (config (st m))) (labels (config (st m))))
              (windowStart (st m)) (now_ms env (clockReads w) / 1000)%Z
              (calculateSampleRate profile) "nodespy" "folded")
           (authHeaderOf b64 (config (st m)))
           (convertToFolded profile)]).
Proof.
  intros lc b64 env m m' w. subst m' w.
  rewrite endWindowAndPush_run. cbn [snd st world].
  split; [reflexivity|]. split; [apply endWindowWorld_trace|].
  split; [|split].
  - intros Hs. destruct m as [s w]. cbn [st world] in *. unfold endWindowWorld.
    cbn [st world]. now rewrite Hs.
  - intros sid e Hs He. unfold endWindowEvents. now rewrite Hs, He.
  - intros Hs He. unfold endWindowEvents, requestOf.
    destruct (session (st m)) as [sid|]; [|congruence].
    rewrite He. cbn zeta. unfold pushesOf. cbn [flat_map app]. rewrite flat_map_app.
    destruct (String.eqb _ ""); [destruct (debug _)|];
      destruct (heap_enabled _); reflexivity.
Qed.

Lemma start_state env m :
  running (st (snd (start env m))) = true -> running (st m) = false ->
  is_Some (session (st (snd (start env m)))).
Proof.
  destruct m as [[cfg sess timer run ws sig] w]. cbn [st running].
  intros H ->. revert H. unfold_m. cbn. split_cases; cbn; intros H;
    try discriminate; eauto.
Qed.

Lemma tag_passthrough {T} lc b64 env extra (fn : M (Outcome T)) m :
  running (st m) = false \/ session (st m) = None ->
  tag lc b64 env extra fn m = fn m.
Proof.
  intros H. unfold tag. unfold mbind at 1. unfold M_bind, bind, getState at 1.
  destruct H as [-> | ->]; [reflexivity|].
  rewrite (bool_decide_false (is_Some None)) by (intros [? ?]; discriminate).
  now rewrite orb_true_r.
Qed.

Lemma tagLeft_state lc b64 env saved m :
  running (st (tagLeft lc b64 env saved m)) = running (st m) /\
  session (st (tagLeft lc b64 env saved m)) = session (st m) /\
  signalHandlersInstalled (st (tagLeft lc b64 env saved m)) = signalHandlersInstalled (st m).
Proof.
  unfold tagLeft, windowBegun, setLabels, timerCancelled.
  destruct m as [[cfg sess timer run ws sig] w]. cbn.
  destruct timer; cbn; destruct sess; cbn; destruct run; cbn; auto.
Qed.

Lemma tagEntered_state lc b64 env extra m :
  running (st (tagEntered lc b64 env extra m)) = running (st m) /\
  session (st (tagEntered lc b64 env extra m)) = session (st m) /\
  signalHandlersInstalled (st (tagEntered lc b64 env extra m)) = signalHandlersInstalled (st m).
Proof.
  unfold tagEntered, windowBegun, setLabels, timerCancelled.
  destruct m as [[cfg sess timer run ws sig] w]. cbn.
  destruct timer; cbn; destruct sess; cbn; destruct run; cbn; auto.
Qed.

(** X21: "a running instance has a session" is an invariant of the
    instance: [start()], [stop()], the timer callback, the continuation
    of a heap flush and [tag()] around any function that keeps it,
    all keep it. *)
Theorem session_while_running :
  forall lc b64 env m, sessionWhileRunning m ->
  sessionWhileRunning (snd (start env m)) /\
  sessionWhileRunning (snd (stop lc b64 env m)) /\
  sessionWhileRunning (snd (timerCallback lc b64 env m)) /\
  (forall from until k,
     sessionWhileRunning (snd (flushHeapWindow_resume lc b64 env from until k m))) /\
  (forall T extra (fn : M (Outcome T)),
     (forall m0, sessionWhileRunning m0 -> sessionWhileRunning (snd (fn m0))) ->
     sessionWhileRunning (snd (tag lc b64 env extra fn m))).
Proof.
  intros lc b64 env m Hwf. unfold sessionWhileRunning in *.
  split; [|split; [|split; [|split]]].
  - destruct (running (st m)) eqn:Hrun.
    + intros _. assert (Hs : st (snd (start env m)) = st m).
      { unfold_m. now rewrite Hrun. }
      rewrite Hs. now apply Hwf.
    + intros H. now apply start_state.
  - rewrite stop_stops. discriminate.
  - rewrite timerCallback_run. cbn [snd].
    destruct (running (st m)) eqn:Hrun.
    + destruct (Hwf eq_refl) as [sid Hs]. intros _.
      unfold windowBegun. cbn [st]. rewrite Hs, Hrun. cbn. eauto.
    + cbn [st]. congruence.
  - intros from until k.
    assert (Hs : st (snd (flushHeapWindow_resume lc b64 env from until k m)) = st m).
    { destruct m as [[cfg sess timer run ws sig] w]. unfold_m. cbn.
      split_cases; reflexivity. }
    now rewrite Hs.
  - intros T extra fn Hfn.
    destruct (running (st m)) eqn:Hrun.
    + destruct (Hwf eq_refl) as [sid Hs].
      rewrite tag_run by eauto. cbn [snd].
      destruct (tagLeft_state lc b64 env (labels (config (st m)))
                  (snd (fn (tagEntered lc b64 env extra m)))) as (-> & -> & _).
      apply Hfn. destruct (tagEntered_state lc b64 env extra m) as (_ & -> & _).
      intros _. eauto.
    + rewrite tag_passthrough by now left. apply Hfn. intros H. congruence.
Qed.

Lemma session_while_running_witness :
  sessionWhileRunning (snd (start testEnv (idleMachine baseConfig))) /\
  sessionWhileRunning
    (snd (stop codeUnitCompare noBase64 testEnv (idleMachine baseConfig))).
Proof.
  destruct (session_while_running codeUnitCompare noBase64 testEnv (idleMachine baseConfig))
    as (H1 & H2 & _).
  - intros H. discriminate H.
  - split; [exact H1|exact H2].
Defined.

(** X22: on an instance that is not running or has no session,
    [tag(extraLabels, fn)] is [fn()]: same result and same effects,
    nothing posted and no label changed.  This is so on a new instance
    and after any [stop()]. *)
Theorem tag_stopped_is_fn :
  forall lc b64 env (T : Type) (extra : JsMap.t string) (fn : M (Outcome T)),
  (forall m, running (st m) = false \/ session (st m) = None ->
     tag lc b64 env extra fn m = fn m) /\
  (forall c, tag lc b64 env extra fn (idleMachine c) = fn (idleMachine c)) /\
  (forall m,
     tag lc b64 env extra fn (snd (stop lc b64 env m)) = fn (snd (stop lc b64 env m))).
Proof.
  intros lc b64 env T extra fn. split; [|split].
  - intros m. apply tag_passthrough.
  - intros c. apply tag_passthrough. now left.
  - intros m. apply tag_passthrough. left. apply stop_stops.
Qed.

Module HandlerFacts.
Import Profiler ProfilerExtra.

Lemma quietStep_refl m : quietStep m m.
Proof. split; [reflexivity|]. exists []. split; [now rewrite app_nil_r|constructor]. Qed.

Lemma quietStep_trans m1 m2 m3 : quietStep m1 m2 -> quietStep m2 m3 -> quietStep m1 m3.
Proof.
  intros [Hf1 (e1 & Ht1 & Hq1)] [Hf2 (e2 & Ht2 & Hq2)]. split; [congruence|].
  exists (e1 ++ e2)%list. split; [rewrite Ht2, Ht1; symmetry; apply app_assoc|].
  apply Forall_app. now split.
Qed.

Lemma quietStep_preserves m m' :
  quietStep m m' -> handlersInstalledOnce m -> handlersInstalledOnce m'.
Proof.
  intros [Hf (evs & Ht & Hq)]. unfold handlersInstalledOnce. rewrite Hf, Ht.
  rewrite List.filter_app, length_app.
  replace (List.filter isSignalInstall evs) with (@nil Event); [cbn; lia|].
  symmetry. clear -Hq. induction Hq as [|e evs He _ IH]; [reflexivity|].
  cbn [List.filter]. rewrite He. exact IH.
Qed.

Section Steps.

Variable lc : string -> string -> Z.
Variable b64 : string -> string.
Variable env : Env.

Lemma quiet_timerCancelled m : quietStep m (timerCancelled m).
Proof.
  unfold timerCancelled. destruct (pushTimer (st m)); [|apply quietStep_refl].
  split; [reflexivity|]. eexists. split; [reflexivity|]. repeat constructor.
Qed.

Lemma quiet_endWindow m : quietStep m (mkMachine (st m) (endWindowWorld lc b64 env m)).
Proof.
  split; [reflexivity|]. exists (endWindowEvents lc b64 env m).
  split; [apply endWindowWorld_trace|].
  unfold endWindowEvents. destruct (session (st m)); [|constructor].
  destruct (post_error env _); [repeat constructor|].
  destruct (String.eqb _ ""); [destruct (debug _)|];
    destruct (heap_enabled _); repeat constructor.
Qed.

Lemma quiet_windowBegun schedule m : quietStep m (windowBegun env schedule m).
Proof.
  unfold windowBegun. destruct (session (st m)); [|apply quietStep_refl].
  destruct (running (st m)); cbn [negb]; [|apply quietStep_refl].
  destruct schedule; (split; [reflexivity|]); cbn [world trace]; eexists;
    (split; [reflexivity|]); destruct (post_error env _); repeat constructor.
Qed.

Lemma quiet_setLabels ls m : quietStep m (setLabels ls m).
Proof. split; [reflexivity|]. exists []. split; [now rewrite app_nil_r|constructor]. Qed.

Lemma quiet_tagEntered extra m : quietStep m (tagEntered lc b64 env extra m).
Proof.
  unfold tagEntered.
  eapply quietStep_trans; [apply quiet_timerCancelled|].
  eapply quietStep_trans; [apply quiet_endWindow|].
  eapply quietStep_trans; [apply quiet_setLabels|]. apply quiet_windowBegun.
Qed.

Lemma quiet_tagLeft saved m : quietStep m (tagLeft lc b64 env saved m).
Proof.
  unfold tagLeft.
  eapply quietStep_trans; [apply quiet_timerCancelled|].
  eapply quietStep_trans; [apply quiet_endWindow|].
  eapply quietStep_trans; [apply quiet_setLabels|]. apply quiet_windowBegun.
Qed.

Lemma quiet_timerCallback m : quietStep m (snd (timerCallback lc b64 env m)).
Proof.
  rewrite timerCallback_run. cbn [snd].
  destruct (running (st m)); [|apply quiet_endWindow].
  eapply quietStep_trans; [apply quiet_endWindow|]. apply quiet_windowBegun.
Qed.

Lemma quiet_heapResume from until k m :
  quietStep m (snd (flushHeapWindow_resume lc b64 env from until k m)).
Proof.
  split.
  - destruct m as [[cfg sess timer run ws sig] w]. unfold_m. cbn. split_cases; reflexivity.
  - exists (heapResumeEvents lc b64 env from until k m).
    split; [apply flushHeapWindow_resume_trace|].
    unfold heapResumeEvents. destruct (post_error env k); [repeat constructor|].
    apply Forall_app. split.
    + destruct (session (st m)); [destruct (post_error env _)|]; repeat constructor.
    + destruct (String.eqb _ ""); [destruct (debug _)|]; repeat constructor.
Qed.

Lemma quiet_stop m : quietStep m (snd (stop lc b64 env m)).
Proof.
  destruct (running (st m)) eqn:Hrun.
  - rewrite (stop_run lc b64 env m Hrun). cbn [snd]. cbn zeta.
    set (m0 := mkMachine (withRunning false (st m)) (world m)).
    assert (H0 : quietStep m m0).
    { subst m0. split; [reflexivity|]. exists []. cbn [world].
      split; [now rewrite app_nil_r|constructor]. }
    assert (H1 : quietStep m (timerCancelled m0))
      by (eapply quietStep_trans; [exact H0|apply quiet_timerCancelled]).
    set (m1 := timerCancelled m0) in *.
    assert (H2 : quietStep m (mkMachine (st m1) (endWindowWorld lc b64 env m1)))
      by (eapply quietStep_trans; [exact H1|apply quiet_endWindow]).
    destruct (session (st m1)); [|exact H2].
    eapply quietStep_trans; [exact H2|].
    split; [reflexivity|]. cbn [world trace].
    destruct (heap_enabled (config (st m1))); cbn [trace]; rewrite <- ?app_assoc;
      eexists; (split; [reflexivity|]); repeat constructor.
  - assert (Hs : stop lc b64 env m = (tt, m)) by (unfold_m; now rewrite Hrun).
    rewrite Hs. apply quietStep_refl.
Qed.

Lemma start_handlers m :
  handlersInstalledOnce m -> handlersInstalledOnce (snd (start env m)).
Proof.
  unfold handlersInstalledOnce.
  destruct m as [[cfg sess timer run ws sig] w]. cbn [st world signalHandlersInstalled trace].
  intros H. unfold_m. cbn. split_cases; cbn;
    rewrite <- ?app_assoc, ?List.filter_app, ?length_app; cbn;
    rewrite ?H; cbn; try lia; rewrite ?Nat.add_0_r; try reflexivity; try exact H.
Qed.

End Steps.

End HandlerFacts.

Import HandlerFacts.

(** X23: the signal handlers are installed at most once in the life of
    an instance: the number of installations is 1 when the flag
    [signalHandlersInstalled] is set and 0 when it is not, and
    [start()], [stop()], the timer callback, the continuation of a heap
    flush and [tag()] keep it so.  [stop()] leaves the flag set, so a
    restart does not install them again. *)
Theorem signal_handlers_installed_once :
  forall lc b64 env m, handlersInstalledOnce m ->
  handlersInstalledOnce (snd (start env m)) /\
  handlersInstalledOnce (snd (stop lc b64 env m)) /\
  handlersInstalledOnce (snd (timerCallback lc b64 env m)) /\
  (forall from until k,
     handlersInstalledOnce (snd (flushHeapWindow_resume lc b64 env from until k m))) /\
  (forall T extra (fn : M (Outcome T)),
     (forall m0, handlersInstalledOnce m0 -> handlersInstalledOnce (snd (fn m0))) ->
     handlersInstalledOnce (snd (tag lc b64 env extra fn m))) /\
  (signalHandlersInstalled (st m) = true ->
   signalHandlersInstalled (st (snd (stop lc b64 env m))) = true /\
   signalHandlersInstalled (st (snd (start env (snd (stop lc b64 env m))))) = true).
Proof.
  intros lc b64 env m Hinv.
  split; [now apply start_handlers|].
  split; [exact (quietStep_preserves _ _ (quiet_stop lc b64 env m) Hinv)|].
  split; [exact (quietStep_preserves _ _ (quiet_timerCallback lc b64 env m) Hinv)|].
  split; [intros from until k;
          exact (quietStep_preserves _ _ (quiet_heapResume lc b64 env from until k m) Hinv)|].
  split.
  - intros T extra fn Hfn.
    destruct (running (st m)) eqn:Hrun; [destruct (session (st m)) as [sid|] eqn:Hs|].
    + rewrite tag_run by eauto. cbn [snd].
      apply (quietStep_preserves _ _ (quiet_tagLeft lc b64 env _ _)).
      apply Hfn. exact (quietStep_preserves _ _ (quiet_tagEntered lc b64 env extra m) Hinv).
    + rewrite tag_passthrough by now right. now apply Hfn.
    + rewrite tag_passthrough by now left. now apply Hfn.
  - intros Hflag.
    destruct (quiet_stop lc b64 env m) as [Hf _].
    assert (Hstop : signalHandlersInstalled (st (snd (stop lc b64 env m))) = true)
      by congruence.
    split; [exact Hstop|].
    generalize dependent (snd (stop lc b64 env m)). clear. intros m' _ Hflag.
    destruct m' as [[cfg sess timer run ws sig] w]. cbn [st signalHandlersInstalled] in *.
    subst sig. unfold_m. cbn. split_cases; reflexivity.
Qed.

Lemma signal_handlers_installed_once_witness :
  handlersInstalledOnce (snd (start testEnv (idleMachine baseConfig))) /\
  handlersInstalledOnce
    (snd (stop codeUnitCompare noBase64 testEnv (idleMachine baseConfig))).
Proof.
  destruct (signal_handlers_installed_once codeUnitCompare noBase64 testEnv
              (idleMachine baseConfig)) as (H1 & H2 & _).
  - reflexivity.
  - split; [exact H1|exact H2].
Defined.

Lemma tagLeft_pushTimer lc b64 env saved m :
  running (st m) = true -> is_Some (session (st m)) ->
  is_Some (pushTimer (st (tagLeft lc b64 env saved m))).
Proof.
  intros Hrun [sid Hs]. unfold tagLeft, windowBegun.
  assert (H1 : session (st (setLabels saved
                 (mkMachine (st (timerCancelled m))
                    (endWindowWorld lc b64 env (timerCancelled m))))) = Some sid).
  { cbn [setLabels st withConfig session]. unfold timerCancelled.
    now destruct (pushTimer (st m)). }
  assert (H2 : running (st (setLabels saved
                 (mkMachine (st (timerCancelled m))
                    (endWindowWorld lc b64 env (timerCancelled m))))) = true).
  { cbn [setLabels st withConfig running]. unfold timerCancelled.
    now destruct (pushTimer (st m)). }
  rewrite H1, H2. cbn. eauto.
Qed.

Lemma tagLeft_clears lc b64 env saved m t :
  pushTimer (st m) = Some t ->
  In (EvClearTimeout t) (trace (world (tagLeft lc b64 env saved m))).
Proof.
  intros Ht. unfold tagLeft.
  destruct (windowBegun_trace env true
              (setLabels saved
                 (mkMachine (st (timerCancelled m))
                    (endWindowWorld lc b64 env (timerCancelled m))))) as [evs ->].
  cbn [setLabels world]. rewrite endWindowWorld_trace, timerCancelled_trace, Ht.
  apply in_or_app. left. apply in_or_app. left. apply in_or_app. right. now left.
Qed.

(** X24: [tag] calls nest.  Inside the inner call the labels are the
    pre-tag labels overlaid with the outer and then the inner extra
    labels; when the inner call returns they are the outer overlay
    again, and the pushes that the outer call issues inside its
    closing flush, which are CPU pushes, are encoded under the outer
    overlay; when the outer call returns the labels are the pre-tag
    labels.  The result is that of the function.  The timer that the
    inner call schedules on leaving is cleared by the outer call.
    Heap pushes are not issued inside a flush and are not among
    these. *)
Theorem tag_nests :
  forall lc b64 env (T : Type) (outer inner : JsMap.t string) (fn : M (Outcome T))
         (m : Machine),
  running (st m) = true -> is_Some (session (st m)) ->
  let saved := labels (config (st m)) in
  let entered1 := tagEntered lc b64 env outer m in
  let entered2 := tagEntered lc b64 env inner entered1 in
  let afterInner := snd (tag lc b64 env inner fn entered1) in
  let run := tag lc b64 env outer (tag lc b64 env inner fn) m in
  fst run = fst (fn entered2) /\
  labels (config (st entered2)) = JsMap.spread (JsMap.spread saved outer) inner /\
  labels (config (st afterInner)) = JsMap.spread saved outer /\
  labels (config (st (snd run))) = saved /\
  Forall (fun req =>
            req_type req = "cpu" /\
            url_name (req_url req) =
            encodePyroscopeName lc (appName (config (st afterInner)))
              (JsMap.spread saved outer))
    (pushesOf (endWindowEvents lc b64 env (timerCancelled afterInner))) /\
  (running (st (snd (fn entered2))) = true -> is_Some (session (st (snd (fn entered2)))) ->
   exists t, pushTimer (st afterInner) = Some t /\
             In (EvClearTimeout t) (trace (world (snd run)))).
Proof.
  intros lc b64 env T outer inner fn m Hrun Hs saved entered1 entered2 afterInner run.
  destruct (tagEntered_state lc b64 env outer m) as (Hr1 & Hs1 & _).
  fold entered1 in Hr1, Hs1.
  assert (Hrun1 : running (st entered1) = true) by congruence.
  assert (Hsess1 : is_Some (session (st entered1))) by (rewrite Hs1; exact Hs).
  assert (Hl1 : labels (config (st entered1)) = JsMap.spread saved outer).
  { subst entered1. unfold tagEntered. rewrite windowBegun_config. reflexivity. }
  assert (Hinner : tag lc b64 env inner fn entered1 =
                   (fst (fn entered2),
                    tagLeft lc b64 env (labels (config (st entered1))) (snd (fn entered2)))).
  { subst entered2. now apply tag_run. }
  assert (Hafter : afterInner =
                   tagLeft lc b64 env (JsMap.spread saved outer) (snd (fn entered2))).
  { subst afterInner. rewrite Hinner, Hl1. reflexivity. }
  assert (Hla : labels (config (st afterInner)) = JsMap.spread saved outer).
  { rewrite Hafter. unfold tagLeft. rewrite windowBegun_config. reflexivity. }
  assert (Hrun_eq : run = (fst (fn entered2), tagLeft lc b64 env saved afterInner)).
  { subst run afterInner. rewrite tag_run by assumption. fold entered1.
    rewrite Hinner. reflexivity. }
  split; [now rewrite Hrun_eq|]. split.
  { subst entered2. unfold tagEntered at 1. rewrite windowBegun_config.
    cbn [setLabels st config withConfig withLabels labels]. now rewrite Hl1. }
  split; [exact Hla|]. split.
  { rewrite Hrun_eq. cbn [snd]. unfold tagLeft. rewrite windowBegun_config. reflexivity. }
  split.
  { apply Forall_forall. intros req Hin. apply list_elem_of_In in Hin.
    destruct (endWindowEvents_pushes lc b64 env _ req Hin) as [Ht Hn].
    split; [exact Ht|]. now rewrite timerCancelled_config, Hla in Hn. }
  intros Hrun2 Hsess2.
  destruct (tagLeft_pushTimer lc b64 env (JsMap.spread saved outer) (snd (fn entered2))
              Hrun2 Hsess2) as [t Ht].
  rewrite <- Hafter in Ht. exists t. split; [exact Ht|].
  rewrite Hrun_eq. cbn [snd]. now apply tagLeft_clears.
Qed.

Lemma tag_nests_witness :
  fst (tag codeUnitCompare noBase64 testEnv routeLabel
         (tag codeUnitCompare noBase64 testEnv [("user", "u1")] (readLabel "user"))
         (startedMachine baseConfig)) = Returned (Some "u1") /\
  labels (config (st (snd (tag codeUnitCompare noBase64 testEnv routeLabel
                             (tag codeUnitCompare noBase64 testEnv [("user", "u1")]
                                (readLabel "user"))
                             (startedMachine baseConfig))))) = labels baseConfig.
Proof.
  destruct (tag_nests codeUnitCompare noBase64 testEnv (option string) routeLabel
              [("user", "u1")] (readLabel "user") (startedMachine baseConfig))
    as (Hres & _ & _ & Hlabels & _).
  - vm_compute. reflexivity.
  - vm_compute. eauto.
  - split; [exact Hres|exact Hlabels].
Defined.

(** X25: the continuation of [flushHeapWindow] changes no field of the
    instance.  When [HeapProfiler.stopSampling] was rejected it logs a
    warning and does nothing else.  Otherwise it first posts
    [HeapProfiler.startSampling] again, and then, whether or not that
    post is answered, issues one heap push of the folded heap profile
    with sample rate 1 for the window it was started for, or none
    when the folded profile is empty. *)
Theorem heap_flush_continuation :
  forall lc b64 env from until k m,
  let m' := snd (flushHeapWindow_resume lc b64 env from until k m) in
  let evs := heapResumeEvents lc b64 env from until k m in
  st m' = st m /\
  trace (world m') = (trace (world m) ++ evs)%list /\
  (forall e, post_error env k = Some e ->
     evs = [EvConsole LWarn (MsgHeapStopFailed e)]) /\
  (forall sid, post_error env k = None -> session (st m) = Some sid ->
     exists rest,
       evs = EvPost sid (HeapProfilerStartSampling
                           (heap_samplingIntervalBytes (config (st m)))) :: rest) /\
  (post_error env k = None ->
   pushesOf evs =
   let folded := convertHeapToFolded (heap_result env k) in
   if String.eqb folded "" then []
   else [mkPushRequest "alloc_space"
           (mkIngestUrl (pyroscopeUrl (config (st m)))
              (encodePyroscopeName lc (appName (config (st m))) (labels (config (st m))))
              from until 1%float "nodespy" "folded")
           (authHeaderOf b64 (config (st m))) folded]).
Proof.
  intros lc b64 env from until k m m' evs. subst m' evs.
  split; [|split; [apply flushHeapWindow_resume_trace|]].
  { destruct m as [[cfg sess timer run ws sig] w]. unfold_m. cbn. split_cases; reflexivity. }
  unfold heapResumeEvents, requestOf. split; [|split].
  - intros e He. now rewrite He.
  - intros sid He Hs. rewrite He, Hs. cbn [app]. eexists. reflexivity.
  - intros He. rewrite He. cbn zeta. unfold pushesOf. rewrite flat_map_app.
    replace (flat_map _ (match session (st m) with Some _ => _ | None => _ end))
      with (@nil PushRequest).
    + cbn [app]. destruct (String.eqb _ ""); [destruct (debug _)|]; reflexivity.
    + destruct (session (st m)); [destruct (post_error env (posts (world m)))|];
        reflexivity.
Qed.

(** X26: a push takes its request from the configuration as it is at
    the call: the url, the name and the [Authorization] header are
    fixed before the first attempt, and the call changes no field of
    the instance.  The header is "Bearer token" when a non-empty token
    is configured, even if basic credentials are configured too;
    with no token, or an empty one, it is "Basic" followed by the
    base64 form of "username:password" when credentials are
    configured, and there is no header otherwise. *)
Theorem push_authorization :
  forall lc b64 folded from until rate type (m : Machine),
  let c := config (st m) in
  let m' := snd (pushDetached lc b64 folded from until rate type m) in
  (exists auth,
     m' = mkMachine (st m)
            (mkWorld
               (trace (world m)
                  ++ [EvPush (mkPushRequest type
                                (mkIngestUrl (pyroscopeUrl c)
                                   (encodePyroscopeName lc (appName c) (labels c))
                                   from until rate "nodespy" "folded")
                                auth folded)])
               (posts (world m)) (clockReads (world m)) (sessionsCreated (world m))
               (timersCreated (world m)) (connects (world m)) (disconnects (world m))) /\
     auth = fst (buildAuthHeader b64 m)) /\
  (forall token, authToken c = Some token -> token <> "" ->
     fst (buildAuthHeader b64 m) = Some ("Bearer " ++ token)) /\
  (forall username password,
     authToken c = None \/ authToken c = Some "" ->
     basicAuth c = Some (username, password) ->
     fst (buildAuthHeader b64 m) = Some ("Basic " ++ b64 (username ++ ":" ++ password))) /\
  (authToken c = None \/ authToken c = Some "" -> basicAuth c = None ->
   fst (buildAuthHeader b64 m) = None).
Proof.
  intros lc b64 folded from until rate type m c m'. subst c m'.
  destruct m as [[cfg sess timer run ws sig] w]. cbn [st config world].
  split; [|split; [|split]].
  - eexists. split; [|reflexivity]. unfold_m. cbn. reflexivity.
  - intros token Ht Hne. unfold_m. cbn. rewrite Ht.
    apply String.eqb_neq in Hne. now rewrite Hne.
  - intros username password Ht Hb. unfold_m. cbn. rewrite Hb.
    destruct Ht as [-> | ->]; reflexivity.
  - intros Ht Hb. unfold_m. cbn. rewrite Hb.
    destruct Ht as [-> | ->]; reflexivity.
Qed.
(** ** The sample rate of a profile without a usable duration *)

Lemma sub_nan st et :
  Prim2SF et = S754_nan \/ Prim2SF st = S754_nan -> Prim2SF (et - st) = S754_nan.
Proof.
  intros H. rewrite sub_spec. unfold SF64sub, SFsub.
  destruct H as [-> | ->]; [reflexivity|].
  now destruct (Prim2SF et) as [[|]|[|]| |[|] ? ?].
Qed.

Lemma leb_nan d y : Prim2SF d = S754_nan -> (d <=? y)%float = false.
Proof. intros H. rewrite leb_spec. unfold SFleb, SFcompare. now rewrite H. Qed.

Lemma leb_nan_r x d : Prim2SF d = S754_nan -> (x <=? d)%float = false.
Proof.
  intros H. rewrite leb_spec. unfold SFleb, SFcompare. rewrite H.
  now destruct (Prim2SF x) as [[|]|[|]| |[|] ? ?].
Qed.

Lemma rate_nan n d :
  Prim2SF d = S754_nan ->
  Prim2SF (JsNumber.round ((JsNumber.ofLength n / d) * 1000000)%float) = S754_nan.
Proof.
  intros H.
  assert (Hdiv : Prim2SF (JsNumber.ofLength n / d) = S754_nan).
  { rewrite div_spec. unfold SF64div, SFdiv. rewrite H.
    now destruct (Prim2SF (JsNumber.ofLength n)) as [[|]|[|]| |[|] ? ?]. }
  assert (Hmul : Prim2SF ((JsNumber.ofLength n / d) * 1000000) = S754_nan).
  { rewrite mul_spec. unfold SF64mul, SFmul. now rewrite Hdiv. }
  unfold JsNumber.round. now rewrite Hmul.
Qed.

(** C8 (the code evaluated): [calculateSampleRate] guards against an
    absent or empty sample sequence and against a duration that is at
    most 0, and not against a duration that is not a number.  A
    timestamp that is NaN, or missing at run time (the subtraction
    then reads it as NaN), makes [endTime - startTime] NaN.  For every
    profile with at least one sample and such a duration the guard
    [durationUs <= 0] is false, the division and the rounding are
    carried out on NaN, and the rate returned is NaN: it is not 100,
    not at least 0 and not equal to itself.  So it is for three
    samples with [startTime = 0] and [endTime = NaN]. *)
Theorem calculateSampleRate_nan_duration :
  (forall st et, Prim2SF et = S754_nan \/ Prim2SF st = S754_nan ->
     Prim2SF (et - st) = S754_nan) /\
  (forall profile smpls,
     samples profile = Some smpls -> smpls <> [] ->
     Prim2SF (durationUs profile) = S754_nan ->
     (durationUs profile <=? 0)%float = false /\
     Prim2SF (calculateSampleRate profile) = S754_nan /\
     (0 <=? calculateSampleRate profile)%float = false /\
     (calculateSampleRate profile =? calculateSampleRate profile)%float = false) /\
  Prim2SF (calculateSampleRate (profileOfLength 3 0%float nan)) = S754_nan /\
  (0 <=? calculateSampleRate (profileOfLength 3 0%float nan))%float = false /\
  calculateSampleRate (profileOfLength 3 0%float nan) <> 100%float.
Proof.
  split; [exact sub_nan|]. split.
  - intros profile smpls Hs Hne Hnan.
    assert (Hguard : (durationUs profile <=? 0)%float = false) by now apply leb_nan.
    assert (Hrate : Prim2SF (calculateSampleRate profile) = S754_nan).
    { unfold calculateSampleRate. rewrite Hs.
      destruct smpls as [|s smpls]; [congruence|].
      unfold durationUs in Hguard, Hnan. cbv zeta. rewrite Hguard.
      now apply rate_nan. }
    repeat split; [exact Hguard|exact Hrate|now apply leb_nan_r|].
    rewrite FloatAxioms.eqb_spec. unfold SFeqb, SFcompare. now rewrite Hrate.
  - repeat split; try (vm_compute; reflexivity).
    intros H. apply (f_equal Prim2SF) in H. vm_compute in H. discriminate H.
Qed.
(** ** The heap push of a tagged window *)

Lemma heapResumeEvents_window lc b64 env from until k m req :
  In req (pushesOf (heapResumeEvents lc b64 env from until k m)) ->
  url_from (req_url req) = from /\ url_until (req_url req) = until.
Proof.
  unfold heapResumeEvents.
  destruct (post_error env k); [intros []|].
  unfold pushesOf. rewrite flat_map_app.
  destruct (session (st m)); [destruct (post_error env (posts (world m)))|];
    destruct (String.eqb _ ""), (debug (config (st m))); cbn;
    intros H; intuition (subst; auto).
Qed.

(** C6 (the code evaluated): with [heap.enabled], the flush that
    closes the tagged window issues the CPU push only.  For the heap
    profile it posts [HeapProfiler.stopSampling] and leaves the rest of
    [flushHeapWindow], which the code does not await, pending; [tag]
    goes on and restores the pre-tag labels.  The pending rest builds
    its request when it runs: resumed on any later state of the
    instance whose labels are the restored ones, it pushes the heap
    profile of the tagged window, with the bounds of that window, under
    the pre-tag labels.  In the test setting with the extra label
    [route=api] the tagged window [1700000002, 1700000003] is pushed as
    a CPU profile with [route=api] and as a heap profile without it;
    and the heap flush left pending by the flush on entry, resumed
    inside the tag, pushes the window before the tag with
    [route=api]. *)
Theorem tag_heap_push_after_restore :
  (forall lc b64 env (T : Type) (extra : JsMap.t string) (fn : M (Outcome T))
          (m : Machine) (sid : SessionId),
     running (st m) = true -> is_Some (session (st m)) ->
     let saved := labels (config (st m)) in
     let closing := timerCancelled (snd (fn (tagEntered lc b64 env extra m))) in
     let left := snd (tag lc b64 env extra fn m) in
     let from := windowStart (st closing) in
     let until := (now_ms env (clockReads (world closing)) / 1000)%Z in
     let k := S (posts (world closing)) in
     session (st closing) = Some sid ->
     heap_enabled (config (st closing)) = true ->
     post_error env (posts (world closing)) = None ->
     In (EvHeapFlushPending from until k) (trace (world left)) /\
     Forall (fun req => req_type req = "cpu")
       (pushesOf (endWindowEvents lc b64 env closing)) /\
     labels (config (st left)) = saved /\
     forall later, labels (config (st later)) = saved ->
       Forall (fun req =>
                 req_type req = "alloc_space" /\
                 url_from (req_url req) = from /\ url_until (req_url req) = until /\
                 url_name (req_url req) =
                   encodePyroscopeName lc (appName (config (st later))) saved)
         (pushesOf (heapResumeEvents lc b64 env from until k later))) /\
  (let left :=
     snd (tag codeUnitCompare noBase64 testEnv routeLabel throwing (startedMachine heapConfig)) in
   map (fun req => (req_type req, url_from (req_url req), url_until (req_url req),
                    url_name (req_url req)))
     (pushesOf (trace (world left))
        ++ pushesOf (heapResumeEvents codeUnitCompare noBase64 testEnv
                       1700000002 1700000003 9 left)) =
   [("cpu", 1700000000, 1700000001, "test-app.cpu{hostname=web-1,service_name=test-app}");
    ("cpu", 1700000002, 1700000003,
     "test-app.cpu{hostname=web-1,route=api,service_name=test-app}");
    ("alloc_space", 1700000002, 1700000003,
     "test-app.cpu{hostname=web-1,service_name=test-app}")]%Z) /\
  (let entered :=
     tagEntered codeUnitCompare noBase64 testEnv routeLabel (startedMachine heapConfig) in
   In (EvHeapFlushPending 1700000000 1700000001 6) (trace (world entered)) /\
   map (fun req => (req_type req, url_from (req_url req), url_until (req_url req),
                    url_name (req_url req)))
     (pushesOf (heapResumeEvents codeUnitCompare noBase64 testEnv
                  1700000000 1700000001 6 entered)) =
   [("alloc_space", 1700000000, 1700000001,
     "test-app.cpu{hostname=web-1,route=api,service_name=test-app}")]%Z).
Proof.
  split; [|split; [vm_compute; reflexivity|]].
  2:{ split; [|vm_compute; reflexivity].
      vm_compute. do 12 right. left. reflexivity. }
  intros lc b64 env T extra fn m sid Hrun Hs saved closing left from until k
    Hsid Hheap Hpost.
  assert (Hleft : left = tagLeft lc b64 env saved (snd (fn (tagEntered lc b64 env extra m)))).
  { subst left. rewrite tag_run by assumption. reflexivity. }
  assert (Hlabels : labels (config (st left)) = saved).
  { rewrite Hleft. unfold tagLeft. rewrite windowBegun_config. reflexivity. }
  split; [|split; [|split; [exact Hlabels|]]].
  - rewrite Hleft. unfold tagLeft. fold closing.
    destruct (windowBegun_trace env true
                (setLabels saved
                   (mkMachine (st closing) (endWindowWorld lc b64 env closing))))
      as [evs ->].
    cbn [setLabels world]. rewrite endWindowWorld_trace.
    apply in_or_app. left. apply in_or_app. right.
    unfold endWindowEvents. rewrite Hsid, Hpost, Hheap.
    right. apply in_or_app. right. right. left. reflexivity.
  - apply Forall_forall. intros req Hin. apply list_elem_of_In in Hin.
    now destruct (endWindowEvents_pushes lc b64 env closing req Hin).
  - intros later Hlater. apply Forall_forall. intros req Hin.
    apply list_elem_of_In in Hin.
    destruct (heapResumeEvents_pushes lc b64 env from until k later req Hin)
      as (Ht & _ & Hn).
    destruct (heapResumeEvents_window lc b64 env from until k later req Hin) as [Hf Hu].
    rewrite Hlater in Hn. repeat split; assumption.
Qed.

Lemma tag_heap_push_after_restore_witness :
  In (EvHeapFlushPending 1700000002 1700000003 9)
    (trace (world (snd (tag codeUnitCompare noBase64 testEnv routeLabel throwing
                          (startedMachine heapConfig))))) /\
  labels (config (st (snd (tag codeUnitCompare noBase64 testEnv routeLabel throwing
                             (startedMachine heapConfig))))) = labels heapConfig.
Proof.
  destruct tag_heap_push_after_restore as [Hgen _].
  destruct (Hgen codeUnitCompare noBase64 testEnv Z routeLabel throwing
              (startedMachine heapConfig) 0%nat) as (Hpending & _ & Hlabels & _).
  - vm_compute. reflexivity.
  - vm_compute. eauto.
  - vm_compute. reflexivity.
  - vm_compute. reflexivity.
  - vm_compute. reflexivity.
  - split; [exact Hpending|exact Hlabels].
Defined.
